(** * Session and transport coordination layer of mcp-nextcloud-calendar

    A shallow embedding of
    - [workers/src/durable-objects/session-store.ts]: the durable objects
      [SessionStore] and [CalendarCache];
    - the MCP transport module (unified [/mcp] endpoint, legacy [/sse] and
      [/messages] endpoints, keep-alive pinger).

    A [Map] is a finite map ([gmap]) over its keys. The two registries of
    the transport module are object literals, and are modelled as such:
    own properties, a prototype, and the members every object inherits
    from [Object.prototype]. [Date.now()] is an integer number of
    milliseconds handed to each operation; identifiers produced by
    [nanoid()], [uuidv4()] and [setInterval] are handed in by the caller or
    drawn from a counter. What the SDK does inside [server.connect] and
    [transport.handlePostMessage] is supplied by the environment, as are
    the moments at which streams close and intervals fire. The handlers
    of the two durable objects are given twice: with every write to
    durable storage resolving, and, in the submodules [WithStorage], with
    the outcome of the write as a parameter. Console output is left
    out. *)

From Stdlib Require Import ZArith String Ascii List Bool Lia.
From stdpp Require Import gmap strings list fin_maps.

Set Warnings "-register-all".

Local Open Scope string_scope.
Local Open Scope Z_scope.

(** ** JSON values and JavaScript string helpers *)

Inductive json : Type :=
| JNull
| JBool (b : bool)
| JNum (z : Z)
| JStr (s : string)
| JArr (items : list json)
| JObj (fields : list (string * json)).

(** Truthiness of a string that may be [undefined]/[null]: the empty string
    is falsy, as in [if (!sessionId)] and [x || fallback]. *)
Definition truthy (o : option string) : bool :=
  match o with
  | Some s => negb (String.eqb s "")
  | None => false
  end.

(** [o || fallback] on strings. *)
Definition or_else (o : option string) (fallback : string) : string :=
  match o with
  | Some s => if String.eqb s "" then fallback else s
  | None => fallback
  end.

(** [hay.startsWith(needle)] *)
Fixpoint startsWith (needle hay : string) : bool :=
  match needle with
  | EmptyString => true
  | String a needle' =>
      match hay with
      | EmptyString => false
      | String b hay' => Ascii.eqb a b && startsWith needle' hay'
      end
  end.

(** [hay.includes(needle)]: [needle] occurs at some offset of [hay]. *)
Fixpoint includes (needle hay : string) : bool :=
  startsWith needle hay ||
  match hay with
  | EmptyString => false
  | String _ rest => includes needle rest
  end.

(** [s.split(sep)] for a one-character separator: [acc] holds the current
    piece, reversed. *)
Fixpoint split_go (sep : ascii) (acc : string) (s : string) : list string :=
  match s with
  | EmptyString => [String.rev acc]
  | String c rest =>
      if Ascii.eqb c sep
      then String.rev acc :: split_go sep EmptyString rest
      else split_go sep (String c acc) rest
  end.

Definition split (sep : ascii) (s : string) : list string :=
  split_go sep EmptyString s.

(** Template-literal rendering of a value that may be [undefined]. *)
Definition render (o : option string) : string := default "undefined" o.

(** ** The resource cache: [CalendarCache] *)

Module CalendarCache.

(** [interface CacheEntry<T>] *)
Record CacheEntry : Type := mkEntry {
  data : json;
  timestamp : Z
}.

Definition DEFAULT_TTL : Z := 5 * 60 * 1000.
Definition PREFERENCES_TTL : Z := 24 * 60 * 60 * 1000.

(** The in-memory [Map] and what [state.storage] holds under ['cache']
    ([None]: nothing stored yet). *)
Record t : Type := mkCache {
  cache : gmap string CacheEntry;
  storage : option (gmap string CacheEntry)
}.

Inductive body : Type :=
| BData (d : json)                    (* JSON.stringify(cached.data) *)
| BError (msg : string)               (* { error: msg } *)
| BSuccess                            (* { success: true } *)
| BCleared (clearedEntries : nat)     (* { success: true, clearedEntries } *)
| BText (txt : string).

Record response : Type := mkResponse {
  status : Z;
  x_cache : option string;
  x_cache_age : option Z;
  payload : body
}.

(** The parts of a [Request] that [fetch] reads; [req_json] is [None]
    when [request.json()] rejects. *)
Record request : Type := mkRequest {
  method : string;
  pathname : string;
  userId_param : option string;
  req_json : option json
}.

(** [now] and [now'] are the two readings of [Date.now()]. *)
Definition handleGet (cacheKey : string) (ttl : Z) (now now' : Z) (st : t)
  : response :=
  match cache st !! cacheKey with
  | Some cached =>
      if now - timestamp cached <? ttl
      then mkResponse 200 (Some "HIT") (Some (now' - timestamp cached))
                      (BData (data cached))
      else mkResponse 404 (Some "MISS") None (BError "Cache miss")
  | None => mkResponse 404 (Some "MISS") None (BError "Cache miss")
  end.

(** [handlePut] when [storage.put] resolves; [WithStorage.handlePut]
    below has the outcome of the put as a parameter. *)
Definition handlePut (cacheKey : string) (rq : request) (ttl : Z) (now : Z)
    (st : t) : response * t :=
  match req_json rq with
  | Some d =>
      let c := <[cacheKey := mkEntry d now]> (cache st) in
      (mkResponse 200 None None BSuccess, mkCache c (Some c))
  | None => (mkResponse 500 None None (BError "Failed to update cache"), st)
  end.

(** [Array.from(this.cache.keys()).filter(key => key.includes(`:${userId}`))] *)
Definition userKeys (userId : string) (st : t) : list string :=
  filter (fun key => includes (":" ++ userId) key = true)
         (map_to_list (cache st)).*1.

Definition handleClearCache (userId : string) (st : t) : response * t :=
  let ks := userKeys userId st in
  let c := foldl (fun m key => delete key m) (cache st) ks in
  (mkResponse 200 None None (BCleared (length ks)), mkCache c (Some c)).

Definition not_found : response := mkResponse 404 None None (BText "Not found").

Definition fetch (rq : request) (now now' : Z) (st : t) : response * t :=
  let path := pathname rq in
  let userId := or_else (userId_param rq) "default" in
  if String.eqb path "/calendars" && String.eqb (method rq) "GET" then
    (handleGet ("calendars:" ++ userId) DEFAULT_TTL now now' st, st)
  else if String.eqb path "/calendars" && String.eqb (method rq) "PUT" then
    handlePut ("calendars:" ++ userId) rq DEFAULT_TTL now st
  else if startsWith "/events/" path && String.eqb (method rq) "GET" then
    let calendarId := render (split "/" path !! 2%nat) in
    (handleGet ("events:" ++ userId ++ ":" ++ calendarId) DEFAULT_TTL now now' st, st)
  else if startsWith "/events/" path && String.eqb (method rq) "PUT" then
    let calId := render (split "/" path !! 2%nat) in
    handlePut ("events:" ++ userId ++ ":" ++ calId) rq DEFAULT_TTL now st
  else if String.eqb path "/preferences" && String.eqb (method rq) "GET" then
    (handleGet ("preferences:" ++ userId) PREFERENCES_TTL now now' st, st)
  else if String.eqb path "/preferences" && String.eqb (method rq) "PUT" then
    handlePut ("preferences:" ++ userId) rq PREFERENCES_TTL now st
  else if String.eqb path "/clear" && String.eqb (method rq) "DELETE" then
    handleClearCache userId st
  else (not_found, st).

(** [cleanExpiredEntries] and the constructor's load from storage. *)
Definition expired (now : Z) (key : string) (e : CacheEntry) : bool :=
  let ttlToUse :=
    if startsWith "preferences:" key then PREFERENCES_TTL else DEFAULT_TTL in
  ttlToUse <? now - timestamp e.

Definition cleanExpiredEntries (now : Z) (st : t) : t :=
  let changed :=
    existsb (fun kv => expired now kv.1 kv.2) (map_to_list (cache st)) in
  let c := filter (fun kv => expired now kv.1 kv.2 = false) (cache st) in
  if changed then mkCache c (Some c) else mkCache c (storage st).

Definition load (now : Z) (stored : option (gmap string CacheEntry)) : t :=
  match stored with
  | Some m => cleanExpiredEntries now (mkCache m stored)
  | None => mkCache ∅ None
  end.

(** The owner segment of a cache key: the text between the first and the
    second [:] (or up to the end of the key). *)
Definition owner_of (key : string) : option string := split ":" key !! 1%nat.

(** *** Requests and scenarios *)

Definition clear_rq (user : option string) : request :=
  mkRequest "DELETE" "/clear" user None.
Definition put_rq (path : string) (user : option string) (d : json) : request :=
  mkRequest "PUT" path user (Some d).
Definition get_rq (path : string) (user : option string) : request :=
  mkRequest "GET" path user None.

(** A cache that holds bob's and bobby's calendars. *)
Definition two_owners : t :=
  (fetch (put_rq "/calendars" (Some "bobby") (JArr [JStr "work"])) 2000 2000
     (fetch (put_rq "/calendars" (Some "bob") (JArr [JStr "home"])) 1000 1000
        (load 0 None)).2).2.

Definition hit (d : json) (age : Z) : response :=
  mkResponse 200 (Some "HIT") (Some age) (BData d).
Definition miss : response :=
  mkResponse 404 (Some "MISS") None (BError "Cache miss").

Definition events_key (user : option string) (calendarId : string) : string :=
  "events:" ++ or_else user "default" ++ ":" ++
  render (split "/" ("/events/" ++ calendarId) !! 2%nat).

(** A cache used by the owners [default] (no [userId] in the request),
    [defaultuser] and [bob], the last with a calendar named [default]. *)
Definition three_owners : t :=
  (fetch (put_rq "/events/default" (Some "bob") (JArr [])) 3000 3000
     (fetch (put_rq "/calendars" (Some "defaultuser") (JArr [])) 2000 2000
        (fetch (put_rq "/calendars" None (JArr [])) 1000 1000
           (load 0 None)).2).2).2.

(** *** Sequences of requests, and what a sweep leaves *)

(** Requests served one after the other, each with its two clock
    readings. *)
Definition serve (rqs : list (request * Z * Z)) (st : t) : t :=
  foldl (fun st r => (fetch r.1.1 r.1.2 r.2 st).2) st rqs.

(** What [cleanExpiredEntries] at [now] leaves of the entry under [key]. *)
Definition after_sweep (now : Z) (key : string) (o : option CacheEntry)
  : option CacheEntry :=
  match o with
  | Some e => if expired now key e then None else Some e
  | None => None
  end.

(** [sep] does not occur in [s]. *)
Fixpoint lacks (sep : ascii) (s : string) : bool :=
  match s with
  | EmptyString => true
  | String c rest => negb (Ascii.eqb c sep) && lacks sep rest
  end.

(** The TTL [cleanExpiredEntries] applies to an entry, chosen by the
    prefix of its key. *)
Definition ttl_of_key (key : string) : Z :=
  if startsWith "preferences:" key then PREFERENCES_TTL else DEFAULT_TTL.

(** *** Storage writes that reject *)

(** The handlers above take every [state.storage.put] to resolve.
    Here [handlePut] and [handleClearCache] are given the outcome of
    the put they issue: [put_ok] tells whether that promise resolves.
    A put that rejects stores nothing; [handlePut] awaits it inside
    its [try] and answers 500 from the [catch], after the entry was
    set; [handleClearCache] awaits it outside any [try], so the
    promise it returns rejects. *)
Module WithStorage.

(** What [fetch] returns: a response, or a promise that rejects. *)
Inductive reply : Type :=
| Reply (r : response)
| Rejected.

(** [this.cache] is [c], and
    [this.state.storage.put('cache', this.cache)] is issued. *)
Definition put (put_ok : bool) (c : gmap string CacheEntry) (st : t) : t :=
  mkCache c (if put_ok then Some c else storage st).

Definition handlePut (put_ok : bool) (cacheKey : string) (rq : request)
    (ttl : Z) (now : Z) (st : t) : reply * t :=
  match req_json rq with
  | Some d =>
      let c := <[cacheKey := mkEntry d now]> (cache st) in
      (Reply (if put_ok then mkResponse 200 None None BSuccess
              else mkResponse 500 None None (BError "Failed to update cache")),
       put put_ok c st)
  | None =>
      (Reply (mkResponse 500 None None (BError "Failed to update cache")), st)
  end.

Definition handleClearCache (put_ok : bool) (userId : string) (st : t)
  : reply * t :=
  let ks := userKeys userId st in
  let c := foldl (fun m key => delete key m) (cache st) ks in
  (if put_ok then Reply (mkResponse 200 None None (BCleared (length ks)))
   else Rejected,
   put put_ok c st).

Definition fetch (put_ok : bool) (rq : request) (now now' : Z) (st : t)
  : reply * t :=
  let path := pathname rq in
  let userId := or_else (userId_param rq) "default" in
  if String.eqb path "/calendars" && String.eqb (method rq) "GET" then
    (Reply (handleGet ("calendars:" ++ userId) DEFAULT_TTL now now' st), st)
  else if String.eqb path "/calendars" && String.eqb (method rq) "PUT" then
    handlePut put_ok ("calendars:" ++ userId) rq DEFAULT_TTL now st
  else if startsWith "/events/" path && String.eqb (method rq) "GET" then
    let calendarId := render (split "/" path !! 2%nat) in
    (Reply (handleGet ("events:" ++ userId ++ ":" ++ calendarId)
                      DEFAULT_TTL now now' st), st)
  else if startsWith "/events/" path && String.eqb (method rq) "PUT" then
    let calId := render (split "/" path !! 2%nat) in
    handlePut put_ok ("events:" ++ userId ++ ":" ++ calId) rq DEFAULT_TTL now st
  else if String.eqb path "/preferences" && String.eqb (method rq) "GET" then
    (Reply (handleGet ("preferences:" ++ userId) PREFERENCES_TTL now now' st), st)
  else if String.eqb path "/preferences" && String.eqb (method rq) "PUT" then
    handlePut put_ok ("preferences:" ++ userId) rq PREFERENCES_TTL now st
  else if String.eqb path "/clear" && String.eqb (method rq) "DELETE" then
    handleClearCache put_ok userId st
  else (Reply not_found, st).

End WithStorage.

End CalendarCache.

(** ** The session store: [SessionStore] *)

Module SessionStore.

(** [interface SessionData] *)
Record SessionData : Type := mkSession {
  id : string;
  createdAt : Z;
  updatedAt : Z;
  userId : option string;
  data : gmap string json
}.

Definition touch (now : Z) (s : SessionData) : SessionData :=
  mkSession (id s) (createdAt s) now (userId s) (data s).

Definition SESSION_TTL : Z := 60 * 60 * 1000.

(** The in-memory [Map], what [state.storage] holds under ['sessions'],
    and the number of [storage.put] calls issued so far. *)
Record t : Type := mkStore {
  sessions : gmap string SessionData;
  storage : option (gmap string SessionData);
  puts : nat
}.

(** [this.sessions] is [m] and
    [this.state.storage.put('sessions', this.sessions)] has resolved;
    [WithStorage.put] below has the outcome of the put as a parameter. *)
Definition persist (m : gmap string SessionData) (st : t) : t :=
  mkStore m (Some m) (S (puts st)).

Inductive body : Type :=
| BCreated (sessionId : string) (session : SessionData) (* { sessionId, session } *)
| BSession (session : SessionData)                      (* { session } *)
| BError (msg : string)                                 (* { error: msg } *)
| BSuccess (success : bool)                             (* { success } *)
| BText (txt : string).

Record response : Type := mkResponse {
  status : Z;
  payload : body
}.

(** A parsed JSON request body; absent fields are [None]. *)
Record json_body : Type := mkBody {
  b_userId : option string;
  b_sessionId : option string;
  b_data : option (gmap string json)
}.

(** The parts of a [Request] the store reads; [req_json] is [None] when
    [request.json()] rejects. *)
Record request : Type := mkRequest {
  method : string;
  pathname : string;
  id_param : option string;
  req_json : option json_body
}.

(** The handlers when [storage.put] resolves; the handlers of
    [WithStorage] below have the outcome of the put as a parameter.
    [sessionId] is the value [nanoid()] returns. *)
Definition handleCreateSession (rq : request) (sessionId : string) (now : Z)
    (st : t) : response * t :=
  match req_json rq with
  | Some b =>
      let session :=
        mkSession sessionId now now (b_userId b) (default ∅ (b_data b)) in
      (mkResponse 200 (BCreated sessionId session),
       persist (<[sessionId := session]> (sessions st)) st)
  | None => (mkResponse 500 (BError "Failed to create session"), st)
  end.

Definition handleGetSession (rq : request) (now : Z) (st : t) : response * t :=
  if negb (truthy (id_param rq)) then
    (mkResponse 400 (BError "Session ID required"), st)
  else
    let sessionId := render (id_param rq) in
    match sessions st !! sessionId with
    | None => (mkResponse 404 (BError "Session not found"), st)
    | Some session =>
        let session := touch now session in
        (mkResponse 200 (BSession session),
         persist (<[sessionId := session]> (sessions st)) st)
    end.

Definition handleUpdateSession (rq : request) (now : Z) (st : t)
  : response * t :=
  match req_json rq with
  | None => (mkResponse 500 (BError "Failed to update session"), st)
  | Some b =>
      if negb (truthy (b_sessionId b)) then
        (mkResponse 400 (BError "Session ID required"), st)
      else
        let sessionId := render (b_sessionId b) in
        match sessions st !! sessionId with
        | None => (mkResponse 404 (BError "Session not found"), st)
        | Some session =>
            (* { ...session.data, ...data }: the keys of [data] win *)
            let merged := default ∅ (b_data b) ∪ data session in
            let session :=
              mkSession (id session) (createdAt session) now
                        (userId session) merged in
            (mkResponse 200 (BSession session),
             persist (<[sessionId := session]> (sessions st)) st)
        end
  end.

Definition handleDeleteSession (rq : request) (st : t) : response * t :=
  if negb (truthy (id_param rq)) then
    (mkResponse 400 (BError "Session ID required"), st)
  else
    let sessionId := render (id_param rq) in
    match sessions st !! sessionId with
    | Some _ =>
        (mkResponse 200 (BSuccess true), persist (delete sessionId (sessions st)) st)
    | None => (mkResponse 200 (BSuccess false), st)
    end.

Definition not_found : response := mkResponse 404 (BText "Not found").

Definition fetch (rq : request) (fresh_id : string) (now : Z) (st : t)
  : response * t :=
  let path := pathname rq in
  if String.eqb path "/create" && String.eqb (method rq) "POST" then
    handleCreateSession rq fresh_id now st
  else if String.eqb path "/get" && String.eqb (method rq) "GET" then
    handleGetSession rq now st
  else if String.eqb path "/update" && String.eqb (method rq) "POST" then
    handleUpdateSession rq now st
  else if String.eqb path "/delete" && String.eqb (method rq) "DELETE" then
    handleDeleteSession rq st
  else (not_found, st).

Definition expired (now : Z) (s : SessionData) : bool :=
  SESSION_TTL <? now - updatedAt s.

Definition cleanExpiredSessions (now : Z) (st : t) : t :=
  let changed :=
    existsb (fun kv => expired now kv.2) (map_to_list (sessions st)) in
  let m := filter (fun kv => expired now kv.2 = false) (sessions st) in
  if changed then persist m st else mkStore m (storage st) (puts st).

(** The constructor: a new instance over what storage holds. [writes] is
    the number of [storage.put] calls issued before this start. *)
Definition load (now : Z) (stored : option (gmap string SessionData))
    (writes : nat) : t :=
  match stored with
  | Some m => cleanExpiredSessions now (mkStore m stored writes)
  | None => mkStore ∅ None writes
  end.

(** A cold start of a running store: memory is lost, storage is kept. *)
Definition restart (now : Z) (st : t) : t := load now (storage st) (puts st).

(** What happens to a store over time: requests and cold starts, each
    with the clock reading it sees. *)
Inductive op : Type :=
| Request (rq : request) (fresh_id : string)
| ColdStart.

Definition exec (now : Z) (o : op) (st : t) : t :=
  match o with
  | Request rq fresh_id => (fetch rq fresh_id now st).2
  | ColdStart => restart now st
  end.

Definition run (trace : list (Z * op)) (st : t) : t :=
  foldl (fun st ev => exec ev.1 ev.2 st) st trace.

Definition create_rq (user : option string) (d : option (gmap string json))
  : request :=
  mkRequest "POST" "/create" None (Some (mkBody user None d)).
Definition get_rq (sid : string) : request :=
  mkRequest "GET" "/get" (Some sid) None.
Definition update_rq (sid : string) (d : gmap string json) : request :=
  mkRequest "POST" "/update" None (Some (mkBody None (Some sid) (Some d))).
Definition delete_rq (sid : string) : request :=
  mkRequest "DELETE" "/delete" (Some sid) None.

(** A trace of reads of one session. *)
Definition reads (sid : string) (times : list Z) : list (Z * op) :=
  (fun now => (now, Request (get_rq sid) "")) <$> times.

Definition THIRTY_MINUTES : Z := 30 * 60 * 1000.

(** [o] is a [GET /get?id=sid], respectively a [DELETE /delete?id=sid]. *)
Definition is_get (sid : string) (o : op) : bool :=
  match o with
  | Request rq _ =>
      String.eqb (pathname rq) "/get" && String.eqb (method rq) "GET" &&
      bool_decide (id_param rq = Some sid)
  | ColdStart => false
  end.

Definition is_delete (sid : string) (o : op) : bool :=
  match o with
  | Request rq _ =>
      String.eqb (pathname rq) "/delete" && String.eqb (method rq) "DELETE" &&
      bool_decide (id_param rq = Some sid)
  | ColdStart => false
  end.

(** Session [sid], last read at [last], is never deleted in [trace] and
    nothing in [trace] happens more than thirty minutes after the latest
    read of [sid]; the clock does not run backwards. *)
Fixpoint kept_alive (sid : string) (last : Z) (trace : list (Z * op)) : bool :=
  match trace with
  | [] => true
  | (now, o) :: rest =>
      (last <=? now) && (now <=? last + THIRTY_MINUTES) &&
      negb (is_delete sid o) &&
      kept_alive sid (if is_get sid o then now else last) rest
  end.

(** Session [sid] is in memory and in storage, read at [last] or later. *)
Definition alive (sid : string) (last : Z) (st : t) : Prop :=
  exists s m,
    sessions st !! sid = Some s /\
    storage st = Some m /\ m !! sid = Some s /\
    last <= updatedAt s.

(** A session created at time 0 is read every 25 minutes, with cold
    starts in between, and survives; left alone, it is purged by a cold
    start 61 minutes after its last read. *)
Definition busy_trace : list (Z * op) :=
  [(1500000, Request (get_rq "S1") ""); (2000000, ColdStart);
   (3000000, Request (get_rq "S1") ""); (4500000, Request (get_rq "S1") "");
   (6000000, ColdStart); (6200000, Request (get_rq "S1") "")].

(** *** Invariants of a running store *)

(** Memory holds what storage holds. *)
Definition persisted (st : t) : Prop :=
  sessions st = default ∅ (storage st).

(** Every record is filed under its own id, was not updated before it
    was created, and was not updated after [now]. *)
Definition consistent (now : Z) (st : t) : Prop :=
  forall k s,
    sessions st !! k = Some s ->
    id s = k /\ createdAt s <= updatedAt s /\ updatedAt s <= now.

(** The clock readings of a trace never decrease, starting at [t0]. *)
Fixpoint monotone (t0 : Z) (trace : list (Z * op)) : bool :=
  match trace with
  | [] => true
  | (now, _) :: rest => (t0 <=? now) && monotone now rest
  end.

(** The last clock reading of a trace that starts at [t0]. *)
Definition last_reading (t0 : Z) (trace : list (Z * op)) : Z :=
  foldl (fun _ ev => ev.1) t0 trace.

(** The session id a request names: the one [handleCreateSession] files
    the new record under, or the one the other handlers look up. *)
Definition target (rq : request) (fresh_id : string) : string :=
  if String.eqb (pathname rq) "/create" && String.eqb (method rq) "POST"
  then fresh_id
  else if String.eqb (pathname rq) "/update" && String.eqb (method rq) "POST"
  then match req_json rq with
       | Some b => render (b_sessionId b)
       | None => fresh_id
       end
  else render (id_param rq).

(** What a sweep at [now] leaves of a record. *)
Definition after_sweep (now : Z) (o : option SessionData) : option SessionData :=
  match o with
  | Some s => if expired now s then None else Some s
  | None => None
  end.

(** The outcomes of a request: an error that changes nothing, a record
    stored under some id, a record removed, or nothing to remove. *)
Inductive outcome (st : t) : response * t -> Prop :=
| out_error code msg :
    code <> 200 -> outcome st (mkResponse code msg, st)
| out_store b k s :
    outcome st (mkResponse 200 b, persist (<[k := s]> (sessions st)) st)
| out_remove k :
    outcome st (mkResponse 200 (BSuccess true),
                persist (delete k (sessions st)) st)
| out_absent :
    outcome st (mkResponse 200 (BSuccess false), st).

(** *** Storage writes that reject *)

(** The handlers above take every [state.storage.put] to resolve.
    Here each of them is given the outcome of the put it issues:
    [put_ok] tells whether that promise resolves. A put that rejects
    stores nothing; [handleCreateSession] and [handleUpdateSession]
    await it inside their [try] and answer 500 from the [catch], after
    the map was changed; [handleGetSession] and [cleanExpiredSessions]
    do not await it; [handleDeleteSession] awaits it outside any
    [try], so the promise it returns rejects. *)
Module WithStorage.

(** What [fetch] returns: a response, or a promise that rejects. *)
Inductive reply : Type :=
| Reply (r : response)
| Rejected.

(** [this.sessions] is [m], and
    [this.state.storage.put('sessions', this.sessions)] is issued. *)
Definition put (put_ok : bool) (m : gmap string SessionData) (st : t) : t :=
  mkStore m (if put_ok then Some m else storage st) (S (puts st)).

Definition handleCreateSession (put_ok : bool) (rq : request)
    (sessionId : string) (now : Z) (st : t) : reply * t :=
  match req_json rq with
  | Some b =>
      let session :=
        mkSession sessionId now now (b_userId b) (default ∅ (b_data b)) in
      (Reply (if put_ok then mkResponse 200 (BCreated sessionId session)
              else mkResponse 500 (BError "Failed to create session")),
       put put_ok (<[sessionId := session]> (sessions st)) st)
  | None => (Reply (mkResponse 500 (BError "Failed to create session")), st)
  end.

Definition handleGetSession (put_ok : bool) (rq : request) (now : Z)
    (st : t) : reply * t :=
  if negb (truthy (id_param rq)) then
    (Reply (mkResponse 400 (BError "Session ID required")), st)
  else
    let sessionId := render (id_param rq) in
    match sessions st !! sessionId with
    | None => (Reply (mkResponse 404 (BError "Session not found")), st)
    | Some session =>
        let session := touch now session in
        (Reply (mkResponse 200 (BSession session)),
         put put_ok (<[sessionId := session]> (sessions st)) st)
    end.

Definition handleUpdateSession (put_ok : bool) (rq : request) (now : Z)
    (st : t) : reply * t :=
  match req_json rq with
  | None => (Reply (mkResponse 500 (BError "Failed to update session")), st)
  | Some b =>
      if negb (truthy (b_sessionId b)) then
        (Reply (mkResponse 400 (BError "Session ID required")), st)
      else
        let sessionId := render (b_sessionId b) in
        match sessions st !! sessionId with
        | None => (Reply (mkResponse 404 (BError "Session not found")), st)
        | Some session =>
            let merged := default ∅ (b_data b) ∪ data session in
            let session :=
              mkSession (id session) (createdAt session) now
                        (userId session) merged in
            (Reply (if put_ok then mkResponse 200 (BSession session)
                    else mkResponse 500 (BError "Failed to update session")),
             put put_ok (<[sessionId := session]> (sessions st)) st)
        end
  end.

Definition handleDeleteSession (put_ok : bool) (rq : request) (st : t)
  : reply * t :=
  if negb (truthy (id_param rq)) then
    (Reply (mkResponse 400 (BError "Session ID required")), st)
  else
    let sessionId := render (id_param rq) in
    match sessions st !! sessionId with
    | Some _ =>
        (if put_ok then Reply (mkResponse 200 (BSuccess true)) else Rejected,
         put put_ok (delete sessionId (sessions st)) st)
    | None => (Reply (mkResponse 200 (BSuccess false)), st)
    end.

Definition fetch (put_ok : bool) (rq : request) (fresh_id : string)
    (now : Z) (st : t) : reply * t :=
  let path := pathname rq in
  if String.eqb path "/create" && String.eqb (method rq) "POST" then
    handleCreateSession put_ok rq fresh_id now st
  else if String.eqb path "/get" && String.eqb (method rq) "GET" then
    handleGetSession put_ok rq now st
  else if String.eqb path "/update" && String.eqb (method rq) "POST" then
    handleUpdateSession put_ok rq now st
  else if String.eqb path "/delete" && String.eqb (method rq) "DELETE" then
    handleDeleteSession put_ok rq st
  else (Reply not_found, st).

Definition cleanExpiredSessions (put_ok : bool) (now : Z) (st : t) : t :=
  let changed :=
    existsb (fun kv => expired now kv.2) (map_to_list (sessions st)) in
  let m := filter (fun kv => expired now kv.2 = false) (sessions st) in
  if changed then put put_ok m st else mkStore m (storage st) (puts st).

Definition load (put_ok : bool) (now : Z)
    (stored : option (gmap string SessionData)) (writes : nat) : t :=
  match stored with
  | Some m => cleanExpiredSessions put_ok now (mkStore m stored writes)
  | None => mkStore ∅ None writes
  end.

Definition restart (put_ok : bool) (now : Z) (st : t) : t :=
  load put_ok now (storage st) (puts st).

(** Requests and cold starts, each with the outcome of the put it
    may issue. *)
Inductive op : Type :=
| Request (rq : request) (fresh_id : string) (put_ok : bool)
| ColdStart (put_ok : bool).

Definition exec (now : Z) (o : op) (st : t) : t :=
  match o with
  | Request rq fresh_id put_ok => (fetch put_ok rq fresh_id now st).2
  | ColdStart put_ok => restart put_ok now st
  end.

Definition run (trace : list (Z * op)) (st : t) : t :=
  foldl (fun st ev => exec ev.1 ev.2 st) st trace.

(** Every put of the trace resolves. *)
Definition resolves (o : op) : bool :=
  match o with
  | Request _ _ put_ok => put_ok
  | ColdStart put_ok => put_ok
  end.

Definition resolved (trace : list (Z * op)) : bool :=
  forallb (fun ev => resolves ev.2) trace.

End WithStorage.

(** The same trace with the outcomes of the puts left out. *)
Definition forget (o : WithStorage.op) : op :=
  match o with
  | WithStorage.Request rq fresh_id _ => Request rq fresh_id
  | WithStorage.ColdStart _ => ColdStart
  end.

End SessionStore.

(** ** The transport registry, the keep-alive pinger and the HTTP handlers *)

Module Transport.

(** A response stream ([res]) is named by a number; an
    [SSEServerTransport] is identified with the stream it writes to.
    An interval handle is named by a number too. *)
Abbreviation stream := nat (only parsing).
Abbreviation handle := nat (only parsing).

(** *** The two registries as JavaScript objects *)

(** [transports] and [keepAliveTimers] are object literals ([{}]); they
    are read with [o[sessionId]], written with [o[sessionId] = v] and
    emptied with [delete o[sessionId]]. A read yields a transport, the
    [Timeout] object that [setInterval] returned, or some other truthy
    value found on the prototype chain (a function, an object, a
    string). A read that finds nothing, or something falsy, is [None]:
    the code only tests the result for truthiness before using it. *)
Inductive value : Type :=
| VTransport (res : stream)
| VTimeout (h : handle)
| VOther.

(** An object: its own properties and its prototype, [None] standing
    for [Object.prototype], the prototype of an object literal. *)
Record object : Type := mkObject {
  own : gmap string value;
  proto : option value
}.

Definition empty_object : object := mkObject ∅ None.

(** The members of [Object.prototype] other than the accessor
    [__proto__]; each is a function, hence truthy. *)
Definition object_prototype : list string :=
  ["constructor"; "__defineGetter__"; "__defineSetter__"; "hasOwnProperty";
   "__lookupGetter__"; "__lookupSetter__"; "isPrototypeOf";
   "propertyIsEnumerable"; "toString"; "valueOf"; "toLocaleString"].

(** A name that every object literal answers to without having it as
    an own property. *)
Definition inherited (key : string) : bool :=
  String.eqb key "__proto__" || bool_decide (key ∈ object_prototype).

(** Once [o.__proto__ = v] has replaced the prototype of a registry by
    a transport or a [Timeout], reads and writes of names the registry
    does not own reach the members of that object, which the SDK and
    Node define: [inherits p key] is the truthy value a read of [key]
    finds along the chain of [p] (down to [Object.prototype]), and
    [refuses res key] tells that on a transport [key] is an accessor
    without a setter (as [sessionId] is), so that assigning it throws a
    [TypeError] in module code. A [Timeout] has methods and data fields
    only, which an assignment shadows. *)
Record runtime : Type := mkRuntime {
  inherits : value -> string -> option value;
  refuses : stream -> string -> bool
}.

(** [o[key]] *)
Definition read (rt : runtime) (o : object) (key : string) : option value :=
  match own o !! key with
  | Some v => Some v
  | None =>
      if String.eqb key "__proto__" then Some (default VOther (proto o))
      else
        match proto o with
        | None =>
            if bool_decide (key ∈ object_prototype) then Some VOther else None
        | Some p => inherits rt p key
        end
  end.

(** [o[key] = v] for an object [v]; [None] when the assignment throws.
    Assigning [__proto__] runs the setter of [Object.prototype], which
    replaces the prototype and creates no property. *)
Definition assign (rt : runtime) (o : object) (key : string) (v : value)
  : option object :=
  match own o !! key with
  | Some _ => Some (mkObject (<[key := v]> (own o)) (proto o))
  | None =>
      if String.eqb key "__proto__" then Some (mkObject (own o) (Some v))
      else
        match proto o with
        | Some (VTransport res) =>
            if refuses rt res key then None
            else Some (mkObject (<[key := v]> (own o)) (proto o))
        | _ => Some (mkObject (<[key := v]> (own o)) (proto o))
        end
  end.

(** [delete o[key]]: own properties only. *)
Definition delete_property (o : object) (key : string) : object :=
  mkObject (delete key (own o)) (proto o).

(** [Object.keys(o)]: own properties only, in the order in which the
    map lists them; the state [cleanupAllResources] ends in does not
    depend on it. *)
Definition keys (o : object) : list string := (map_to_list (own o)).*1.

(** Where an assignment to [key] is kept: the own property, or the
    prototype for [__proto__]. *)
Definition slot (o : object) (key : string) : option value :=
  match own o !! key with
  | Some v => Some v
  | None => if String.eqb key "__proto__" then proto o else None
  end.

(** *** The state of the process *)

(** The module's two global objects, the runtime's table of live
    intervals (handle to the [sessionId] and [res] its callback closes
    over), the ['close'] listeners registered on streams, the counters
    that name new intervals and streams, and the SDK and Node objects
    the process runs with. *)
Record t : Type := mkState {
  transports : object;
  keepAliveTimers : object;
  intervals : gmap handle (string * stream);
  next_handle : handle;
  on_close : gmap stream string;
  next_stream : stream;
  env : runtime
}.

Definition init (rt : runtime) : t :=
  mkState empty_object empty_object ∅ 0%nat ∅ 0%nat rt.

(** What an operation does to the registries, the runtime's intervals
    and the streams, in order. Console output is not part of the
    model. *)
Inductive effect : Type :=
| ClearInterval (timer : value)
| SetInterval (h : handle) (sessionId : string) (res : stream)
| DeleteTimer (sessionId : string)
| SetTransport (sessionId : string) (res : stream)
| DeleteTransport (sessionId : string)
| Write (res : stream) (frame : string).

(** State and effect-trace monad. *)
Definition M (A : Type) : Type := t -> A * t * list effect.

Definition ret {A} (a : A) : M A := fun s => (a, s, []).

Definition bind {A B} (m : M A) (k : A -> M B) : M B :=
  fun s =>
    let '(a, s1, e1) := m s in
    let '(b, s2, e2) := k a s1 in
    (b, s2, (e1 ++ e2)%list).

Notation "x <- m ;; k" := (bind m (fun x => k))
  (at level 100, m at next level, right associativity).
Notation "m ;;; k" := (bind m (fun _ => k))
  (at level 100, right associativity).

Definition gets {A} (f : t -> A) : M A := fun s => (f s, s, []).
Definition emit (e : effect) : M unit := fun s => (tt, s, [e]).

Definition run_state {A} (m : M A) (s : t) : t := (m s).1.2.
Definition run_effects {A} (m : M A) (s : t) : list effect := (m s).2.
Definition run_value {A} (m : M A) (s : t) : A := (m s).1.1.

(** The live intervals after [clearInterval(timer)]: only a [Timeout]
    names one. *)
Definition cleared (timer : value) (live : gmap handle (string * stream))
  : gmap handle (string * stream) :=
  match timer with
  | VTimeout h => delete h live
  | _ => live
  end.

(** [clearInterval(timer)] *)
Definition clearInterval (timer : value) : M unit :=
  fun s =>
    (tt,
     mkState (transports s) (keepAliveTimers s) (cleared timer (intervals s))
             (next_handle s) (on_close s) (next_stream s) (env s),
     [ClearInterval timer]).

(** [setInterval(callback, KEEP_ALIVE_INTERVAL)], the callback closing
    over [sessionId] and [res]. *)
Definition setInterval (sessionId : string) (res : stream) : M handle :=
  fun s =>
    let h := next_handle s in
    (h,
     mkState (transports s) (keepAliveTimers s)
             (<[h := (sessionId, res)]> (intervals s))
             (S h) (on_close s) (next_stream s) (env s),
     [SetInterval h sessionId res]).

(** [keepAliveTimers[sessionId]] *)
Definition timerOf (sessionId : string) : M (option value) :=
  gets (fun s => read (env s) (keepAliveTimers s) sessionId).

(** [transports[sessionId]] *)
Definition transportOf (sessionId : string) : M (option value) :=
  gets (fun s => read (env s) (transports s) sessionId).

(** [keepAliveTimers[sessionId] = h]; [false] when it throws. *)
Definition setTimer (sessionId : string) (h : handle) : M bool :=
  fun s =>
    match assign (env s) (keepAliveTimers s) sessionId (VTimeout h) with
    | Some o =>
        (true,
         mkState (transports s) o (intervals s) (next_handle s)
                 (on_close s) (next_stream s) (env s),
         [])
    | None => (false, s, [])
    end.

(** [delete keepAliveTimers[sessionId]] *)
Definition deleteTimer (sessionId : string) : M unit :=
  fun s =>
    (tt,
     mkState (transports s) (delete_property (keepAliveTimers s) sessionId)
             (intervals s) (next_handle s) (on_close s) (next_stream s)
             (env s),
     [DeleteTimer sessionId]).

(** [transports[sessionId] = transport]; [false] when it throws. *)
Definition setTransport (sessionId : string) (res : stream) : M bool :=
  fun s =>
    match assign (env s) (transports s) sessionId (VTransport res) with
    | Some o =>
        (true,
         mkState o (keepAliveTimers s) (intervals s) (next_handle s)
                 (on_close s) (next_stream s) (env s),
         [SetTransport sessionId res])
    | None => (false, s, [])
    end.

(** [delete transports[sessionId]] *)
Definition deleteTransport (sessionId : string) : M unit :=
  fun s =>
    (tt,
     mkState (delete_property (transports s) sessionId) (keepAliveTimers s)
             (intervals s) (next_handle s) (on_close s) (next_stream s)
             (env s),
     [DeleteTransport sessionId]).

Definition stopKeepAlivePinger (sessionId : string) : M unit :=
  timer <- timerOf sessionId ;;
  match timer with
  | Some v =>
      clearInterval v ;;;
      deleteTimer sessionId
  | None => ret tt
  end.

(** [startKeepAlivePinger]; [false] when the assignment of the new
    interval throws, which leaves that interval running. *)
Definition startKeepAlivePinger (sessionId : string) (res : stream) : M bool :=
  timer <- timerOf sessionId ;;
  match timer with
  | Some v => clearInterval v
  | None => ret tt
  end ;;;
  h <- setInterval sessionId res ;;
  setTimer sessionId h.

Definition ping_frame : string :=
  "event: ping" ++ String "010" ("data: keep-alive" ++ String "010" (String "010" "")).

(** The interval callback of [startKeepAlivePinger]; [write_ok] tells
    whether [res.write] returns rather than throws. *)
Definition pinger_callback (sessionId : string) (res : stream)
    (write_ok : bool) : M unit :=
  transport <- transportOf sessionId ;;
  match transport with
  | Some _ =>
      if write_ok then emit (Write res ping_frame)
      else stopKeepAlivePinger sessionId
  | None => stopKeepAlivePinger sessionId
  end.

(** The runtime fires interval [h]; a cleared interval does not fire. *)
Definition tick (h : handle) (write_ok : bool) : M unit :=
  live <- gets (fun s => intervals s !! h) ;;
  match live with
  | Some (sessionId, res) => pinger_callback sessionId res write_ok
  | None => ret tt
  end.

Definition cleanupSession (sessionId : string) : M unit :=
  stopKeepAlivePinger sessionId ;;;
  transport <- transportOf sessionId ;;
  match transport with
  | Some _ => deleteTransport sessionId
  | None => ret tt
  end.

(** [list.forEach(f)] *)
Definition forEach {A} (l : list A) (f : A -> M unit) : M unit :=
  foldr (fun a rest => f a ;;; rest) (ret tt) l.

(** [clearInterval(keepAliveTimers[sessionId])]; clearing [undefined]
    does nothing. *)
Definition clearTimerOf (sessionId : string) : M unit :=
  timer <- timerOf sessionId ;;
  match timer with
  | Some v => clearInterval v
  | None => ret tt
  end.

Definition cleanupAllResources : M unit :=
  timerIds <- gets (fun s => keys (keepAliveTimers s)) ;;
  forEach timerIds (fun sessionId =>
    clearTimerOf sessionId ;;;
    deleteTimer sessionId) ;;;
  sessionIds <- gets (fun s => keys (transports s)) ;;
  forEach sessionIds deleteTransport.

(** *** HTTP handlers *)

Inductive body : Type :=
| BEmpty
| BError (error : string)
| BSessionNotFound
| BSdk (txt : string).

Record response : Type := mkResponse {
  status : Z;
  mcp_session_id : option string;   (* the Mcp-Session-Id response header *)
  payload : body
}.

(** What [handlePostMessage(req, res, req.body)] of a transport did: it
    answered, or it threw, before or after the headers were sent. *)
Inductive post_outcome : Type :=
| Answered (r : response)
| Threw (headersSent : bool) (sent : response).

Definition processing_error : response :=
  mkResponse 500 None (BError "Error processing message").

Definition after_post (o : post_outcome) : response :=
  match o with
  | Answered r => r
  | Threw true sent => sent
  | Threw false _ => processing_error
  end.

(** [await transport.handlePostMessage(req, res, req.body)] inside its
    [try]: what was found under the session id need not be a
    transport; on anything else [handlePostMessage] is not a function,
    the call throws before any header is sent and the [catch] answers
    500. *)
Definition handlePostMessage (transport : option value)
    (outcome : post_outcome) : response :=
  match transport with
  | Some (VTransport _) => after_post outcome
  | _ => processing_error
  end.

(** [mcpHandler], [DELETE]. *)
Definition mcp_delete (header : option string) : M response :=
  transport <- transportOf (render header) ;;
  if truthy header && bool_decide (is_Some transport) then
    cleanupSession (render header) ;;;
    ret (mkResponse 202 None BEmpty)
  else ret (mkResponse 404 None BEmpty).

(** The request's [res]. *)
Definition new_stream : M stream :=
  fun s =>
    (next_stream s,
     mkState (transports s) (keepAliveTimers s) (intervals s)
             (next_handle s) (on_close s) (S (next_stream s)) (env s),
     []).

(** [res.on('close', () => cleanupSession(sessionId))] *)
Definition listen (res : stream) (sessionId : string) : M unit :=
  fun s =>
    (tt,
     mkState (transports s) (keepAliveTimers s) (intervals s)
             (next_handle s) (<[res := sessionId]> (on_close s))
             (next_stream s) (env s),
     []).

(** What [await server.connect(transport)] does: it resolves, or it
    rejects, before or after the transport sent the response headers.
    The SDK settles it without waiting for input, so no other request,
    close event or tick is handled while the handler awaits it. *)
Inductive connect_outcome : Type :=
| Resolves
| Rejects (headersSent : bool).

(** How a request for a stream ends: the stream stays open, with the
    [Mcp-Session-Id] header the handler set, if any; or the [catch]
    block answered 500; or it ended a response whose headers were
    sent. *)
Inductive stream_answer : Type :=
| Streaming (mcp_session_id : option string)
| Failed
| Ended.

(** [mcpHandler], [GET]; [generated] is [transport.sessionId]. *)
Definition mcp_get (header : option string) (generated : string)
    (connect : connect_outcome) : M stream_answer :=
  res <- new_stream ;;
  let sessionId := or_else header generated in
  stored <- setTransport sessionId res ;;
  if stored then
    listen res sessionId ;;;
    match connect with
    | Resolves =>
        started <- startKeepAlivePinger sessionId res ;;
        ret (if started
             then Streaming (if truthy header then None else Some sessionId)
             else Ended)
    | Rejects headersSent => ret (if headersSent then Ended else Failed)
    end
  else ret Failed.

(** [sseHandler]; the session id is always [transport.sessionId], and
    the [catch] block only ends the response. *)
Definition sseHandler (generated : string) (connect : connect_outcome)
  : M stream_answer :=
  res <- new_stream ;;
  stored <- setTransport generated res ;;
  if stored then
    listen res generated ;;;
    match connect with
    | Resolves =>
        started <- startKeepAlivePinger generated res ;;
        ret (if started then Streaming None else Ended)
    | Rejects _ => ret Ended
    end
  else ret Ended.

(** The ['close'] event of stream [res]; it is emitted once. *)
Definition close (res : stream) : M unit :=
  listener <- gets (fun s => on_close s !! res) ;;
  match listener with
  | Some sessionId =>
      (fun s =>
         (tt,
          mkState (transports s) (keepAliveTimers s) (intervals s)
                  (next_handle s) (delete res (on_close s))
                  (next_stream s) (env s),
          [])) ;;;
      cleanupSession sessionId
  | None => ret tt
  end.

(** [mcpHandler], [POST]; [fresh] is the value [uuidv4()] would return. *)
Definition mcp_post (header : option string) (fresh : string)
    (outcome : post_outcome) : M response :=
  transport <- transportOf (render header) ;;
  if truthy header && bool_decide (is_Some transport) then
    ret (handlePostMessage transport outcome)
  else if negb (truthy header) || negb (bool_decide (is_Some transport)) then
    let newSessionId := or_else header fresh in
    ret (mkResponse 202 (Some newSessionId) BEmpty)
  else
    ret (mkResponse 404 None BSessionNotFound).

(** [messageHandler] (legacy [POST /messages?sessionId=]). *)
Definition messageHandler (query : option string) (outcome : post_outcome)
  : M response :=
  if negb (truthy query) then
    ret (mkResponse 400 None (BError "Missing sessionId parameter"))
  else
    transport <- transportOf (render query) ;;
    match transport with
    | None => ret (mkResponse 404 None (BError "No transport found for sessionId"))
    | Some v => ret (handlePostMessage (Some v) outcome)
    end.

(** A request to [/mcp], with what the environment supplies while it is
    handled: [transport.sessionId] and the outcome of [server.connect]
    for a [GET], the value of [uuidv4()] and the behaviour of
    [handlePostMessage] for a [POST]. *)
Inductive mcp_request : Type :=
| GET (header : option string) (generated : string) (connect : connect_outcome)
| POST (header : option string) (fresh : string) (outcome : post_outcome)
| DELETE (header : option string)
| OtherVerb (verb : string).

(** What [mcpHandler] leaves the client with. *)
Inductive answer : Type :=
| Responded (r : response)
| Stream (a : stream_answer).

(** [mcpHandler]: dispatch on the verb. *)
Definition mcpHandler (rq : mcp_request) : M answer :=
  match rq with
  | DELETE header => r <- mcp_delete header ;; ret (Responded r)
  | GET header generated connect =>
      a <- mcp_get header generated connect ;; ret (Stream a)
  | POST header fresh outcome =>
      r <- mcp_post header fresh outcome ;; ret (Responded r)
  | OtherVerb _ => ret (Responded (mkResponse 405 None BEmpty))
  end.

(** *** The process as a transition system *)

Inductive event : Type :=
| Mcp (rq : mcp_request)
| Sse (generated : string) (connect : connect_outcome)
| Message (query : option string) (outcome : post_outcome)
| Close (res : stream)
| Tick (h : handle) (write_ok : bool).

Definition fire (e : event) : M unit :=
  match e with
  | Mcp rq => mcpHandler rq ;;; ret tt
  | Sse generated connect => sseHandler generated connect ;;; ret tt
  | Message query outcome => messageHandler query outcome ;;; ret tt
  | Close res => close res
  | Tick h write_ok => tick h write_ok
  end.

Definition step (s : t) (e : event) : t := run_state (fire e) s.

Definition run (es : list event) (s : t) : t := foldl step s es.

(** *** Invariants and scenarios *)

(** The state in which a request for a stream under [sessionId] leaves
    the process: the request's stream is numbered; if the binding can
    be stored, the close listener is registered and, if
    [server.connect] resolves, the pinger is started. *)
Definition established (sessionId : string) (connect : connect_outcome)
    (s : t) : t :=
  match assign (env s) (transports s) sessionId (VTransport (next_stream s)) with
  | None =>
      mkState (transports s) (keepAliveTimers s) (intervals s)
              (next_handle s) (on_close s) (S (next_stream s)) (env s)
  | Some o =>
      let s1 :=
        mkState o (keepAliveTimers s) (intervals s) (next_handle s)
                (<[next_stream s := sessionId]> (on_close s))
                (S (next_stream s)) (env s) in
      match connect with
      | Resolves => run_state (startKeepAlivePinger sessionId (next_stream s)) s1
      | Rejects _ => s1
      end
  end.

(** The state of the pinger: the timers, the live intervals and the
    handle counter. *)
Definition same_pinger (s s' : t) : Prop :=
  keepAliveTimers s' = keepAliveTimers s /\
  intervals s' = intervals s /\
  next_handle s' = next_handle s.

(** Every live interval is the one kept in [keepAliveTimers] for its
    session id, handles at or above the counter are not in use, and the
    prototype of [keepAliveTimers] is not a transport. *)
Record wf (s : t) : Prop := mkWf {
  wf_registered : forall h sid res,
    intervals s !! h = Some (sid, res) ->
    slot (keepAliveTimers s) sid = Some (VTimeout h);
  wf_fresh : forall h, is_Some (intervals s !! h) -> (h < next_handle s)%nat;
  wf_proto : forall res, proto (keepAliveTimers s) <> Some (VTransport res)
}.

(** Handles are never reused: below the counter, a later state has no
    live interval that the earlier state did not have. *)
Definition older (s s' : t) : Prop :=
  (next_handle s <= next_handle s')%nat /\
  forall h x, (h < next_handle s)%nat ->
    intervals s' !! h = Some x -> intervals s !! h = Some x.

(** An event of a process in which no stream is established under the
    id [__proto__], every [server.connect] resolves and no heartbeat
    write throws. *)
Definition quiet (e : event) : bool :=
  match e with
  | Mcp (GET header generated connect) =>
      match connect with
      | Resolves => negb (String.eqb (or_else header generated) "__proto__")
      | Rejects _ => false
      end
  | Sse generated connect =>
      match connect with
      | Resolves => negb (String.eqb generated "__proto__")
      | Rejects _ => false
      end
  | Tick _ write_ok => write_ok
  | _ => true
  end.

(** The registries of such a process: both still have
    [Object.prototype] as their prototype, they own the same session
    ids, and every timer kept is a live interval of its session. *)
Record calm (s : t) : Prop := mkCalm {
  calm_wf : wf s;
  calm_transports : proto (transports s) = None;
  calm_timers : proto (keepAliveTimers s) = None;
  calm_dom : dom (own (keepAliveTimers s)) = dom (own (transports s));
  calm_live : forall sid v,
    own (keepAliveTimers s) !! sid = Some v ->
    exists h res, v = VTimeout h /\ intervals s !! h = Some (sid, res);
  calm_count : size (intervals s) = size (own (keepAliveTimers s))
}.

(** The stream of every binding the registry owns is still open: its
    ['close'] listener is registered, for the session of the binding;
    and stream numbers at or above the counter are not in use. *)
Record listened (s : t) : Prop := mkListened {
  listened_bound : forall sid v,
    own (transports s) !! sid = Some v ->
    exists r, v = VTransport r /\ on_close s !! r = Some sid;
  listened_fresh : forall r,
    is_Some (on_close s !! r) -> (r < next_stream s)%nat
}.

(** A runtime in which a transport and a [Timeout] add nothing to what
    [Object.prototype] provides. *)
Definition bare : runtime :=
  mkRuntime (fun _ key => if bool_decide (key ∈ object_prototype)
                          then Some VOther else None)
            (fun _ _ => false).

Definition accepted : post_outcome :=
  Answered (mkResponse 202 None (BSdk "Accepted")).

(** A stream is established under the id [__proto__] and closes. *)
Definition proto_session : list event :=
  [Mcp (GET (Some "__proto__") "g" Resolves); Close 0%nat].

(** [server.connect] rejects. *)
Definition rejected_connect : list event :=
  [Mcp (GET (Some "s1") "g" (Rejects false))].

(** A heartbeat write throws. *)
Definition write_failure : list event :=
  [Mcp (GET (Some "s1") "g" Resolves); Tick 0%nat false].

(** A state in which the interval of session [s1] is live and nothing
    is bound to [s1]. *)
Definition lone_timer : t :=
  mkState empty_object (mkObject {["s1" := VTimeout 0%nat]} None)
          {[0%nat := ("s1", 0%nat)]} 1%nat ∅ 1%nat bare.

End Transport.
(** * Claims about the resource cache *)

Section CacheClaims.
Import CalendarCache.

Lemma foldl_delete_lookup {A} (ks : list string) (m : gmap string A) k :
  foldl (fun m key => delete key m) m ks !! k =
  if decide (k ∈ ks) then None else m !! k.
Proof.
  revert m. induction ks as [|a ks IH]; intros m; simpl.
  - destruct (decide (k ∈ [])) as [H|H]; [inversion H | done].
  - rewrite IH. destruct (decide (k = a)) as [->|Hne].
    + rewrite lookup_delete_eq.
      destruct (decide (a ∈ ks)), (decide (a ∈ a :: ks)); try done.
      all: exfalso; match goal with H : _ ∉ _ :: _ |- _ => apply H end; by left.
    + rewrite lookup_delete_ne by done.
      destruct (decide (k ∈ ks)) as [Hk|Hk], (decide (k ∈ a :: ks)) as [Hk'|Hk'];
        try done; exfalso.
      * apply Hk'. by right.
      * apply Hk. by apply elem_of_cons in Hk' as [?|?].
Qed.

Lemma foldl_delete_size {A} (ks : list string) (m : gmap string A) :
  NoDup ks -> (forall k, k ∈ ks -> is_Some (m !! k)) ->
  size m = (length ks + size (foldl (fun m key => delete key m) m ks))%nat.
Proof.
  revert m. induction ks as [|a ks IH]; intros m Hnd Hin; simpl; [done|].
  apply NoDup_cons in Hnd as [Ha Hnd].
  rewrite <- IH; [| done |].
  - assert (is_Some (m !! a)) as Hs by (apply Hin; set_solver).
    rewrite map_size_delete_Some by done.
    destruct Hs as [x Hx].
    assert (size m <> 0%nat); [| lia].
    intros H0. apply map_size_empty_inv in H0. subst m.
    by rewrite lookup_empty in Hx.
  - intros k Hk. rewrite lookup_delete_ne; [apply Hin; set_solver|].
    intros ->. done.
Qed.

Lemma size_delete_S {A} (m : gmap string A) i :
  is_Some (m !! i) -> size m = S (size (delete i m)).
Proof.
  intros Hs. rewrite map_size_delete_Some by done.
  pose proof (map_size_ne_0_lookup_2 m i Hs). lia.
Qed.

Lemma elem_of_userKeys userId st k :
  k ∈ userKeys userId st <->
  includes (":" ++ userId) k = true /\ is_Some (cache st !! k).
Proof.
  unfold userKeys. rewrite list_elem_of_filter, list_elem_of_fmap.
  split.
  - intros [Hi [[k' x] [-> Hx]]]. split; [done|].
    apply elem_of_map_to_list in Hx. by exists x.
  - intros [Hi [x Hx]]. split; [done|]. exists (k, x). split; [done|].
    by apply elem_of_map_to_list.
Qed.

Lemma handleClearCache_lookup userId st k :
  cache (handleClearCache userId st).2 !! k =
  if includes (":" ++ userId) k then None else cache st !! k.
Proof.
  unfold handleClearCache; simpl. rewrite foldl_delete_lookup.
  case_decide as H.
  - apply elem_of_userKeys in H as [-> _]. done.
  - destruct (includes (":" ++ userId) k) eqn:Hi; [|done].
    destruct (cache st !! k) eqn:Hk; [|done].
    exfalso. apply H, elem_of_userKeys. eauto.
Qed.

Lemma handleClearCache_count userId st :
  exists n, (handleClearCache userId st).1 =
              mkResponse 200 None None (BCleared n) /\
    size (cache st) = (n + size (cache (handleClearCache userId st).2))%nat.
Proof.
  exists (length (userKeys userId st)). split; [done|].
  unfold handleClearCache; simpl. apply foldl_delete_size.
  - unfold userKeys. apply NoDup_filter, NoDup_fst_map_to_list.
  - intros k Hk. by apply elem_of_userKeys in Hk as [_ ?].
Qed.

Example two_owners_keys :
  is_Some (cache two_owners !! "calendars:bob") /\
  is_Some (cache two_owners !! "calendars:bobby") /\
  size (cache two_owners) = 2%nat /\
  owner_of "calendars:bob" = Some "bob" /\
  owner_of "calendars:bobby" = Some "bobby".
Proof. vm_compute. eauto 10. Qed.

(** C1 on the code: whatever else the cache holds, once it holds entries
    under [calendars:bob] and [calendars:bobby], [DELETE /clear?userId=bob]
    removes both of them, the entry of owner [bobby] included, because a
    key is selected when it contains the text [:bob]; the reported
    [clearedEntries] is the number of entries removed. On the cache with
    just these two entries it reports 2 and leaves the cache empty. *)
Theorem clear_bob_also_removes_bobby
    (m : gmap string CacheEntry) (sto : option (gmap string CacheEntry))
    (e1 e2 : CacheEntry) (now now' : Z) :
  let st := mkCache (<["calendars:bob" := e1]> (<["calendars:bobby" := e2]> m)) sto in
  let out := fetch (clear_rq (Some "bob")) now now' st in
  cache out.2 !! "calendars:bob" = None /\
  cache out.2 !! "calendars:bobby" = None /\
  storage out.2 = Some (cache out.2) /\
  (exists n, out.1 = mkResponse 200 None None (BCleared n) /\
             size (cache st) = (n + size (cache out.2))%nat /\
             (2 <= n)%nat) /\
  (fetch (clear_rq (Some "bob")) now now' two_owners).1 =
    mkResponse 200 None None (BCleared 2) /\
  cache (fetch (clear_rq (Some "bob")) now now' two_owners).2 = ∅.
Proof.
  intros st out.
  assert (Hout : out = handleClearCache "bob" st) by reflexivity.
  assert (Hbob : cache out.2 !! "calendars:bob" = None).
  { rewrite Hout, handleClearCache_lookup. reflexivity. }
  assert (Hbobby : cache out.2 !! "calendars:bobby" = None).
  { rewrite Hout, handleClearCache_lookup. reflexivity. }
  split; [exact Hbob|]. split; [exact Hbobby|]. split; [by rewrite Hout|].
  split; [|split; by vm_compute].
  destruct (handleClearCache_count "bob" st) as (n & Hn & Hsz).
  exists n. rewrite Hout. split; [exact Hn|split; [exact Hsz|]].
  set (c' := cache (handleClearCache "bob" st).2) in *.
  assert (Hdel : c' ⊆ delete "calendars:bob" (delete "calendars:bobby" (cache st))).
  { apply map_subseteq_spec. intros k x Hk.
    assert (k <> "calendars:bob")
      by (intros ->; unfold c' in Hk; rewrite <- Hout in Hk; congruence).
    assert (k <> "calendars:bobby")
      by (intros ->; unfold c' in Hk; rewrite <- Hout in Hk; congruence).
    rewrite !lookup_delete_ne by done.
    unfold c' in Hk. rewrite handleClearCache_lookup in Hk.
    by destruct (includes (":" ++ "bob") k). }
  apply map_subseteq_size in Hdel.
  rewrite (size_delete_S (cache st) "calendars:bobby") in Hsz.
  2:{ unfold st; simpl. rewrite lookup_insert_ne, lookup_insert_eq by done. eauto. }
  rewrite (size_delete_S (delete "calendars:bobby" (cache st)) "calendars:bob") in Hsz.
  2:{ unfold st; simpl. rewrite lookup_delete_ne, lookup_insert_eq by done. eauto. }
  lia.
Qed.

Lemma handleGet_after_put key path user d ttl ttl' t0 dt now' st :
  handleGet key ttl (t0 + dt) now'
            (handlePut key (put_rq path user d) ttl' t0 st).2 =
  if dt <? ttl then hit d (now' - t0) else miss.
Proof.
  unfold handlePut, handleGet. simpl.
  rewrite lookup_insert_eq. simpl.
  by replace (t0 + dt - t0) with dt by lia.
Qed.

Lemma handleGet_hit_iff key ttl now now' st :
  x_cache (handleGet key ttl now now' st) = Some "HIT" <->
  exists e, cache st !! key = Some e /\ now - timestamp e < ttl.
Proof.
  unfold handleGet. destruct (cache st !! key) as [e|]; simpl.
  - destruct (Z.ltb_spec (now - timestamp e) ttl); simpl; split.
    + eauto.
    + done.
    + discriminate.
    + intros (e' & He & Hlt). inversion He; subst. lia.
  - split; [discriminate | by intros (e & He & _)].
Qed.

(** Routing of [fetch]. *)

Lemma fetch_put_preferences user d now now' st :
  fetch (put_rq "/preferences" user d) now now' st =
  handlePut ("preferences:" ++ or_else user "default")
            (put_rq "/preferences" user d) PREFERENCES_TTL now st.
Proof. reflexivity. Qed.

Lemma fetch_get_preferences user now now' st :
  fetch (get_rq "/preferences" user) now now' st =
  (handleGet ("preferences:" ++ or_else user "default") PREFERENCES_TTL
             now now' st, st).
Proof. reflexivity. Qed.

Lemma fetch_put_calendars user d now now' st :
  fetch (put_rq "/calendars" user d) now now' st =
  handlePut ("calendars:" ++ or_else user "default")
            (put_rq "/calendars" user d) DEFAULT_TTL now st.
Proof. reflexivity. Qed.

Lemma fetch_get_calendars user now now' st :
  fetch (get_rq "/calendars" user) now now' st =
  (handleGet ("calendars:" ++ or_else user "default") DEFAULT_TTL
             now now' st, st).
Proof. reflexivity. Qed.

Lemma fetch_put_events calendarId user d now now' st :
  fetch (put_rq ("/events/" ++ calendarId) user d) now now' st =
  handlePut (events_key user calendarId)
            (put_rq ("/events/" ++ calendarId) user d) DEFAULT_TTL now st.
Proof. reflexivity. Qed.

Lemma fetch_get_events calendarId user now now' st :
  fetch (get_rq ("/events/" ++ calendarId) user) now now' st =
  (handleGet (events_key user calendarId) DEFAULT_TTL now now' st, st).
Proof. reflexivity. Qed.

(** C4: a value put under [/preferences] and read 600000 ms later is a
    HIT that returns the value with [X-Cache: HIT]; a value put under
    [/calendars] or [/events/<calendarId>] and read 600000 ms later is a
    MISS, status 404 with [X-Cache: MISS]. A read is a HIT exactly when
    an entry is stored under the key and [now - timestamp < ttl], the
    TTL being 24 hours for preferences and 5 minutes otherwise. *)
Theorem cache_ttl_by_category
    (st : t) (user : option string) (calendarId : string) (d : json)
    (t0 t0' now' : Z) :
  PREFERENCES_TTL = 24 * 3600 * 1000 /\
  DEFAULT_TTL = 5 * 60 * 1000 /\
  (let st1 := (fetch (put_rq "/preferences" user d) t0 t0' st).2 in
   fetch (get_rq "/preferences" user) (t0 + 600000) now' st1 =
     (mkResponse 200 (Some "HIT") (Some (now' - t0)) (BData d), st1)) /\
  (let st1 := (fetch (put_rq "/calendars" user d) t0 t0' st).2 in
   fetch (get_rq "/calendars" user) (t0 + 600000) now' st1 =
     (mkResponse 404 (Some "MISS") None (BError "Cache miss"), st1)) /\
  (let st1 := (fetch (put_rq ("/events/" ++ calendarId) user d) t0 t0' st).2 in
   fetch (get_rq ("/events/" ++ calendarId) user) (t0 + 600000) now' st1 =
     (mkResponse 404 (Some "MISS") None (BError "Cache miss"), st1)) /\
  (forall key ttl now st',
      x_cache (handleGet key ttl now now' st') = Some "HIT" <->
      exists e, cache st' !! key = Some e /\ now - timestamp e < ttl).
Proof.
  split; [reflexivity|]. split; [reflexivity|].
  split; [|split; [|split]].
  - intros st1. unfold st1.
    rewrite fetch_put_preferences, fetch_get_preferences.
    by rewrite handleGet_after_put.
  - intros st1. unfold st1.
    rewrite fetch_put_calendars, fetch_get_calendars.
    by rewrite handleGet_after_put.
  - intros st1. unfold st1.
    rewrite fetch_put_events, fetch_get_events.
    by rewrite handleGet_after_put.
  - intros. apply handleGet_hit_iff.
Qed.

Example three_owners_keys :
  (map_to_list (cache three_owners)).*1 ≡ₚ
    ["calendars:default"; "calendars:defaultuser"; "events:bob:default"] /\
  owner_of "calendars:default" = Some "default" /\
  owner_of "calendars:defaultuser" = Some "defaultuser" /\
  owner_of "events:bob:default" = Some "bob".
Proof.
  split; [|by vm_compute].
  vm_compute. apply Permutation_swap.
Qed.

(** C10 on the code: a request without [userId] (or with an empty one)
    is served for the owner [default]: reads and writes address
    [calendars:default], [events:default:<calendarId>] and
    [preferences:default], and [DELETE /clear] runs the clear for
    [default]. That clear removes every key containing the text
    [:default], so on [three_owners] it also removes the calendars of
    owner [defaultuser] and the events of bob's calendar [default]: it
    reports 3 cleared entries and leaves the cache empty. *)
Theorem missing_userId_is_default_and_clear_overreaches
    (st : t) (rq_body : option json) (calendarId : string) (now now' : Z) :
  or_else None "default" = "default" /\
  or_else (Some "") "default" = "default" /\
  fetch (mkRequest "GET" "/calendars" None rq_body) now now' st =
    (handleGet "calendars:default" DEFAULT_TTL now now' st, st) /\
  fetch (mkRequest "PUT" "/calendars" None rq_body) now now' st =
    handlePut "calendars:default" (mkRequest "PUT" "/calendars" None rq_body)
              DEFAULT_TTL now st /\
  fetch (mkRequest "GET" "/preferences" None rq_body) now now' st =
    (handleGet "preferences:default" PREFERENCES_TTL now now' st, st) /\
  fetch (mkRequest "PUT" "/preferences" None rq_body) now now' st =
    handlePut "preferences:default"
              (mkRequest "PUT" "/preferences" None rq_body)
              PREFERENCES_TTL now st /\
  fetch (mkRequest "GET" "/events/work" None rq_body) now now' st =
    (handleGet "events:default:work" DEFAULT_TTL now now' st, st) /\
  fetch (clear_rq None) now now' st = handleClearCache "default" st /\
  (forall key,
      cache (fetch (clear_rq None) now now' st).2 !! key =
      if includes ":default" key then None else cache st !! key) /\
  (fetch (clear_rq None) now now' three_owners).1 =
    mkResponse 200 None None (BCleared 3) /\
  cache (fetch (clear_rq None) now now' three_owners).2
    !! "calendars:defaultuser" = None /\
  cache (fetch (clear_rq None) now now' three_owners).2
    !! "events:bob:default" = None.
Proof.
  repeat split; try reflexivity.
  - intros key. change (fetch (clear_rq None) now now' st)
      with (handleClearCache "default" st).
    apply handleClearCache_lookup.
Qed.

End CacheClaims.

(** * Claims about the session store *)

Section SessionClaims.
Import SessionStore.

Lemma truthy_Some (s : string) : s <> "" -> truthy (Some s) = true.
Proof. intros H. simpl. by destruct (String.eqb_spec s ""). Qed.

(** Routing of [fetch]. *)

Lemma fetch_get sid f now st :
  fetch (get_rq sid) f now st = handleGetSession (get_rq sid) now st.
Proof. reflexivity. Qed.

Lemma fetch_delete sid f now st :
  fetch (delete_rq sid) f now st = handleDeleteSession (delete_rq sid) st.
Proof. reflexivity. Qed.

Lemma fetch_update sid d f now st :
  fetch (update_rq sid d) f now st = handleUpdateSession (update_rq sid d) now st.
Proof. reflexivity. Qed.

Lemma fetch_create user d f now st :
  fetch (create_rq user d) f now st =
  handleCreateSession (create_rq user d) f now st.
Proof. reflexivity. Qed.

(** The handlers on a present and on an absent record. *)

Lemma get_hit sid s now st :
  sid <> "" -> sessions st !! sid = Some s ->
  handleGetSession (get_rq sid) now st =
  (mkResponse 200 (BSession (touch now s)),
   persist (<[sid := touch now s]> (sessions st)) st).
Proof.
  intros Hne Hs. unfold handleGetSession. cbn [id_param get_rq].
  rewrite truthy_Some by done. simpl. by rewrite Hs.
Qed.

Lemma get_miss sid now st :
  sid <> "" -> sessions st !! sid = None ->
  handleGetSession (get_rq sid) now st =
  (mkResponse 404 (BError "Session not found"), st).
Proof.
  intros Hne Hs. unfold handleGetSession. cbn [id_param get_rq].
  rewrite truthy_Some by done. simpl. by rewrite Hs.
Qed.

Lemma update_hit sid s d now st :
  sid <> "" -> sessions st !! sid = Some s ->
  handleUpdateSession (update_rq sid d) now st =
  let s' := mkSession (id s) (createdAt s) now (userId s) (d ∪ data s) in
  (mkResponse 200 (BSession s'), persist (<[sid := s']> (sessions st)) st).
Proof.
  intros Hne Hs. unfold handleUpdateSession.
  cbn [req_json b_sessionId b_data update_rq].
  rewrite truthy_Some by done. simpl. by rewrite Hs.
Qed.

Lemma delete_hit sid s st :
  sid <> "" -> sessions st !! sid = Some s ->
  handleDeleteSession (delete_rq sid) st =
  (mkResponse 200 (BSuccess true), persist (delete sid (sessions st)) st).
Proof.
  intros Hne Hs. unfold handleDeleteSession. cbn [id_param delete_rq].
  rewrite truthy_Some by done. simpl. by rewrite Hs.
Qed.

Lemma delete_miss sid st :
  sid <> "" -> sessions st !! sid = None ->
  handleDeleteSession (delete_rq sid) st =
  (mkResponse 200 (BSuccess false), st).
Proof.
  intros Hne Hs. unfold handleDeleteSession. cbn [id_param delete_rq].
  rewrite truthy_Some by done. simpl. by rewrite Hs.
Qed.

(** A delete changes the store only by removing a record that was there,
    and that is the only case in which it writes to storage. *)
Lemma delete_writes_iff rq st :
  let st' := (handleDeleteSession rq st).2 in
  (puts st' = S (puts st) <->
   exists sid, id_param rq = Some sid /\ sid <> "" /\
               is_Some (sessions st !! sid)) /\
  (puts st' = puts st -> st' = st).
Proof.
  unfold handleDeleteSession.
  destruct (id_param rq) as [sid|] eqn:Hid; simpl.
  - destruct (String.eqb_spec sid "") as [->|Hne]; simpl.
    + split; [|done]. split; [lia|]. by intros (? & [= <-] & ? & _).
    + destruct (sessions st !! sid) eqn:Hs; simpl.
      * split; [|lia]. split; [|done]. intros _. exists sid. eauto.
      * split; [|done]. split; [lia|].
        intros (sid' & [= <-] & _ & [x Hx]). congruence.
  - split; [|done]. split; [lia|]. by intros (? & ? & _).
Qed.

(** C9, as stated, does not hold: the empty id is in no store, and a
    delete for it is answered with status 400, not with status 200 and
    [{success: false}]. *)
Lemma delete_empty_id_rejected :
  ~ (forall (st : t) (sid f : string) (now : Z),
       sessions st !! sid = None ->
       (fetch (delete_rq sid) f now st).1 =
         mkResponse 200 (BSuccess false)).
Proof.
  intros H.
  specialize (H (load 0 None 0%nat) "" "" 0 (lookup_empty _)).
  vm_compute in H. discriminate.
Qed.

(** C9, amended: for every store and every non-empty id that is not in
    the store, the delete is answered with status 200 and
    [{success: false}] and leaves the sessions, the stored copy and the
    count of storage writes as they were. Whatever the request, a delete
    writes to storage exactly when it removed a record, and when it
    writes nothing it changes nothing. *)
Theorem delete_absent_session_is_noop
    (st : t) (sid f : string) (now : Z) :
  sid <> "" ->
  sessions st !! sid = None ->
  fetch (delete_rq sid) f now st = (mkResponse 200 (BSuccess false), st) /\
  (forall rq,
      let st' := (handleDeleteSession rq st).2 in
      (puts st' = S (puts st) <->
       exists sid', id_param rq = Some sid' /\ sid' <> "" /\
                    is_Some (sessions st !! sid')) /\
      (puts st' = puts st -> st' = st)).
Proof.
  intros Hne Hs. split.
  - rewrite fetch_delete. by apply delete_miss.
  - intros rq. apply delete_writes_iff.
Qed.

Lemma delete_unknown_S9 :
  fetch (delete_rq "S9") "" 5000
        (fetch (create_rq (Some "alice") None) "S1" 1000 (load 0 None 0%nat)).2 =
  (mkResponse 200 (BSuccess false),
   (fetch (create_rq (Some "alice") None) "S1" 1000 (load 0 None 0%nat)).2).
Proof.
  refine (proj1 (delete_absent_session_is_noop _ "S9" "" 5000 _ _)).
  - discriminate.
  - by vm_compute.
Defined.

(** Reads of a record that is not there change nothing. *)

Lemma run_reads_absent sid times st :
  sid <> "" -> sessions st !! sid = None -> run (reads sid times) st = st.
Proof.
  intros Hne Hs. induction times as [|now times IH]; [done|].
  simpl. unfold run in *. simpl.
  rewrite fetch_get, get_miss by done. simpl. apply IH.
Qed.

(** C5: on any store, [create({userId: "alice"})] answers with the new
    record [S1], whose data is empty; after [update(S1, {foo: "bar"})] a
    [get(S1)] returns the data [{foo: "bar"}]; [delete(S1)] then answers
    [{success: true}], and every later [get(S1)] is answered with 404.
    An update merges shallowly: in the merged data a key of the partial
    data has the partial data's value, any other key keeps its value. *)
Theorem session_round_trip
    (st : t) (S1 : string) (t1 t2 t3 t4 : Z) :
  S1 <> "" ->
  let c := fetch (create_rq (Some "alice") None) S1 t1 st in
  let u := fetch (update_rq S1 {["foo" := JStr "bar"]}) "" t2 c.2 in
  let g := fetch (get_rq S1) "" t3 u.2 in
  let d := fetch (delete_rq S1) "" t4 g.2 in
  c.1 = mkResponse 200 (BCreated S1 (mkSession S1 t1 t1 (Some "alice") ∅)) /\
  u.1 = mkResponse 200
          (BSession (mkSession S1 t1 t2 (Some "alice") {["foo" := JStr "bar"]})) /\
  g.1 = mkResponse 200
          (BSession (mkSession S1 t1 t3 (Some "alice") {["foo" := JStr "bar"]})) /\
  d.1 = mkResponse 200 (BSuccess true) /\
  (forall (earlier : list Z) (now : Z),
      (fetch (get_rq S1) "" now (run (reads S1 earlier) d.2)).1 =
        mkResponse 404 (BError "Session not found")) /\
  (forall (st' : t) (s : SessionData) (partial : gmap string json) (now : Z),
      sessions st' !! S1 = Some s ->
      exists s',
        (fetch (update_rq S1 partial) "" now st').1 =
          mkResponse 200 (BSession s') /\
        sessions (fetch (update_rq S1 partial) "" now st').2 !! S1 = Some s' /\
        updatedAt s' = now /\
        forall k, data s' !! k =
                  match partial !! k with
                  | Some v => Some v
                  | None => data s !! k
                  end).
Proof.
  intros Hne c u g d.
  set (s1 := mkSession S1 t1 t1 (Some "alice") ∅).
  set (s2 := mkSession S1 t1 t2 (Some "alice") {["foo" := JStr "bar"]}).
  set (s3 := mkSession S1 t1 t3 (Some "alice") {["foo" := JStr "bar"]}).
  assert (Hc : c = (mkResponse 200 (BCreated S1 s1),
                    persist (<[S1 := s1]> (sessions st)) st)) by reflexivity.
  assert (Hu : u = (mkResponse 200 (BSession s2),
                    persist (<[S1 := s2]> (sessions c.2)) c.2)).
  { unfold u. rewrite fetch_update, (update_hit S1 s1); [|done|].
    - simpl. unfold s2. by rewrite (right_id_L ∅ (∪)).
    - rewrite Hc. simpl. apply lookup_insert_eq. }
  assert (Hg : g = (mkResponse 200 (BSession s3),
                    persist (<[S1 := s3]> (sessions u.2)) u.2)).
  { unfold g. rewrite fetch_get, (get_hit S1 s2); [done|done|].
    rewrite Hu. simpl. apply lookup_insert_eq. }
  assert (Hd : d = (mkResponse 200 (BSuccess true),
                    persist (delete S1 (sessions g.2)) g.2)).
  { unfold d. rewrite fetch_delete, (delete_hit S1 s3); [done|done|].
    rewrite Hg. simpl. apply lookup_insert_eq. }
  split; [by rewrite Hc|]. split; [by rewrite Hu|].
  split; [by rewrite Hg|]. split; [by rewrite Hd|]. split.
  - intros earlier now.
    assert (Hgone : sessions d.2 !! S1 = None).
    { rewrite Hd. simpl. apply lookup_delete_eq. }
    rewrite run_reads_absent by done.
    by rewrite fetch_get, get_miss.
  - intros st' s partial now Hs.
    rewrite fetch_update, (update_hit S1 s) by done. simpl.
    eexists. split; [reflexivity|]. split; [apply lookup_insert_eq|].
    split; [done|]. intros k. simpl. rewrite lookup_union.
    by destruct (partial !! k), (data s !! k).
Qed.

(** The scenario on a store that has just been created, with concrete
    clock readings. *)
Lemma alice_scenario :
  let fresh := load 0 None 0%nat in
  let c := fetch (create_rq (Some "alice") None) "S1" 1000 fresh in
  let u := fetch (update_rq "S1" {["foo" := JStr "bar"]}) "" 2000 c.2 in
  let g := fetch (get_rq "S1") "" 3000 u.2 in
  let d := fetch (delete_rq "S1") "" 4000 g.2 in
  g.1 = mkResponse 200
          (BSession (mkSession "S1" 1000 3000 (Some "alice")
                               {["foo" := JStr "bar"]})) /\
  d.1 = mkResponse 200 (BSuccess true) /\
  (fetch (get_rq "S1") "" 5000 (run (reads "S1" [4500; 4600]) d.2)).1 =
    mkResponse 404 (BError "Session not found").
Proof.
  intros fresh c u g d.
  destruct (session_round_trip fresh "S1" 1000 2000 3000 4000)
    as (_ & _ & Hg & Hd & Hlater & _); [discriminate|].
  split; [exact Hg|]. split; [exact Hd|]. exact (Hlater [4500; 4600] 5000).
Defined.

(** ** Sliding expiration *)

Lemma alive_mono sid last last' st :
  last' <= last -> alive sid last st -> alive sid last' st.
Proof.
  intros Hle (s & m & H1 & H2 & H3 & H4). exists s, m. repeat split; try done. lia.
Qed.

Lemma alive_insert_same sid last s' st :
  last <= updatedAt s' ->
  alive sid last (persist (<[sid := s']> (sessions st)) st).
Proof.
  intros Hle. exists s', (<[sid := s']> (sessions st)). simpl.
  by rewrite lookup_insert_eq.
Qed.

Lemma alive_insert_other sid k last s' st :
  k <> sid -> alive sid last st ->
  alive sid last (persist (<[k := s']> (sessions st)) st).
Proof.
  intros Hne (s & m & H1 & _ & _ & H4).
  exists s, (<[k := s']> (sessions st)). simpl.
  by rewrite lookup_insert_ne.
Qed.

Lemma alive_insert sid k last s' st :
  last <= updatedAt s' -> alive sid last st ->
  alive sid last (persist (<[k := s']> (sessions st)) st).
Proof.
  intros Hle Ha. destruct (decide (k = sid)) as [->|Hne].
  - by apply alive_insert_same.
  - by apply alive_insert_other.
Qed.

Lemma alive_delete_other sid k last st :
  k <> sid -> alive sid last st ->
  alive sid last (persist (delete k (sessions st)) st).
Proof.
  intros Hne (s & m & H1 & _ & _ & H4).
  exists s, (delete k (sessions st)). simpl.
  by rewrite lookup_delete_ne.
Qed.

Lemma expired_false now last s :
  last <= updatedAt s -> now <= last + THIRTY_MINUTES -> expired now s = false.
Proof.
  intros H1 H2. unfold expired. apply Z.ltb_ge.
  unfold SESSION_TTL, THIRTY_MINUTES in *. lia.
Qed.

Lemma alive_restart sid last now st :
  now <= last + THIRTY_MINUTES ->
  alive sid last st -> alive sid last (restart now st).
Proof.
  intros Hnow (s & m & _ & Hm & Hs & Hle).
  unfold restart, load. rewrite Hm. unfold cleanExpiredSessions. simpl.
  assert (Hkept : filter (fun kv => expired now kv.2 = false) m !! sid = Some s).
  { apply map_lookup_filter_Some. split; [done|]. simpl.
    by eapply expired_false. }
  destruct (existsb _ _); simpl.
  - exists s, (filter (fun kv => expired now kv.2 = false) m). by simpl.
  - exists s, m. by simpl.
Qed.

Lemma alive_exec sid last now o st :
  sid <> "" ->
  last <= now -> now <= last + THIRTY_MINUTES ->
  is_delete sid o = false ->
  alive sid last st ->
  alive sid (if is_get sid o then now else last) (exec now o st).
Proof.
  intros Hne Hlo Hhi Hdel Ha. destruct o as [rq f|]; cbn [exec].
  2:{ by apply alive_restart. }
  destruct (is_get sid (Request rq f)) eqn:Hget.
  - simpl in Hget. apply andb_prop in Hget as [Hget Hid].
    apply andb_prop in Hget as [Hp Hm].
    apply String.eqb_eq in Hp, Hm. apply bool_decide_eq_true in Hid.
    destruct rq as [mth path idp body]; simpl in *; subst.
    destruct Ha as (s & m & Hs & _).
    change (fetch (mkRequest "GET" "/get" (Some sid) body) f now st)
      with (handleGetSession (mkRequest "GET" "/get" (Some sid) body) now st).
    unfold handleGetSession. cbn [id_param].
    rewrite truthy_Some by done. simpl. rewrite Hs. simpl.
    apply alive_insert_same. simpl. lia.
  - clear Hget. unfold fetch.
    repeat match goal with
           | |- context [if ?b then _ else _] => destruct b eqn:?
           end; try exact Ha.
    + unfold handleCreateSession. destruct (req_json rq); [|done].
      simpl. by apply alive_insert.
    + unfold handleGetSession. destruct (truthy (id_param rq)); [|done].
      simpl. destruct (sessions st !! _); [|done].
      simpl. by apply alive_insert.
    + unfold handleUpdateSession. destruct (req_json rq) as [b|]; [|done].
      destruct (truthy (b_sessionId b)); [|done].
      simpl. destruct (sessions st !! _); [|done].
      simpl. by apply alive_insert.
    + unfold handleDeleteSession.
      destruct (truthy (id_param rq)) eqn:Ht; [|done].
      simpl. destruct (sessions st !! _); [|done].
      simpl. apply alive_delete_other; [|done].
      simpl in Hdel.
      match goal with H : _ && _ = true |- _ => rewrite H in Hdel end.
      simpl in Hdel. apply bool_decide_eq_false in Hdel.
      destruct (id_param rq) as [k|]; [|done]. simpl. congruence.
Qed.

Lemma alive_run sid trace : forall last st,
  sid <> "" ->
  kept_alive sid last trace = true ->
  alive sid last st ->
  exists last', alive sid last' (run trace st).
Proof.
  induction trace as [|[now o] trace IH]; intros last st Hne Hk Ha.
  - by exists last.
  - simpl in Hk. apply andb_prop in Hk as [Hk Hrest].
    apply andb_prop in Hk as [Hk Hdel]. apply andb_prop in Hk as [Hlo Hhi].
    apply Z.leb_le in Hlo, Hhi. apply negb_true_iff in Hdel.
    unfold run. simpl. fold (run trace (exec now o st)).
    eapply IH; [done | exact Hrest |]. by apply alive_exec.
Qed.

Lemma restart_purges sid s m now st :
  storage st = Some m -> m !! sid = Some s ->
  SESSION_TTL < now - updatedAt s ->
  sessions (restart now st) !! sid = None /\
  exists m', storage (restart now st) = Some m' /\ m' !! sid = None.
Proof.
  intros Hm Hs Hold. unfold restart, load. rewrite Hm.
  unfold cleanExpiredSessions. simpl.
  assert (Hexp : expired now s = true) by (by apply Z.ltb_lt).
  assert (Hgone : filter (fun kv => expired now kv.2 = false) m !! sid = None).
  { apply map_lookup_filter_None. right. intros s' Hs'. simpl.
    rewrite Hs in Hs'. inversion Hs'; subst. by rewrite Hexp. }
  assert (Hch : existsb (fun kv => expired now kv.2) (map_to_list m) = true).
  { apply existsb_exists. exists (sid, s). split; [|done].
    apply list_elem_of_In. by apply elem_of_map_to_list. }
  rewrite Hch. simpl. eauto.
Qed.

(** C3: a [get] that finds the record sets its [updatedAt] to the
    current time, in memory and in storage. A session that is read at
    most thirty minutes after its previous read, for as long as the trace
    lasts, is still in the store at the end of the trace, however many
    cold starts the trace contains; and a stored session whose
    [updatedAt] lies strictly more than one hour back is absent from
    memory and from storage after a cold start. *)
Theorem sliding_expiration (sid : string) (st : t) (s : SessionData) :
  sid <> "" ->
  sessions st !! sid = Some s ->
  (forall f now,
      let g := fetch (get_rq sid) f now st in
      g.1 = mkResponse 200 (BSession (touch now s)) /\
      updatedAt (touch now s) = now /\
      sessions g.2 !! sid = Some (touch now s) /\
      storage g.2 = Some (sessions g.2) /\
      puts g.2 = S (puts st)) /\
  (forall trace,
      storage st = Some (sessions st) ->
      kept_alive sid (updatedAt s) trace = true ->
      is_Some (sessions (run trace st) !! sid) /\
      exists m, storage (run trace st) = Some m /\ is_Some (m !! sid)) /\
  (forall now,
      storage st = Some (sessions st) ->
      SESSION_TTL < now - updatedAt s ->
      sessions (restart now st) !! sid = None /\
      exists m, storage (restart now st) = Some m /\ m !! sid = None) /\
  SESSION_TTL = 3600 * 1000.
Proof.
  intros Hne Hs. split; [|split; [|split]].
  - intros f now g. unfold g. rewrite fetch_get, (get_hit sid s) by done.
    simpl. by rewrite lookup_insert_eq.
  - intros trace Hst Hk.
    destruct (alive_run sid trace (updatedAt s) st Hne Hk)
      as (last' & s' & m & H1 & H2 & H3 & _).
    { exists s, (sessions st). repeat split; done || lia. }
    split; [eauto|]. exists m. eauto.
  - intros now Hst Hold. by eapply restart_purges.
  - reflexivity.
Qed.

Lemma busy_session_survives :
  let st := (fetch (create_rq (Some "alice") None) "S1" 0 (load 0 None 0%nat)).2 in
  is_Some (sessions (run busy_trace st) !! "S1") /\
  sessions (restart 3660000 st) !! "S1" = None.
Proof.
  intros st.
  destruct (sliding_expiration "S1" st (mkSession "S1" 0 0 (Some "alice") ∅))
    as (_ & Hkeep & Hpurge & _).
  - discriminate.
  - by vm_compute.
  - split.
    + apply Hkeep; by vm_compute.
    + apply Hpurge; by vm_compute.
Defined.

End SessionClaims.

(** * Facts about the transport registry and the pinger *)

Module TransportFacts.
Import Transport.

(** The monad's laws for the three projections of a run. *)

Lemma run_state_bind {A B} (m : M A) (k : A -> M B) s :
  run_state (bind m k) s = run_state (k (run_value m s)) (run_state m s).
Proof.
  unfold run_state, run_value, bind.
  destruct (m s) as [[a s1] e1]; simpl. by destruct (k a s1) as [[b s2] e2].
Qed.

Lemma run_value_bind {A B} (m : M A) (k : A -> M B) s :
  run_value (bind m k) s = run_value (k (run_value m s)) (run_state m s).
Proof.
  unfold run_state, run_value, bind.
  destruct (m s) as [[a s1] e1]; simpl. by destruct (k a s1) as [[b s2] e2].
Qed.

Lemma run_effects_bind {A B} (m : M A) (k : A -> M B) s :
  run_effects (bind m k) s =
  (run_effects m s ++ run_effects (k (run_value m s)) (run_state m s))%list.
Proof.
  unfold run_state, run_value, run_effects, bind.
  destruct (m s) as [[a s1] e1]; simpl. by destruct (k a s1) as [[b s2] e2].
Qed.

Ltac msimpl :=
  repeat (rewrite ?run_state_bind, ?run_value_bind, ?run_effects_bind;
          cbn [run_state run_value run_effects gets emit ret fst snd
               clearInterval setInterval deleteTimer deleteTransport
               timerOf transportOf listen new_stream
               transports keepAliveTimers intervals
               next_handle on_close next_stream env app]).

(** ** Reading and writing an object *)

Lemma read_slot rt o key v : slot o key = Some v -> read rt o key = Some v.
Proof.
  unfold slot, read. destruct (own o !! key); [done|].
  destruct (String.eqb key "__proto__"); [|done]. by intros ->.
Qed.

Lemma read_own rt o key :
  proto o = None -> inherited key = false -> read rt o key = own o !! key.
Proof.
  unfold inherited, read. intros -> [H1 H2]%orb_false_iff.
  rewrite H1, H2. by destruct (own o !! key).
Qed.

Lemma read_inherited rt o key :
  proto o = None -> inherited key = true -> own o !! key = None ->
  read rt o key = Some VOther.
Proof.
  unfold inherited, read. intros -> H ->. simpl.
  destruct (String.eqb key "__proto__"); [done|]. simpl in H. by rewrite H.
Qed.

Lemma read_is_Some_own rt o key :
  is_Some (own o !! key) -> is_Some (read rt o key).
Proof. unfold read. intros [v ->]. eauto. Qed.

Lemma slot_own o key :
  proto o = None -> slot o key = own o !! key.
Proof.
  unfold slot. intros ->. destruct (own o !! key); [done|].
  by destruct (String.eqb key "__proto__").
Qed.

Lemma insert_slot o key v :
  slot (mkObject (<[key := v]> (own o)) (proto o)) key = Some v /\
  forall key', key' <> key ->
    slot (mkObject (<[key := v]> (own o)) (proto o)) key' = slot o key'.
Proof.
  unfold slot. simpl. rewrite lookup_insert_eq. split; [done|].
  intros key' Hne. by rewrite lookup_insert_ne.
Qed.

Lemma assign_slot rt o key v o' :
  assign rt o key v = Some o' ->
  slot o' key = Some v /\
  forall key', key' <> key -> slot o' key' = slot o key'.
Proof.
  unfold assign.
  destruct (own o !! key) as [w|] eqn:Hown.
  { intros [= <-]. apply insert_slot. }
  destruct (String.eqb_spec key "__proto__") as [->|Hp].
  { intros [= <-]. unfold slot. simpl. rewrite Hown. split; [done|].
    intros key' Hne. destruct (own o !! key'); [done|].
    by destruct (String.eqb_spec key' "__proto__"). }
  pose proof (insert_slot o key v) as Hins.
  destruct (proto o) as [[res| |]|]; try (by intros [= <-]).
  destruct (refuses rt res key); [done|]. by intros [= <-].
Qed.

Lemma assign_own rt o key v o' k w :
  assign rt o key v = Some o' -> own o' !! k = Some w ->
  k = key /\ w = v \/ own o !! k = Some w.
Proof.
  assert (Hins : own (mkObject (<[key := v]> (own o)) (proto o)) !! k = Some w ->
                 k = key /\ w = v \/ own o !! k = Some w).
  { simpl. rewrite lookup_insert_Some. intros [[-> ->]|[_ H]]; auto. }
  unfold assign. destruct (own o !! key).
  { by intros [= <-]. }
  destruct (String.eqb key "__proto__").
  { intros [= <-]. by right. }
  destruct (proto o) as [[res| |]|]; try (by intros [= <-]).
  destruct (refuses rt res key); [done|]. by intros [= <-].
Qed.

Lemma assign_plain rt o key v :
  proto o = None -> key <> "__proto__" ->
  assign rt o key v = Some (mkObject (<[key := v]> (own o)) None).
Proof.
  unfold assign. intros Hp Hk. rewrite Hp.
  destruct (own o !! key); [done|].
  by destruct (String.eqb_spec key "__proto__").
Qed.

Lemma assign_timer rt o key h :
  (forall res, proto o <> Some (VTransport res)) ->
  exists o', assign rt o key (VTimeout h) = Some o' /\
             forall res, proto o' <> Some (VTransport res).
Proof.
  unfold assign. intros Hp. destruct (own o !! key); [eauto|].
  destruct (String.eqb key "__proto__").
  - eexists. split; [done|]. by intros res.
  - destruct (proto o) as [[res| |]|] eqn:E; try (eexists; split; [done|]);
      simpl; rewrite ?E; try done. by destruct (Hp res).
Qed.

Lemma slot_delete_ne o key key' :
  key' <> key -> slot (delete_property o key) key' = slot o key'.
Proof. intros Hne. unfold slot. simpl. by rewrite lookup_delete_ne. Qed.

(** ** What each operation leaves behind *)

Lemma stop_state sid s :
  run_state (stopKeepAlivePinger sid) s =
  match read (env s) (keepAliveTimers s) sid with
  | Some v =>
      mkState (transports s) (delete_property (keepAliveTimers s) sid)
              (cleared v (intervals s)) (next_handle s) (on_close s)
              (next_stream s) (env s)
  | None => s
  end.
Proof.
  unfold stopKeepAlivePinger. msimpl.
  destruct (read (env s) (keepAliveTimers s) sid); by msimpl.
Qed.

Lemma stop_effects sid s :
  run_effects (stopKeepAlivePinger sid) s =
  match read (env s) (keepAliveTimers s) sid with
  | Some v => [ClearInterval v; DeleteTimer sid]
  | None => []
  end.
Proof.
  unfold stopKeepAlivePinger. msimpl.
  destruct (read (env s) (keepAliveTimers s) sid); by msimpl.
Qed.

(** The live intervals after the first step of [startKeepAlivePinger]. *)
Lemma start_state sid res s :
  run_state (startKeepAlivePinger sid res) s =
  let live := match read (env s) (keepAliveTimers s) sid with
              | Some v => cleared v (intervals s)
              | None => intervals s
              end in
  mkState (transports s)
          (default (keepAliveTimers s)
             (assign (env s) (keepAliveTimers s) sid (VTimeout (next_handle s))))
          (<[next_handle s := (sid, res)]> live)
          (S (next_handle s)) (on_close s) (next_stream s) (env s).
Proof.
  unfold startKeepAlivePinger. msimpl.
  destruct (read (env s) (keepAliveTimers s) sid); msimpl;
    unfold run_state, setTimer; cbn [keepAliveTimers env];
    by destruct (assign _ _ _ _).
Qed.

Lemma start_value sid res s :
  run_value (startKeepAlivePinger sid res) s =
  bool_decide (is_Some
    (assign (env s) (keepAliveTimers s) sid (VTimeout (next_handle s)))).
Proof.
  unfold startKeepAlivePinger. msimpl.
  destruct (read (env s) (keepAliveTimers s) sid); msimpl;
    unfold run_value, setTimer; cbn [keepAliveTimers env next_handle];
    by destruct (assign _ _ _ _).
Qed.

Lemma start_effects sid res s :
  run_effects (startKeepAlivePinger sid res) s =
  (match read (env s) (keepAliveTimers s) sid with
   | Some v => [ClearInterval v]
   | None => []
   end ++ [SetInterval (next_handle s) sid res])%list.
Proof.
  unfold startKeepAlivePinger. msimpl.
  destruct (read (env s) (keepAliveTimers s) sid); msimpl;
    unfold run_effects, setTimer; cbn [keepAliveTimers env next_handle];
    by destruct (assign _ _ _ _).
Qed.

Lemma setTransport_value sid res s :
  run_value (setTransport sid res) s =
  bool_decide (is_Some (assign (env s) (transports s) sid (VTransport res))).
Proof. unfold run_value, setTransport. by destruct (assign _ _ _ _). Qed.

Lemma setTransport_state sid res s :
  run_state (setTransport sid res) s =
  match assign (env s) (transports s) sid (VTransport res) with
  | Some o =>
      mkState o (keepAliveTimers s) (intervals s) (next_handle s)
              (on_close s) (next_stream s) (env s)
  | None => s
  end.
Proof. unfold run_state, setTransport. by destruct (assign _ _ _ _). Qed.

Lemma stop_transports sid s :
  transports (run_state (stopKeepAlivePinger sid) s) = transports s /\
  env (run_state (stopKeepAlivePinger sid) s) = env s /\
  on_close (run_state (stopKeepAlivePinger sid) s) = on_close s /\
  next_stream (run_state (stopKeepAlivePinger sid) s) = next_stream s.
Proof.
  rewrite stop_state. by destruct (read (env s) (keepAliveTimers s) sid).
Qed.

Lemma cleanup_state sid s :
  run_state (cleanupSession sid) s =
  let s' := run_state (stopKeepAlivePinger sid) s in
  match read (env s) (transports s) sid with
  | Some _ =>
      mkState (delete_property (transports s) sid) (keepAliveTimers s')
              (intervals s') (next_handle s') (on_close s) (next_stream s)
              (env s)
  | None => s'
  end.
Proof.
  unfold cleanupSession. msimpl.
  destruct (stop_transports sid s) as (Ht & He & Ho & Hn).
  rewrite Ht, He.
  destruct (read (env s) (transports s) sid); msimpl; [|done].
  by rewrite Ht, He, Ho, Hn.
Qed.

Lemma cleanup_effects sid s :
  run_effects (cleanupSession sid) s =
  (match read (env s) (keepAliveTimers s) sid with
   | Some v => [ClearInterval v; DeleteTimer sid]
   | None => []
   end ++
   match read (env s) (transports s) sid with
   | Some _ => [DeleteTransport sid]
   | None => []
   end)%list.
Proof.
  unfold cleanupSession. msimpl.
  destruct (stop_transports sid s) as (Ht & He & _).
  rewrite Ht, He, stop_effects. f_equal.
  destruct (read (env s) (transports s) sid); by msimpl.
Qed.

Lemma cleanup_same_pinger sid s :
  same_pinger (run_state (stopKeepAlivePinger sid) s)
              (run_state (cleanupSession sid) s).
Proof.
  rewrite cleanup_state. cbv zeta.
  by destruct (read (env s) (transports s) sid).
Qed.

Lemma cleanup_streams sid s :
  on_close (run_state (cleanupSession sid) s) = on_close s /\
  next_stream (run_state (cleanupSession sid) s) = next_stream s /\
  env (run_state (cleanupSession sid) s) = env s.
Proof.
  rewrite cleanup_state. cbv zeta.
  destruct (stop_transports sid s) as (Ht & He & Ho & Hn).
  by destruct (read (env s) (transports s) sid).
Qed.

Lemma cleanup_transports sid s :
  transports (run_state (cleanupSession sid) s) =
  match read (env s) (transports s) sid with
  | Some _ => delete_property (transports s) sid
  | None => transports s
  end.
Proof.
  rewrite cleanup_state. cbv zeta.
  destruct (stop_transports sid s) as (Ht & _).
  by destruct (read (env s) (transports s) sid).
Qed.

(** ** One event at a time *)

Lemma get_state header generated connect s :
  run_state (mcp_get header generated connect) s =
  established (or_else header generated) connect s.
Proof.
  unfold mcp_get, established. msimpl.
  unfold run_state at 2, run_value at 1, setTransport.
  cbn [transports env next_stream].
  destruct (assign _ _ _ _); cbn [fst snd]; msimpl; [|done].
  by destruct connect; msimpl.
Qed.

Lemma sse_state generated connect s :
  run_state (sseHandler generated connect) s = established generated connect s.
Proof.
  unfold sseHandler, established. msimpl.
  unfold run_state at 2, run_value at 1, setTransport.
  cbn [transports env next_stream].
  destruct (assign _ _ _ _); cbn [fst snd]; msimpl; [|done].
  by destruct connect; msimpl.
Qed.

Lemma post_state header fresh outcome s :
  run_state (mcp_post header fresh outcome) s = s.
Proof.
  unfold mcp_post. msimpl.
  repeat (case_match; msimpl); done.
Qed.

Lemma post_effects header fresh outcome s :
  run_effects (mcp_post header fresh outcome) s = [].
Proof.
  unfold mcp_post. msimpl.
  repeat (case_match; msimpl); done.
Qed.

Lemma message_state query outcome s :
  run_state (messageHandler query outcome) s = s.
Proof.
  unfold messageHandler.
  repeat (case_match; msimpl); done.
Qed.

Lemma delete_state header s :
  run_state (mcp_delete header) s =
  if truthy header &&
     bool_decide (is_Some (read (env s) (transports s) (render header)))
  then run_state (cleanupSession (render header)) s
  else s.
Proof.
  unfold mcp_delete. msimpl. by case_match; msimpl.
Qed.

Lemma close_state res s :
  run_state (close res) s =
  match on_close s !! res with
  | Some sid =>
      run_state (cleanupSession sid)
        (mkState (transports s) (keepAliveTimers s) (intervals s)
                 (next_handle s) (delete res (on_close s))
                 (next_stream s) (env s))
  | None => s
  end.
Proof.
  unfold close. msimpl. destruct (on_close s !! res); by msimpl.
Qed.

Lemma tick_state h ok s :
  run_state (tick h ok) s =
  match intervals s !! h with
  | Some (sid, _) =>
      match read (env s) (transports s) sid with
      | Some _ => if ok then s else run_state (stopKeepAlivePinger sid) s
      | None => run_state (stopKeepAlivePinger sid) s
      end
  | None => s
  end.
Proof.
  unfold tick, pinger_callback. msimpl.
  destruct (intervals s !! h) as [[sid res]|]; msimpl; [|done].
  destruct (read (env s) (transports s) sid); msimpl; [|done].
  by destruct ok; msimpl.
Qed.

Lemma tick_effects h ok s :
  run_effects (tick h ok) s =
  match intervals s !! h with
  | Some (sid, res) =>
      match read (env s) (transports s) sid with
      | Some _ => if ok then [Write res ping_frame]
                  else run_effects (stopKeepAlivePinger sid) s
      | None => run_effects (stopKeepAlivePinger sid) s
      end
  | None => []
  end.
Proof.
  unfold tick, pinger_callback. msimpl.
  destruct (intervals s !! h) as [[sid res]|]; msimpl; [|done].
  destruct (read (env s) (transports s) sid); msimpl; [|done].
  by destruct ok; msimpl.
Qed.

(** Every event leaves the state as it is, stops one pinger, cleans up
    one session (after a close event has removed its listener), or
    establishes a stream. *)
Lemma step_cases s e :
  step s e = s \/
  (exists sid, step s e = run_state (stopKeepAlivePinger sid) s) \/
  (exists sid s0, step s e = run_state (cleanupSession sid) s0 /\
                  same_pinger s s0 /\ transports s0 = transports s /\
                  env s0 = env s /\ next_stream s0 = next_stream s /\
                  (on_close s0 = on_close s \/
                   exists res, on_close s !! res = Some sid /\
                               on_close s0 = delete res (on_close s))) \/
  (exists sid connect, step s e = established sid connect s).
Proof.
  unfold step. destruct e as [rq| | | |]; unfold fire; msimpl.
  - destruct rq; unfold mcpHandler; msimpl.
    + rewrite get_state. right; right; right. by eexists _, _.
    + rewrite post_state. by left.
    + rewrite delete_state. case_match; [|by left].
      right; right; left. exists (render header), s.
      repeat apply conj; try done. by left.
    + by left.
  - rewrite sse_state. right; right; right. by eexists _, _.
  - rewrite message_state. by left.
  - rewrite close_state. destruct (on_close s !! res) eqn:Hr; [|by left].
    right; right; left. eexists _, _. split; [done|].
    repeat apply conj; try done; simpl. right. eauto.
  - rewrite tick_state. repeat case_match; eauto.
Qed.

(** ** The registration invariant *)

Lemma wf_init rt : wf (init rt).
Proof.
  split; simpl; try done.
  intros h [x Hx]. by rewrite lookup_empty in Hx.
Qed.

Lemma wf_same_pinger s s' : same_pinger s s' -> wf s -> wf s'.
Proof.
  intros (Ht & Hi & Hn) [H1 H2 H3].
  split; rewrite ?Ht, ?Hi, ?Hn; auto.
Qed.

Lemma cleared_sub v (live : gmap nat (string * nat)) h x :
  cleared v live !! h = Some x -> live !! h = Some x.
Proof.
  destruct v; simpl; try done. rewrite lookup_delete_Some. tauto.
Qed.

Lemma wf_stop sid s : wf s -> wf (run_state (stopKeepAlivePinger sid) s).
Proof.
  intros [H1 H2 H3]. rewrite stop_state.
  destruct (read (env s) (keepAliveTimers s) sid) as [v|] eqn:Hsid; [|by split].
  split; simpl.
  - intros h' sid' res Hl.
    pose proof (H1 _ _ _ (cleared_sub _ _ _ _ Hl)) as Hs.
    destruct (decide (sid' = sid)) as [->|Hne].
    + rewrite (read_slot _ _ _ _ Hs) in Hsid. injection Hsid as <-.
      simpl in Hl. by rewrite lookup_delete_eq in Hl.
    + by rewrite slot_delete_ne.
  - intros h' [x Hx]. apply cleared_sub in Hx. eauto.
  - done.
Qed.

Lemma wf_start sid res s :
  wf s -> wf (run_state (startKeepAlivePinger sid res) s).
Proof.
  intros [H1 H2 H3]. rewrite start_state. cbv zeta.
  destruct (assign_timer (env s) (keepAliveTimers s) sid (next_handle s) H3)
    as (o' & Ho' & Hp').
  rewrite Ho'. cbn [default from_option id].
  destruct (assign_slot _ _ _ _ _ Ho') as [Hs Hother].
  set (live := match read (env s) (keepAliveTimers s) sid with
               | Some v => cleared v (intervals s)
               | None => intervals s
               end).
  assert (Hsub : forall h x, live !! h = Some x -> intervals s !! h = Some x).
  { intros h x. unfold live.
    destruct (read (env s) (keepAliveTimers s) sid); [|done].
    apply cleared_sub. }
  assert (Hno : forall h r, live !! h = Some (sid, r) -> False).
  { intros h r Hl. pose proof (Hsub _ _ Hl) as Hi. apply H1 in Hi.
    unfold live in Hl. rewrite (read_slot _ _ _ _ Hi) in Hl.
    simpl in Hl. by rewrite lookup_delete_eq in Hl. }
  split; simpl.
  - intros h sid' r. rewrite lookup_insert_Some.
    intros [[<- Heq]|[Hne Hl]].
    + by inversion Heq; subst.
    + destruct (decide (sid' = sid)) as [->|Hd]; [by destruct (Hno _ _ Hl)|].
      rewrite Hother by done. eauto.
  - intros h [x Hx]. apply lookup_insert_Some in Hx as [[<- _]|[_ Hl]].
    + lia.
    + assert (h < next_handle s)%nat; [|lia]. apply H2. eauto.
  - done.
Qed.

Lemma wf_cleanup sid s : wf s -> wf (run_state (cleanupSession sid) s).
Proof.
  intros H. eapply wf_same_pinger; [apply cleanup_same_pinger|].
  by apply wf_stop.
Qed.

Lemma wf_established sid connect s : wf s -> wf (established sid connect s).
Proof.
  intros Hwf. unfold established.
  destruct (assign _ _ _ _) as [o|];
    [|by eapply wf_same_pinger; [|exact Hwf]].
  cbv zeta. destruct connect; [apply wf_start|];
    by eapply wf_same_pinger; [|exact Hwf].
Qed.

Lemma wf_step s e : wf s -> wf (step s e).
Proof.
  intros Hwf.
  destruct (step_cases s e)
    as [->|[[sid ->]|[(sid & s0 & -> & Hsp & _)|(sid & c & ->)]]].
  - done.
  - by apply wf_stop.
  - apply wf_cleanup. by eapply wf_same_pinger.
  - by apply wf_established.
Qed.

Lemma run_snoc es e s : run (es ++ [e]) s = step (run es s) e.
Proof. unfold run. by rewrite foldl_app. Qed.

Lemma run_app es es' s : run (es ++ es') s = run es' (run es s).
Proof. unfold run. by rewrite foldl_app. Qed.

Lemma wf_run es s : wf s -> wf (run es s).
Proof.
  revert s. induction es as [|e es IH]; intros s Hwf; [done|].
  simpl. by apply IH, wf_step.
Qed.

End TransportFacts.

(** * Claims about the transport registry and the pinger *)

Section TransportClaims.
Import Transport TransportFacts.

Lemma older_refl s : older s s.
Proof. by split. Qed.

Lemma older_trans s1 s2 s3 : older s1 s2 -> older s2 s3 -> older s1 s3.
Proof.
  intros [Hn1 H1] [Hn2 H2]. split; [lia|].
  intros h x Hh Hl. apply H1; [done|]. apply H2; [lia | done].
Qed.

Lemma older_same_pinger s s' : same_pinger s s' -> older s s'.
Proof. intros (_ & Hi & Hn). split; rewrite ?Hi, ?Hn; auto. Qed.

Lemma older_stop sid s : older s (run_state (stopKeepAlivePinger sid) s).
Proof.
  rewrite stop_state.
  destruct (read (env s) (keepAliveTimers s) sid); [|apply older_refl].
  split; simpl; [done|]. intros h' x _. apply cleared_sub.
Qed.

Lemma older_start sid res s :
  older s (run_state (startKeepAlivePinger sid res) s).
Proof.
  rewrite start_state. split; simpl; [lia|].
  intros h x Hh. rewrite lookup_insert_ne by lia.
  destruct (read (env s) (keepAliveTimers s) sid); [|done].
  apply cleared_sub.
Qed.

Lemma older_cleanup sid s : older s (run_state (cleanupSession sid) s).
Proof.
  eapply older_trans; [apply older_stop|].
  apply older_same_pinger, cleanup_same_pinger.
Qed.

Lemma older_established sid connect s : older s (established sid connect s).
Proof.
  unfold established.
  destruct (assign _ _ _ _) as [o|]; [|by apply older_same_pinger].
  cbv zeta. destruct connect; [|by apply older_same_pinger].
  eapply older_trans; [|apply older_start]. by apply older_same_pinger.
Qed.

Lemma older_step s e : older s (step s e).
Proof.
  destruct (step_cases s e)
    as [->|[[sid ->]|[(sid & s0 & -> & Hsp & _)|(sid & c & ->)]]].
  - apply older_refl.
  - apply older_stop.
  - eapply older_trans; [|apply older_cleanup]. by apply older_same_pinger.
  - apply older_established.
Qed.

Lemma older_run es s : older s (run es s).
Proof.
  revert s. induction es as [|e es IH]; intros s; [apply older_refl|].
  simpl. eapply older_trans; [apply older_step | apply IH].
Qed.

(** ** Own properties after a teardown *)

Lemma stop_own_timers sid s :
  own (keepAliveTimers (run_state (stopKeepAlivePinger sid) s)) =
    delete sid (own (keepAliveTimers s)) /\
  proto (keepAliveTimers (run_state (stopKeepAlivePinger sid) s)) =
    proto (keepAliveTimers s).
Proof.
  rewrite stop_state.
  destruct (read (env s) (keepAliveTimers s) sid) eqn:Hr; [done|].
  split; [|done]. rewrite delete_id; [done|].
  unfold read in Hr. by destruct (own (keepAliveTimers s) !! sid).
Qed.

Lemma cleanup_own_timers sid s :
  own (keepAliveTimers (run_state (cleanupSession sid) s)) =
    delete sid (own (keepAliveTimers s)) /\
  proto (keepAliveTimers (run_state (cleanupSession sid) s)) =
    proto (keepAliveTimers s).
Proof.
  destruct (cleanup_same_pinger sid s) as (-> & _). apply stop_own_timers.
Qed.

Lemma cleanup_own_transports sid s :
  own (transports (run_state (cleanupSession sid) s)) =
    delete sid (own (transports s)) /\
  proto (transports (run_state (cleanupSession sid) s)) =
    proto (transports s).
Proof.
  rewrite cleanup_transports.
  destruct (read (env s) (transports s) sid) eqn:Hr; [done|].
  split; [|done]. rewrite delete_id; [done|].
  unfold read in Hr. by destruct (own (transports s) !! sid).
Qed.

Lemma cleanup_intervals sid s :
  intervals (run_state (cleanupSession sid) s) =
  match read (env s) (keepAliveTimers s) sid with
  | Some v => cleared v (intervals s)
  | None => intervals s
  end.
Proof.
  destruct (cleanup_same_pinger sid s) as (_ & -> & _). rewrite stop_state.
  by destruct (read (env s) (keepAliveTimers s) sid).
Qed.

(** ** Parity of timers and bindings in a quiet process *)

Lemma calm_init rt : calm (init rt).
Proof.
  split; try done. apply wf_init.
Qed.

(** What stopping or restarting the pinger of [sid] leaves of the live
    intervals, when every timer kept is a live interval of its
    session. *)
Lemma live_after s sid :
  proto (keepAliveTimers s) = None ->
  (forall sid v, own (keepAliveTimers s) !! sid = Some v ->
     exists h res, v = VTimeout h /\ intervals s !! h = Some (sid, res)) ->
  size (intervals s) = size (own (keepAliveTimers s)) ->
  let live := match read (env s) (keepAliveTimers s) sid with
              | Some v => cleared v (intervals s)
              | None => intervals s
              end in
  (forall sid' h res, sid' <> sid -> intervals s !! h = Some (sid', res) ->
                      live !! h = Some (sid', res)) /\
  (forall h x, live !! h = Some x -> intervals s !! h = Some x) /\
  size live = size (delete sid (own (keepAliveTimers s))).
Proof.
  intros Hp Hlive Hcount live.
  destruct (own (keepAliveTimers s) !! sid) as [v|] eqn:Ho.
  - destruct (Hlive _ _ Ho) as (h & res & -> & Hh).
    assert (live = delete h (intervals s)) as ->.
    { unfold live, read. by rewrite Ho. }
    repeat apply conj.
    + intros sid' h' res' Hne Hl. rewrite lookup_delete_ne; [done|].
      intros <-. congruence.
    + intros h' x. rewrite lookup_delete_Some. tauto.
    + rewrite !map_size_delete, Hh, Ho. by rewrite Hcount.
  - assert (live = intervals s) as ->.
    { unfold live, read. rewrite Ho, Hp.
      destruct (String.eqb sid "__proto__"); [done|].
      by destruct (bool_decide _). }
    repeat apply conj; try done.
    by rewrite delete_id.
Qed.

Lemma calm_cleanup sid s : calm s -> calm (run_state (cleanupSession sid) s).
Proof.
  intros Hc.
  destruct (cleanup_own_timers sid s) as [Hot Hpt].
  destruct (cleanup_own_transports sid s) as [Hob Hpb].
  destruct (live_after s sid (calm_timers _ Hc) (calm_live _ Hc)
              (calm_count _ Hc)) as (Hkeep & Hsub & Hsize).
  split.
  - apply wf_cleanup, Hc.
  - rewrite Hpb. apply Hc.
  - rewrite Hpt. apply Hc.
  - rewrite Hot, Hob, !dom_delete_L. by rewrite (calm_dom _ Hc).
  - intros sid' v. rewrite Hot, lookup_delete_Some. intros [Hne Hv].
    destruct (calm_live _ Hc _ _ Hv) as (h & res & -> & Hh).
    exists h, res. split; [done|]. rewrite cleanup_intervals.
    apply Hkeep; [congruence | done].
  - rewrite Hot, cleanup_intervals. apply Hsize.
Qed.

Lemma calm_established sid s :
  sid <> "__proto__" -> calm s -> calm (established sid Resolves s).
Proof.
  intros Hsid Hc. unfold established.
  rewrite assign_plain by (done || apply Hc). cbv zeta.
  set (s1 := mkState _ _ _ _ _ _ _).
  destruct (live_after s1 sid (calm_timers _ Hc) (calm_live _ Hc)
              (calm_count _ Hc)) as (Hkeep & Hsub & Hsize).
  assert (Hwf1 : wf s1) by (by eapply wf_same_pinger; [|exact (calm_wf _ Hc)]).
  pose proof (wf_start sid (next_stream s) s1 Hwf1) as Hwf'.
  revert Hwf'. rewrite start_state. cbv zeta.
  rewrite assign_plain by (done || apply Hc). cbn [default from_option id].
  intros Hwf'. subst s1.
  cbn [transports keepAliveTimers intervals next_handle next_stream env
       own proto] in *.
  assert (Hfresh : forall h x, intervals s !! h = Some x ->
                               (h < next_handle s)%nat).
  { intros h x Hh. apply (wf_fresh _ (calm_wf _ Hc)). eauto. }
  split; cbn [transports keepAliveTimers intervals own proto].
  - exact Hwf'.
  - done.
  - done.
  - rewrite !dom_insert_L. by rewrite (calm_dom _ Hc).
  - intros sid' v. rewrite lookup_insert_Some.
    intros [[<- <-]|[Hne Hv]].
    + exists (next_handle s), (next_stream s).
      split; [done|]. apply lookup_insert_eq.
    + destruct (calm_live _ Hc _ _ Hv) as (h & res & -> & Hh).
      exists h, res. split; [done|].
      rewrite lookup_insert_ne; [by apply Hkeep|].
      intros <-. apply Hfresh in Hh. cbn in Hh. lia.
  - rewrite map_size_insert_None.
    2:{ match goal with |- ?m !! _ = None =>
          destruct (m !! next_handle s) as [x|] eqn:Hl; [|done] end.
        apply Hsub, Hfresh in Hl. cbn in Hl. lia. }
    rewrite Hsize, map_size_insert, map_size_delete.
    destruct (own (keepAliveTimers s) !! sid) eqn:Ho; [|done].
    assert (size (own (keepAliveTimers s)) <> 0%nat); [|simpl; lia].
    intros H0. apply map_size_empty_inv in H0. rewrite H0 in Ho.
    by rewrite lookup_empty in Ho.
Qed.

Lemma calm_step s e : quiet e = true -> calm s -> calm (step s e).
Proof.
  intros Hq Hc. unfold step. destruct e as [rq| | | |]; unfold fire; msimpl.
  - destruct rq; unfold mcpHandler; msimpl.
    + rewrite get_state. simpl in Hq. destruct connect; [|done].
      apply calm_established; [|done].
      intros E. by rewrite E in Hq.
    + by rewrite post_state.
    + rewrite delete_state. case_match; [by apply calm_cleanup | done].
    + done.
  - rewrite sse_state. simpl in Hq. destruct connect; [|done].
    apply calm_established; [|done]. intros E. by rewrite E in Hq.
  - by rewrite message_state.
  - rewrite close_state. destruct (on_close s !! res); [|done].
    apply calm_cleanup. destruct Hc as [Hwf Hb Ht Hdom Hlive Hcount].
    split; try done. by eapply wf_same_pinger; [|exact Hwf].
  - simpl in Hq. subst write_ok. rewrite tick_state.
    destruct (intervals s !! h) as [[sid res]|] eqn:Hh; [|done].
    by destruct (read (env s) (transports s) sid) eqn:Hr;
      [|exfalso; revert Hr;
        apply (wf_registered _ (calm_wf _ Hc)) in Hh;
        rewrite (slot_own _ _ (calm_timers _ Hc)) in Hh;
        assert (sid ∈ dom (own (transports s))) as [x Hx]%elem_of_dom
          by (rewrite <- (calm_dom _ Hc); apply elem_of_dom; eauto);
        unfold read; rewrite Hx].
Qed.

Lemma calm_run es s : forallb quiet es = true -> calm s -> calm (run es s).
Proof.
  revert s. induction es as [|e es IH]; intros s Hq Hc; [done|].
  simpl in Hq. apply andb_true_iff in Hq as [Hq1 Hq2].
  simpl. by apply IH, calm_step.
Qed.

Lemma env_step s e : env (step s e) = env s.
Proof.
  destruct (step_cases s e)
    as [->|[[sid ->]|[(sid & s0 & -> & _ & _ & He & _)|(sid & c & ->)]]].
  - done.
  - apply stop_transports.
  - by rewrite (proj2 (proj2 (cleanup_streams _ _))).
  - unfold established. destruct (assign _ _ _ _); [|done]. cbv zeta.
    destruct c; [|done]. by rewrite start_state.
Qed.

Lemma env_run es s : env (run es s) = env s.
Proof.
  revert s. induction es as [|e es IH]; intros s; [done|].
  simpl. by rewrite IH, env_step.
Qed.

(** C2, as stated, does not hold.
    (a) A stream is established under the id [__proto__] and closes:
    the assignment replaced the prototype of [transports], the
    [delete] of the teardown removes nothing, and the lookup still
    finds the transport (a DELETE for the id is answered 202) while no
    interval is live. (b) In a fresh process the lookup of
    [constructor] finds a member of [Object.prototype], so the id
    counts as bound, without a timer. (c) [server.connect] rejects:
    the binding was stored before, and no pinger is started. (d) A
    heartbeat write throws: the [catch] stops the pinger and leaves
    the binding. *)
Lemma parity_fails_for_inherited_ids_and_failures :
  (let s := run proto_session (init bare) in
   read bare (transports s) "__proto__" = Some (VTransport 0%nat) /\
   intervals s = ∅ /\
   run_value (mcp_delete (Some "__proto__")) s = mkResponse 202 None BEmpty) /\
  (read bare (transports (init bare)) "constructor" = Some VOther /\
   intervals (init bare) = ∅ /\
   run_value (mcp_delete (Some "constructor")) (init bare) =
     mkResponse 202 None BEmpty) /\
  (let s := run rejected_connect (init bare) in
   read bare (transports s) "s1" = Some (VTransport 0%nat) /\
   read bare (keepAliveTimers s) "s1" = None /\
   intervals s = ∅) /\
  (let s := run write_failure (init bare) in
   read bare (transports s) "s1" = Some (VTransport 0%nat) /\
   read bare (keepAliveTimers s) "s1" = None /\
   intervals s = ∅).
Proof. by vm_compute. Qed.

(** C2, amended: in every state reached by any interleaving of stream
    establishments whose session id is not [__proto__] and whose
    [server.connect] resolves, message posts, DELETEs, close events
    and ticks whose heartbeat write does not throw, a keep-alive
    interval is live for a session id exactly when the registry holds
    a binding for it; for an id that is not a name inherited from
    [Object.prototype] this is what the lookups
    [keepAliveTimers[id]] and [transports[id]] find. The timers kept
    and the live intervals are as many as the bindings, and once no
    binding is left, no timer and no live interval is left. *)
Theorem quiet_timer_binding_parity (rt : runtime) (es : list event) :
  forallb quiet es = true ->
  let s := run es (init rt) in
  (forall sid, (exists h res, intervals s !! h = Some (sid, res)) <->
               is_Some (own (transports s) !! sid)) /\
  (forall sid, inherited sid = false ->
     (is_Some (read (env s) (keepAliveTimers s) sid) <->
      is_Some (read (env s) (transports s) sid)) /\
     ((exists h res, intervals s !! h = Some (sid, res)) <->
      is_Some (read (env s) (transports s) sid))) /\
  size (own (keepAliveTimers s)) = size (own (transports s)) /\
  size (intervals s) = size (own (transports s)) /\
  (own (transports s) = ∅ ->
   own (keepAliveTimers s) = ∅ /\ intervals s = ∅).
Proof.
  intros Hq s.
  destruct (calm_run es (init rt) Hq (calm_init rt))
    as [Hwf Hpb Hpt Hdom Hlive Hcount].
  fold s in Hwf, Hpb, Hpt, Hdom, Hlive, Hcount.
  assert (Hiff : forall sid, is_Some (own (keepAliveTimers s) !! sid) <->
                             is_Some (own (transports s) !! sid)).
  { intros sid. by rewrite <- !elem_of_dom, Hdom. }
  assert (Hint : forall sid,
            (exists h res, intervals s !! h = Some (sid, res)) <->
            is_Some (own (transports s) !! sid)).
  { intros sid. rewrite <- Hiff. split.
    - intros (h & res & Hh). apply (wf_registered _ Hwf) in Hh.
      rewrite slot_own in Hh by done. eauto.
    - intros [v Hv]. destruct (Hlive _ _ Hv) as (h & res & _ & Hh). eauto. }
  assert (Hsize : size (own (keepAliveTimers s)) = size (own (transports s))).
  { by rewrite <- !size_dom, Hdom. }
  split; [exact Hint|]. split; [|split; [done|split; [lia|]]].
  - intros sid Hplain. rewrite !read_own by done. by rewrite Hint, Hiff.
  - intros Hnone. split; apply map_size_empty_inv.
    + rewrite Hsize, Hnone. apply map_size_empty.
    + rewrite Hcount, Hsize, Hnone. apply map_size_empty.
Qed.

(** Two sessions are established, one is terminated by DELETE and the
    other by its stream closing: nothing is left. *)
Lemma two_sessions_torn_down :
  let s := run [Mcp (GET None "s1" Resolves);
                Mcp (GET (Some "s2") "g" Resolves);
                Tick 0%nat true; Mcp (DELETE (Some "s1")); Close 1%nat]
               (init bare) in
  own (transports s) = ∅ /\ own (keepAliveTimers s) = ∅ /\ intervals s = ∅.
Proof.
  intros s.
  destruct (quiet_timer_binding_parity bare
              [Mcp (GET None "s1" Resolves);
               Mcp (GET (Some "s2") "g" Resolves);
               Tick 0%nat true; Mcp (DELETE (Some "s1")); Close 1%nat])
    as (_ & _ & _ & _ & H); [reflexivity|].
  assert (Hs : own (transports s) = ∅) by (by vm_compute).
  split; [exact Hs | exact (H Hs)].
Defined.

(** C6, as stated, does not hold. For the empty header value, which
    names no binding, the response header carries a freshly generated
    id, not the supplied value. For the header [constructor], under
    which nothing is bound, the lookup finds a member of
    [Object.prototype]; the handler takes it for a transport, the call
    of [handlePostMessage] throws and the answer is 500. *)
Lemma empty_or_inherited_header_is_not_accepted :
  (own (transports (init bare)) !! EmptyString = None /\
   run_value (mcpHandler (POST (Some EmptyString) "fresh-id" accepted))
             (init bare) =
     Responded (mkResponse 202 (Some "fresh-id") BEmpty) /\
   "fresh-id" <> EmptyString) /\
  (own (transports (init bare)) !! "constructor" = None /\
   run_value (mcpHandler (POST (Some "constructor") "fresh-id" accepted))
             (init bare) =
     Responded (mkResponse 500 None (BError "Error processing message"))).
Proof. by vm_compute. Qed.

(** C6, amended: a POST to the unified endpoint whose session id header
    is absent or empty, or names an id under which the lookup
    [transports[id]] finds nothing (no binding, and no property
    inherited under that name), is answered with status 202 and an
    Mcp-Session-Id header, which is a freshly generated id when the
    header is absent or empty and the supplied id otherwise; the
    registry, the timers and every other part of the state are left as
    they were, no interval is set or cleared, nothing is written to a
    stream, and the answer is never the 404 of the session-not-found
    branch. *)
Theorem post_without_binding_is_accepted
    (s : t) (header : option string) (fresh : string)
    (outcome : post_outcome) :
  truthy header = false \/
  read (env s) (transports s) (render header) = None ->
  exists r,
    run_value (mcpHandler (POST header fresh outcome)) s = Responded r /\
    status r = 202 /\
    payload r = BEmpty /\
    (truthy header = false -> mcp_session_id r = Some fresh) /\
    (forall sid, header = Some sid -> sid <> "" ->
                 mcp_session_id r = Some sid) /\
    run_state (mcpHandler (POST header fresh outcome)) s = s /\
    run_effects (mcpHandler (POST header fresh outcome)) s = [] /\
    status r <> 404.
Proof.
  intros Hno.
  exists (mkResponse 202 (Some (or_else header fresh)) BEmpty).
  set (found := bool_decide
                  (is_Some (read (env s) (transports s) (render header)))).
  assert (Hcond : truthy header && found = false).
  { destruct Hno as [->|Hn]; [done|]. unfold found. rewrite Hn.
    rewrite bool_decide_eq_false_2; [|by intros [? ?]].
    apply andb_false_r. }
  assert (Hcond' : negb (truthy header) || negb found = true).
  { apply andb_false_iff in Hcond as [->| ->]; [done | apply orb_true_r]. }
  unfold mcpHandler. msimpl. rewrite post_state, post_effects.
  unfold mcp_post. msimpl. fold found. rewrite Hcond, Hcond'. msimpl.
  repeat split; try done.
  - unfold truthy, or_else. destruct header as [h|]; [|done].
    by destruct (String.eqb h "").
  - intros sid -> Hne. unfold or_else.
    destruct (String.eqb_spec sid ""); [done | done].
Qed.

Lemma unknown_id_post_accepted :
  exists r,
    run_value (mcpHandler (POST (Some "unknown") "fresh-id" accepted))
              (run [Mcp (GET None "s1" Resolves)] (init bare)) = Responded r /\
    status r = 202 /\ mcp_session_id r = Some "unknown".
Proof.
  destruct (post_without_binding_is_accepted
              (run [Mcp (GET None "s1" Resolves)] (init bare))
              (Some "unknown") "fresh-id" accepted)
    as (r & Hr & Hst & _ & _ & Hid & _).
  - right. by vm_compute.
  - exists r. split; [exact Hr|]. split; [exact Hst|].
    apply Hid; [reflexivity | discriminate].
Defined.

Lemma wf_lone_timer : wf lone_timer.
Proof.
  split; simpl.
  - intros h sid res [<- [= <- <-]]%lookup_singleton_Some. done.
  - intros h [x [<- _]%lookup_singleton_Some]. lia.
  - done.
Qed.

(** C7: every state the process reaches keeps each live interval as
    the timer of its session id in [keepAliveTimers]. In every state
    that does so (a reachable one, or one that a caller of
    [setupMcpTransport] produces through the registries it is handed):
    at most one keep-alive interval is live for a session id; starting
    the pinger for an id under which [keepAliveTimers] holds a timer
    clears that timer before the new interval is set, and the new
    interval is then the only live one of the session; and the
    callback of an interval whose lookup [transports[sessionId]] finds
    nothing writes no heartbeat and clears its own interval, which
    never fires again. *)
Theorem keepalive_timer_unique_and_self_cancelling :
  (forall rt es, wf (run es (init rt))) /\
  (forall s, wf s ->
     (forall h1 h2 sid r1 r2,
         intervals s !! h1 = Some (sid, r1) ->
         intervals s !! h2 = Some (sid, r2) -> h1 = h2 /\ r1 = r2) /\
     (forall sid res v,
         read (env s) (keepAliveTimers s) sid = Some v ->
         let s' := run_state (startKeepAlivePinger sid res) s in
         run_effects (startKeepAlivePinger sid res) s =
           [ClearInterval v; SetInterval (next_handle s) sid res] /\
         (forall h, v = VTimeout h -> is_Some (intervals s !! h) ->
                    intervals s' !! h = None) /\
         (forall h r, intervals s' !! h = Some (sid, r) ->
                      h = next_handle s /\ r = res)) /\
     (forall h sid res ok,
         intervals s !! h = Some (sid, res) ->
         read (env s) (transports s) sid = None ->
         run_effects (tick h ok) s =
           [ClearInterval (VTimeout h); DeleteTimer sid] /\
         own (keepAliveTimers (step s (Tick h ok))) !! sid = None /\
         forall es' ok',
           intervals (run es' (step s (Tick h ok))) !! h = None /\
           run_effects (tick h ok') (run es' (step s (Tick h ok))) = [] /\
           step (run es' (step s (Tick h ok))) (Tick h ok') =
             run es' (step s (Tick h ok)))).
Proof.
  split; [intros rt es; apply wf_run, wf_init|].
  intros s Hwf. split; [|split].
  - intros h1 h2 sid r1 r2 H1 H2.
    pose proof (wf_registered _ Hwf _ _ _ H1) as E1.
    pose proof (wf_registered _ Hwf _ _ _ H2) as E2.
    rewrite E1 in E2. inversion E2; subst. rewrite H1 in H2.
    by inversion H2.
  - intros sid res v Hv s'. split; [|split].
    + by rewrite start_effects, Hv.
    + intros h -> Hlive. apply (wf_fresh _ Hwf) in Hlive.
      unfold s'. rewrite start_state. simpl. rewrite Hv. simpl.
      rewrite lookup_insert_ne by lia. apply lookup_delete_eq.
    + intros h r Hh.
      pose proof (wf_start sid res s Hwf) as Hwf'. fold s' in Hwf'.
      pose proof (wf_registered _ Hwf' _ _ _ Hh) as E1.
      assert (intervals s' !! next_handle s = Some (sid, res)) as Hn.
      { unfold s'. rewrite start_state. simpl. apply lookup_insert_eq. }
      pose proof (wf_registered _ Hwf' _ _ _ Hn) as E2.
      rewrite E1 in E2. injection E2 as ->. rewrite Hn in Hh.
      by injection Hh as ->.
  - intros h sid res ok Hh Hno.
    pose proof (read_slot (env s) _ _ _ (wf_registered _ Hwf _ _ _ Hh)) as Ht.
    assert (Hstep : step s (Tick h ok) =
                    run_state (stopKeepAlivePinger sid) s).
    { unfold step, fire. by rewrite tick_state, Hh, Hno. }
    split; [|split].
    + by rewrite tick_effects, Hh, Hno, stop_effects, Ht.
    + rewrite Hstep, (proj1 (stop_own_timers _ _)). apply lookup_delete_eq.
    + intros es' ok'.
      assert (Hgone : intervals (run es' (step s (Tick h ok))) !! h = None).
      { destruct (older_run es' (step s (Tick h ok))) as [_ Hold].
        destruct (intervals (run es' (step s (Tick h ok))) !! h)
          as [x|] eqn:Hx; [|done].
        apply Hold in Hx.
        - rewrite Hstep, stop_state, Ht in Hx. simpl in Hx.
          by rewrite lookup_delete_eq in Hx.
        - rewrite Hstep, stop_state, Ht. simpl.
          apply (wf_fresh _ Hwf). eauto. }
      split; [exact Hgone|]. split.
      * by rewrite tick_effects, Hgone.
      * unfold step at 1. unfold fire. by rewrite tick_state, Hgone.
Qed.

(** The interval of [lone_timer] stops itself at its first tick. *)
Lemma lone_timer_stops_itself :
  run_effects (tick 0%nat true) lone_timer =
    [ClearInterval (VTimeout 0%nat); DeleteTimer "s1"] /\
  own (keepAliveTimers (step lone_timer (Tick 0%nat true))) !! "s1" = None.
Proof.
  destruct (proj2 keepalive_timer_unique_and_self_cancelling
              lone_timer wf_lone_timer) as (_ & _ & H).
  destruct (H 0%nat "s1" 0%nat true) as (He & Ht & _).
  - by vm_compute.
  - by vm_compute.
  - split; [exact He | exact Ht].
Defined.



End TransportClaims.

(** * Further properties of the resource cache *)

Section CachePropertiesMore.
Import CalendarCache.

(** How [fetch] routes a request, whatever the clock and the cache. *)
Lemma cache_fetch_cases rq :
  (exists key, String.eqb (method rq) "GET" = true /\
     forall now now' st,
       fetch rq now now' st =
         (handleGet key (ttl_of_key key) now now' st, st)) \/
  (exists key ttl, String.eqb (method rq) "PUT" = true /\
     forall now now' st, fetch rq now now' st = handlePut key rq ttl now st) \/
  (String.eqb (pathname rq) "/clear" = true /\
   String.eqb (method rq) "DELETE" = true /\
   forall now now' st,
     fetch rq now now' st =
       handleClearCache (or_else (userId_param rq) "default") st) \/
  (forall now now' st, fetch rq now now' st = (not_found, st)).
Proof.
  unfold fetch.
  destruct (String.eqb (method rq) "GET") eqn:?,
           (String.eqb (method rq) "PUT") eqn:?,
           (String.eqb (method rq) "DELETE") eqn:?,
           (String.eqb (pathname rq) "/calendars") eqn:?,
           (startsWith "/events/" (pathname rq)) eqn:?,
           (String.eqb (pathname rq) "/preferences") eqn:?,
           (String.eqb (pathname rq) "/clear") eqn:?;
    cbn [andb];
    first [ match goal with
            | |- context [handleGet ?k _ _ _ _] =>
                left; exists k; split; [done|]; intros; reflexivity
            end
          | by right; left; eexists _, _
          | by right; right; left
          | by right; right; right ].
Qed.

Lemma get_leaves_cache rq now now' st :
  method rq = "GET" -> (fetch rq now now' st).2 = st.
Proof.
  intros Hget.
  destruct (cache_fetch_cases rq)
    as [(key & _ & ->) | [(key & ttl & Hm & _) | [(_ & Hm & _) | ->]]];
    try done; rewrite Hget in Hm; discriminate.
Qed.

(** How [fetch] routes a request when the put it issues may reject. *)
Lemma cache_fetch_with_storage rq put_ok now now' st :
  (String.eqb (method rq) "GET" = true /\
   fetch rq now now' st = ((fetch rq now now' st).1, st) /\
   WithStorage.fetch put_ok rq now now' st =
     (WithStorage.Reply (fetch rq now now' st).1, st)) \/
  (exists key ttl, String.eqb (method rq) "PUT" = true /\
     fetch rq now now' st = handlePut key rq ttl now st /\
     WithStorage.fetch put_ok rq now now' st =
       WithStorage.handlePut put_ok key rq ttl now st) \/
  (String.eqb (pathname rq) "/clear" = true /\
   String.eqb (method rq) "DELETE" = true /\
   fetch rq now now' st =
     handleClearCache (or_else (userId_param rq) "default") st /\
   WithStorage.fetch put_ok rq now now' st =
     WithStorage.handleClearCache put_ok (or_else (userId_param rq) "default") st) \/
  (fetch rq now now' st = (not_found, st) /\
   WithStorage.fetch put_ok rq now now' st = (WithStorage.Reply not_found, st)).
Proof.
  unfold fetch, WithStorage.fetch.
  destruct (String.eqb (method rq) "GET") eqn:?,
           (String.eqb (method rq) "PUT") eqn:?,
           (String.eqb (method rq) "DELETE") eqn:?,
           (String.eqb (pathname rq) "/calendars") eqn:?,
           (startsWith "/events/" (pathname rq)) eqn:?,
           (String.eqb (pathname rq) "/preferences") eqn:?,
           (String.eqb (pathname rq) "/clear") eqn:?;
    cbn [andb];
    first [ by left
          | by right; left; eexists _, _
          | by right; right; left
          | by right; right; right ].
Qed.

(** A PUT and a [DELETE /clear] whose put rejects. *)
Lemma rejected_cache_put rq now now' st :
  (method rq = "PUT" -> status (fetch rq now now' st).1 = 200 ->
   (WithStorage.fetch false rq now now' st).1 =
     WithStorage.Reply (mkResponse 500 None None (BError "Failed to update cache"))) /\
  (method rq = "DELETE" -> pathname rq = "/clear" ->
   (WithStorage.fetch false rq now now' st).1 = WithStorage.Rejected).
Proof.
  split.
  - intros Hput.
    destruct (cache_fetch_with_storage rq false now now' st)
      as [(Hm & _) | [(key & ttl & _ & -> & ->) |
          [(_ & Hm & _) | (-> & _)]]];
      try (apply String.eqb_eq in Hm; rewrite Hput in Hm; discriminate);
      [|done].
    unfold handlePut, WithStorage.handlePut. by destruct (req_json rq).
  - intros Hm Hp. unfold WithStorage.fetch. by rewrite Hm, Hp.
Qed.

(** What a request does when the put it issues may reject, against
    what it does when the put resolves. *)
Lemma cache_fetch_outcomes
    (put_ok : bool) (rq : request) (now now' : Z) (st : t) :
  let out := WithStorage.fetch put_ok rq now now' st in
  let ref := fetch rq now now' st in
  cache out.2 = cache ref.2 /\
  storage out.2 = (if put_ok then storage ref.2 else storage st) /\
  (put_ok = true -> out.1 = WithStorage.Reply ref.1) /\
  (method rq = "GET" -> out = (WithStorage.Reply ref.1, st)) /\
  (forall r, out.1 = WithStorage.Reply r -> status r = 404 -> out.2 = st) /\
  (forall r, out.1 = WithStorage.Reply r -> status r = 500 ->
     out.2 = st /\ req_json rq = None \/
     put_ok = false /\ method rq = "PUT" /\ status ref.1 = 200 /\
     exists key d, req_json rq = Some d /\
                   cache out.2 !! key = Some (mkEntry d now)) /\
  (out.1 = WithStorage.Rejected ->
     put_ok = false /\ method rq = "DELETE" /\ pathname rq = "/clear") /\
  (cache out.2 <> cache st ->
     method rq = "PUT" \/ (method rq = "DELETE" /\ pathname rq = "/clear")) /\
  (forall r, out.1 = WithStorage.Reply r ->
     status r = 200 \/ status r = 404 \/ status r = 500).
Proof.
  intros out ref. unfold out, ref. clear out ref.
  destruct (cache_fetch_with_storage rq put_ok now now' st)
    as [(Hm & Hf & ->) | [(key & ttl & Hm & -> & ->) |
        [(Hp & Hm & -> & ->) | (-> & ->)]]];
    apply String.eqb_eq in Hm || idtac.
  - assert (Hst : status (fetch rq now now' st).1 = 200 \/
                  status (fetch rq now now' st).1 = 404).
    { destruct (cache_fetch_cases rq)
        as [(key & _ & ->) | [(key & ttl & Hm' & _) | [(_ & Hm' & _) | ->]]];
        try (apply String.eqb_eq in Hm'; rewrite Hm in Hm'; discriminate);
        [|by right].
      unfold handleGet. repeat (case_match; simpl); tauto. }
    rewrite Hf. simpl. repeat apply conj; try done.
    + by destruct put_ok.
    + intros r [= <-] Hc. exfalso. lia.
    + intros r [= <-]. tauto.
  - unfold handlePut, WithStorage.handlePut.
    destruct (req_json rq) as [d|] eqn:Hd; simpl.
    + repeat apply conj; try done.
      * by intros ->.
      * rewrite Hm. discriminate.
      * intros r Hr Hc. exfalso. destruct put_ok; injection Hr as <-; done.
      * intros r Hr Hc. right. destruct put_ok; injection Hr as <-; [done|].
        repeat split; try done. exists key, d. split; [done|].
        apply lookup_insert_eq.
      * intros _. by left.
      * intros r Hr. destruct put_ok; injection Hr as <-; simpl; auto.
    + repeat apply conj; try done.
      * by destruct put_ok.
      * intros r [= <-] _. by left.
      * intros r [= <-]. simpl. auto.
  - apply String.eqb_eq in Hp.
    unfold handleClearCache, WithStorage.handleClearCache. simpl.
    repeat apply conj; try done.
    + by intros ->.
    + rewrite Hm. discriminate.
    + intros r Hr Hc. exfalso. destruct put_ok; [|done].
      injection Hr as <-. done.
    + intros r Hr Hc. exfalso. destruct put_ok; [|done].
      injection Hr as <-. done.
    + intros Hr. by destruct put_ok.
    + intros _. by right.
    + intros r Hr. destruct put_ok; [|done]. injection Hr as <-. simpl. auto.
  - simpl. repeat apply conj; try done.
    + by destruct put_ok.
    + by intros r [= <-] Hc.
    + intros r [= <-]. simpl. auto.
Qed.

(** X6: whether [storage.put] resolves changes neither what a request
    does to the cache in memory nor how it is answered when it
    resolves; a put that rejects leaves storage as it was. A GET never
    changes the cache, whether it hits or misses, nor does a request
    answered 404. A PUT whose put rejects is answered 500 although the
    entry is already set in memory, where later GETs find it; a PUT
    whose body does not parse is answered 500 and changes nothing. The
    promise of a [DELETE /clear] whose put rejects is rejected. The
    cache in memory changes only through a PUT or [DELETE /clear], and
    the statuses are 200, 404 and 500. *)
Theorem cache_changes_only_on_put_and_clear
    (put_ok : bool) (rq : request) (now now' : Z) (st : t) :
  let out := WithStorage.fetch put_ok rq now now' st in
  let ref := fetch rq now now' st in
  cache out.2 = cache ref.2 /\
  storage out.2 = (if put_ok then storage ref.2 else storage st) /\
  (put_ok = true -> out.1 = WithStorage.Reply ref.1) /\
  (method rq = "GET" -> out = (WithStorage.Reply ref.1, st)) /\
  (forall r, out.1 = WithStorage.Reply r -> status r = 404 -> out.2 = st) /\
  (forall r, out.1 = WithStorage.Reply r -> status r = 500 ->
     out.2 = st /\ req_json rq = None \/
     put_ok = false /\ method rq = "PUT" /\ status ref.1 = 200 /\
     exists key d, req_json rq = Some d /\
                   cache out.2 !! key = Some (mkEntry d now)) /\
  (out.1 = WithStorage.Rejected ->
     put_ok = false /\ method rq = "DELETE" /\ pathname rq = "/clear") /\
  (cache out.2 <> cache st ->
     method rq = "PUT" \/ (method rq = "DELETE" /\ pathname rq = "/clear")) /\
  (forall r, out.1 = WithStorage.Reply r ->
     status r = 200 \/ status r = 404 \/ status r = 500) /\
  (method rq = "PUT" -> status ref.1 = 200 ->
   (WithStorage.fetch false rq now now' st).1 =
     WithStorage.Reply (mkResponse 500 None None (BError "Failed to update cache"))) /\
  (method rq = "DELETE" -> pathname rq = "/clear" ->
   (WithStorage.fetch false rq now now' st).1 = WithStorage.Rejected).
Proof.
  intros out ref.
  destruct (cache_fetch_outcomes put_ok rq now now' st)
    as (H1 & H2 & H3 & H4 & H5 & H6 & H7 & H8 & H9).
  destruct (rejected_cache_put rq now now' st) as [Hput Hclear].
  repeat apply conj; assumption.
Qed.

Lemma hit_leaves_cache :
  WithStorage.fetch false (get_rq "/calendars" (Some "bob")) 5000 5000 two_owners =
    (WithStorage.Reply (hit (JArr [JStr "home"]) 4000), two_owners).
Proof.
  etransitivity.
  - apply (proj1 (proj2 (proj2 (proj2 (cache_changes_only_on_put_and_clear
             false (get_rq "/calendars" (Some "bob")) 5000 5000 two_owners))))).
    reflexivity.
  - by vm_compute.
Defined.

Lemma serve_gets rqs st :
  Forall (fun r => method r.1.1 = "GET") rqs -> serve rqs st = st.
Proof.
  induction 1 as [|r rqs Hr _ IH]; [done|].
  unfold serve in *. simpl.
  rewrite get_leaves_cache by done. apply IH.
Qed.

(** X7: the expiry window is fixed at the put: however many GETs are
    served in between, an entry put at [t0] is a HIT at [t] exactly when
    [t - t0] is below the TTL of its category, 300000 ms for calendars
    and events and 86400000 ms for preferences. Reading an entry does
    not prolong it. *)
Theorem reads_do_not_prolong
    (st : t) (user : option string) (calendarId : string) (d : json)
    (t0 t0' : Z) (rqs : list (request * Z * Z)) (t t' : Z) :
  Forall (fun r => method r.1.1 = "GET") rqs ->
  (let st1 := (fetch (put_rq "/calendars" user d) t0 t0' st).2 in
   fetch (get_rq "/calendars" user) t t' (serve rqs st1) =
     (if t - t0 <? 300000 then hit d (t' - t0) else miss, st1)) /\
  (let st1 := (fetch (put_rq ("/events/" ++ calendarId) user d) t0 t0' st).2 in
   fetch (get_rq ("/events/" ++ calendarId) user) t t' (serve rqs st1) =
     (if t - t0 <? 300000 then hit d (t' - t0) else miss, st1)) /\
  (let st1 := (fetch (put_rq "/preferences" user d) t0 t0' st).2 in
   fetch (get_rq "/preferences" user) t t' (serve rqs st1) =
     (if t - t0 <? 86400000 then hit d (t' - t0) else miss, st1)).
Proof.
  intros Hg.
  assert (Hshift : forall key path ttl ttl' s,
    handleGet key ttl t t' (handlePut key (put_rq path user d) ttl' t0 s).2 =
    if t - t0 <? ttl then hit d (t' - t0) else miss).
  { intros. replace t with (t0 + (t - t0)) at 1 by lia.
    apply handleGet_after_put. }
  repeat split; intros st1; rewrite serve_gets by done; unfold st1.
  - by rewrite fetch_put_calendars, fetch_get_calendars, Hshift.
  - by rewrite fetch_put_events, fetch_get_events, Hshift.
  - by rewrite fetch_put_preferences, fetch_get_preferences, Hshift.
Qed.

Lemma polled_calendars_still_expire :
  (fetch (get_rq "/calendars" (Some "bob")) 300000 300000
     (serve [(get_rq "/calendars" (Some "bob"), 100000, 100000);
             (get_rq "/calendars" (Some "bob"), 200000, 200000)]
        (fetch (put_rq "/calendars" (Some "bob") JNull) 0 0 (load 0 None)).2)).1 =
  miss.
Proof.
  pose proof (reads_do_not_prolong (load 0 None) (Some "bob") "" JNull 0 0
    [(get_rq "/calendars" (Some "bob"), 100000, 100000);
     (get_rq "/calendars" (Some "bob"), 200000, 200000)] 300000 300000) as H.
  destruct H as (H & _).
  - repeat constructor.
  - cbv zeta in H. rewrite H. reflexivity.
Defined.

(** ** The sweep at load time *)

Lemma cache_sweep_lookup now (m : gmap string CacheEntry) key :
  filter (fun kv => expired now kv.1 kv.2 = false) m !! key =
  after_sweep now key (m !! key).
Proof.
  destruct (m !! key) as [e|] eqn:Hk; simpl.
  - destruct (expired now key e) eqn:He.
    + apply map_lookup_filter_None. right. intros e' He'. simpl.
      rewrite Hk in He'. inversion He'; subst. by rewrite He.
    + apply map_lookup_filter_Some. by split.
  - apply map_lookup_filter_None. by left.
Qed.

Lemma load_lookup now (m : gmap string CacheEntry) key :
  cache (load now (Some m)) !! key = after_sweep now key (m !! key).
Proof.
  unfold load, cleanExpiredEntries. simpl.
  destruct (existsb _ _); simpl; apply cache_sweep_lookup.
Qed.

(** X8: a sweep is not observable through reads: after a cold start at
    [now], every GET served at [now] or later is answered as it would
    have been had the sweep not run. The sweep removes only entries that
    are already misses. *)
Theorem sweep_is_invisible_to_reads
    (rq : request) (m : gmap string CacheEntry)
    (sto : option (gmap string CacheEntry)) (now now2 now2' : Z) :
  method rq = "GET" ->
  now <= now2 ->
  (fetch rq now2 now2' (load now (Some m))).1 =
  (fetch rq now2 now2' (mkCache m sto)).1.
Proof.
  intros Hget Hle.
  destruct (cache_fetch_cases rq)
    as [(key & _ & Hf) | [(key & ttl & Hm & _) | [(_ & Hm & _) | Hf]]].
  - rewrite !Hf. cbn [fst]. unfold handleGet. rewrite load_lookup.
    cbn [cache]. destruct (m !! key) as [e|]; cbn [after_sweep]; [|done].
    unfold expired. fold (ttl_of_key key).
    destruct (Z.ltb_spec (ttl_of_key key) (now - timestamp e)); simpl; [|done].
    by destruct (Z.ltb_spec (now2 - timestamp e) (ttl_of_key key)); [lia|].
  - rewrite Hget in Hm. discriminate.
  - rewrite Hget in Hm. discriminate.
  - by rewrite !Hf.
Qed.

Lemma sweep_keeps_fresh_preferences :
  (fetch (get_rq "/preferences" None) 700000 700000
     (load 650000 (Some {["preferences:default" := mkEntry JNull 0]}))).1 =
  hit JNull 700000.
Proof.
  rewrite (sweep_is_invisible_to_reads (get_rq "/preferences" None)
             {["preferences:default" := mkEntry JNull 0]} None
             650000 700000 700000).
  - by vm_compute.
  - reflexivity.
  - lia.
Defined.

(** X9: the sweep keeps an entry exactly when its age is at most the
    TTL of its key, while a read serves it only when its age is below
    that TTL: an entry whose age equals the TTL survives the sweep and
    is answered as a MISS. *)
Theorem sweep_keeps_entry_at_ttl
    (m : gmap string CacheEntry) (now now' : Z) (key : string)
    (e : CacheEntry) :
  m !! key = Some e ->
  (cache (load now (Some m)) !! key = Some e <->
   now - timestamp e <= ttl_of_key key) /\
  (now - timestamp e = ttl_of_key key ->
   cache (load now (Some m)) !! key = Some e /\
   handleGet key (ttl_of_key key) now now' (load now (Some m)) = miss).
Proof.
  intros Hk.
  assert (Hiff : cache (load now (Some m)) !! key = Some e <->
                 now - timestamp e <= ttl_of_key key).
  { rewrite load_lookup, Hk. simpl. unfold expired. fold (ttl_of_key key).
    destruct (Z.ltb_spec (ttl_of_key key) (now - timestamp e));
      split; try done; lia. }
  split; [done|]. intros Hage.
  assert (Hkept : cache (load now (Some m)) !! key = Some e)
    by (apply Hiff; lia).
  split; [done|]. unfold handleGet. rewrite Hkept.
  by destruct (Z.ltb_spec (now - timestamp e) (ttl_of_key key)); [lia|].
Qed.

Lemma calendars_at_five_minutes :
  cache (load 300000 (Some {["calendars:bob" := mkEntry JNull 0]}))
    !! "calendars:bob" = Some (mkEntry JNull 0) /\
  handleGet "calendars:bob" (ttl_of_key "calendars:bob") 300000 300000
    (load 300000 (Some {["calendars:bob" := mkEntry JNull 0]})) = miss.
Proof.
  apply (sweep_keeps_entry_at_ttl {["calendars:bob" := mkEntry JNull 0]}
           300000 300000 "calendars:bob" (mkEntry JNull 0)).
  - by vm_compute.
  - by vm_compute.
Defined.

(** ** Clearing and isolation *)

Lemma includes_skip needle c hay :
  includes needle hay = true -> includes needle (String c hay) = true.
Proof. intros H. simpl. rewrite H. apply orb_true_r. Qed.

Lemma includes_start needle hay :
  startsWith needle hay = true -> includes needle hay = true.
Proof. intros H. destruct hay; simpl in *; by rewrite H. Qed.

Lemma startsWith_app needle rest : startsWith needle (needle ++ rest) = true.
Proof.
  induction needle as [|a needle IH]; [done|].
  simpl. by rewrite Ascii.eqb_refl, IH.
Qed.

Lemma startsWith_refl needle : startsWith needle needle = true.
Proof.
  induction needle as [|a needle IH]; [done|].
  simpl. by rewrite Ascii.eqb_refl, IH.
Qed.

(** X10: after [DELETE /clear] for an owner, that owner's calendars,
    preferences and events of any calendar are all answered as a MISS,
    until they are put again; entries whose key does not contain
    [:<owner>] are left as they were. *)
Theorem clear_then_every_read_misses
    (st : t) (user : option string) (calendarId : string)
    (now now' t t' : Z) :
  let st' := (fetch (clear_rq user) now now' st).2 in
  (fetch (get_rq "/calendars" user) t t' st').1 = miss /\
  (fetch (get_rq "/preferences" user) t t' st').1 = miss /\
  (fetch (get_rq ("/events/" ++ calendarId) user) t t' st').1 = miss /\
  (forall key, includes (":" ++ or_else user "default") key = false ->
               cache st' !! key = cache st !! key).
Proof.
  intros st'.
  assert (Hst : st' = (handleClearCache (or_else user "default") st).2)
    by reflexivity.
  assert (Hmiss : forall key ttl,
    includes (":" ++ or_else user "default") key = true ->
    handleGet key ttl t t' st' = miss).
  { intros key ttl Hin. unfold handleGet.
    by rewrite Hst, handleClearCache_lookup, Hin. }
  split; [|split; [|split]].
  - rewrite fetch_get_calendars. cbn [fst]. apply Hmiss.
    cbn [append]. do 9 apply includes_skip.
    apply includes_start, startsWith_refl.
  - rewrite fetch_get_preferences. cbn [fst]. apply Hmiss.
    cbn [append]. do 11 apply includes_skip.
    apply includes_start, startsWith_refl.
  - rewrite fetch_get_events. cbn [fst]. apply Hmiss.
    unfold events_key. cbn [append]. do 6 apply includes_skip.
    apply includes_start.
    change (String ":" (or_else user "default" ++ ?x))
      with ((":" ++ or_else user "default") ++ x).
    apply startsWith_app.
  - intros key Hno. by rewrite Hst, handleClearCache_lookup, Hno.
Qed.

Lemma clear_bob_spares_alice :
  let st := (fetch (put_rq "/calendars" (Some "alice") JNull) 5 5 two_owners).2 in
  cache (fetch (clear_rq (Some "bob")) 10 10 st).2 !! "calendars:alice" =
  cache st !! "calendars:alice".
Proof.
  intros st.
  apply (proj2 (proj2 (proj2 (clear_then_every_read_misses st (Some "bob")
           "work" 10 10 20 20)))).
  by vm_compute.
Defined.

(** X11: a put under [/calendars] or [/preferences] for one owner
    changes the answer to no read of another owner's calendars or
    preferences, and to no read of the other category. *)
Theorem put_is_isolated
    (st : t) (a b : option string) (d : json) (t0 t0' t t' : Z) :
  or_else a "default" <> or_else b "default" ->
  (let st1 := (fetch (put_rq "/calendars" a d) t0 t0' st).2 in
   (fetch (get_rq "/calendars" b) t t' st1).1 =
     (fetch (get_rq "/calendars" b) t t' st).1 /\
   forall c, (fetch (get_rq "/preferences" c) t t' st1).1 =
             (fetch (get_rq "/preferences" c) t t' st).1) /\
  (let st1 := (fetch (put_rq "/preferences" a d) t0 t0' st).2 in
   (fetch (get_rq "/preferences" b) t t' st1).1 =
     (fetch (get_rq "/preferences" b) t t' st).1 /\
   forall c, (fetch (get_rq "/calendars" c) t t' st1).1 =
             (fetch (get_rq "/calendars" c) t t' st).1).
Proof.
  intros Hne.
  assert (Hother : forall key key' path ttl ttl',
    key <> key' ->
    handleGet key' ttl t t' (handlePut key (put_rq path a d) ttl' t0 st).2 =
    handleGet key' ttl t t' st).
  { intros key key' path ttl ttl' Hk. unfold handleGet, handlePut. simpl.
    by rewrite lookup_insert_ne. }
  split; intros st1; unfold st1.
  - rewrite fetch_put_calendars. split.
    + rewrite !fetch_get_calendars. cbn [fst]. apply Hother.
      intros H. apply Hne. by apply (inj (String.app "calendars:")) in H.
    + intros c. rewrite !fetch_get_preferences. cbn [fst]. apply Hother.
      discriminate.
  - rewrite fetch_put_preferences. split.
    + rewrite !fetch_get_preferences. cbn [fst]. apply Hother.
      intros H. apply Hne. by apply (inj (String.app "preferences:")) in H.
    + intros c. rewrite !fetch_get_calendars. cbn [fst]. apply Hother.
      discriminate.
Qed.

Lemma bobs_put_leaves_alice :
  let st1 := (fetch (put_rq "/calendars" (Some "bob") JNull) 10 10 two_owners).2 in
  (fetch (get_rq "/calendars" (Some "alice")) 20 20 st1).1 =
  (fetch (get_rq "/calendars" (Some "alice")) 20 20 two_owners).1.
Proof.
  intros st1.
  refine (proj1 (proj1 (put_is_isolated two_owners (Some "bob") (Some "alice")
                          JNull 10 10 20 20 _))).
  discriminate.
Defined.

(** ** Event paths and event keys *)

Lemma append_nil_r (s : string) : s ++ "" = s.
Proof.
  induction s as [|c s IH]; [done|].
  change (String c (s ++ "") = String c s). by rewrite IH.
Qed.

Lemma append_assoc (a b c : string) : (a ++ b) ++ c = a ++ b ++ c.
Proof.
  induction a as [|x a IH]; [done|].
  change (String x ((a ++ b) ++ c) = String x (a ++ b ++ c)). by rewrite IH.
Qed.

Lemma rev_app_append (a b piece : string) :
  String.rev_app a b ++ piece = String.rev_app a (b ++ piece).
Proof. revert b. induction a as [|x a IH]; intros b; [done|]. apply IH. Qed.

Lemma split_go_lacks sep acc piece :
  lacks sep piece = true ->
  split_go sep acc piece = [String.rev acc ++ piece].
Proof.
  revert acc. induction piece as [|c piece IH]; intros acc Hl.
  - cbn [split_go]. by rewrite append_nil_r.
  - cbn [lacks] in Hl. apply andb_prop in Hl as [Hc Hl].
    apply negb_true_iff in Hc. cbn [split_go]. rewrite Hc, IH by done.
    unfold String.rev. by rewrite !rev_app_append.
Qed.

Lemma split_go_sep sep acc piece rest :
  lacks sep piece = true ->
  split_go sep acc (piece ++ String sep rest) =
  (String.rev acc ++ piece) :: split_go sep "" rest.
Proof.
  revert acc. induction piece as [|c piece IH]; intros acc Hl.
  - change ("" ++ String sep rest) with (String sep rest).
    cbn [split_go]. by rewrite Ascii.eqb_refl, append_nil_r.
  - cbn [lacks] in Hl. apply andb_prop in Hl as [Hc Hl].
    apply negb_true_iff in Hc.
    change (String c piece ++ String sep rest)
      with (String c (piece ++ String sep rest)).
    cbn [split_go]. rewrite Hc, IH by done.
    unfold String.rev. by rewrite !rev_app_append.
Qed.

Lemma events_segment calendarId :
  lacks "/" calendarId = true ->
  split "/" ("/events/" ++ calendarId) !! 2%nat = Some calendarId.
Proof.
  intros Hl. unfold split.
  change ("/events/" ++ calendarId)
    with ("" ++ String "/" ("events" ++ String "/" calendarId)).
  by rewrite !split_go_sep, split_go_lacks.
Qed.

Lemma events_segment_more calendarId rest :
  lacks "/" calendarId = true ->
  split "/" ("/events/" ++ calendarId ++ String "/" rest) !! 2%nat =
  Some calendarId.
Proof.
  intros Hl. unfold split.
  change ("/events/" ++ calendarId ++ String "/" rest)
    with ("" ++ String "/" ("events" ++ String "/" (calendarId ++ String "/" rest))).
  by rewrite !split_go_sep.
Qed.

(** X12: the calendar an [/events/...] request addresses is the path
    segment after [/events/], up to the next [/]: its entry is filed
    under [events:<owner>:<segment>], and whatever follows the segment
    in the path is ignored, for reads and for writes. *)
Theorem events_path_uses_one_segment
    (calendarId rest : string) (verb : string) (user : option string)
    (body : option json) (now now' : Z) (st : t) :
  lacks "/" calendarId = true ->
  events_key user calendarId =
    "events:" ++ or_else user "default" ++ ":" ++ calendarId /\
  (fetch (mkRequest verb ("/events/" ++ calendarId ++ String "/" rest) user body)
         now now' st).2 =
  (fetch (mkRequest verb ("/events/" ++ calendarId) user body) now now' st).2 /\
  (fetch (mkRequest verb ("/events/" ++ calendarId ++ String "/" rest) user body)
         now now' st).1 =
  (fetch (mkRequest verb ("/events/" ++ calendarId) user body) now now' st).1.
Proof.
  intros Hl.
  assert (Hkey : events_key user calendarId =
                 "events:" ++ or_else user "default" ++ ":" ++ calendarId).
  { unfold events_key. by rewrite events_segment. }
  split; [done|].
  assert (Heq :
    fetch (mkRequest verb ("/events/" ++ calendarId ++ String "/" rest) user body)
          now now' st =
    fetch (mkRequest verb ("/events/" ++ calendarId) user body) now now' st);
    [|by rewrite Heq].
  unfold fetch.
  cbn [pathname method userId_param append String.eqb Ascii.eqb Bool.eqb
       andb startsWith].
  rewrite events_segment_more, events_segment by done.
  unfold handlePut. cbn [req_json]. reflexivity.
Qed.

Lemma trailing_path_is_ignored :
  (fetch (get_rq "/events/work/2025/05" (Some "bob")) 10 10
     (fetch (put_rq "/events/work" (Some "bob") JNull) 0 0 (load 0 None)).2).1 =
  hit JNull 10.
Proof.
  pose proof (events_path_uses_one_segment "work" "2025/05" "GET" (Some "bob")
                None 10 10
                (fetch (put_rq "/events/work" (Some "bob") JNull) 0 0
                   (load 0 None)).2) as H.
  destruct H as (_ & _ & H); [reflexivity|].
  etransitivity; [exact H | reflexivity].
Defined.

(** X13: event keys do not keep owners apart when ids contain a colon.
    What owner [u:c1] puts for calendar [c2] is filed under the key
    that owner [u] reads for calendar [c1:c2], and is served to that
    owner as a HIT. *)
Theorem events_key_is_shared_across_owners
    (st : t) (u c1 c2 : string) (d : json) (t0 t0' t t' : Z) :
  u <> "" ->
  lacks "/" c1 = true ->
  lacks "/" c2 = true ->
  t - t0 < DEFAULT_TTL ->
  events_key (Some (u ++ ":" ++ c1)) c2 = events_key (Some u) (c1 ++ ":" ++ c2) /\
  (fetch (get_rq ("/events/" ++ c1 ++ ":" ++ c2) (Some u)) t t'
     (fetch (put_rq ("/events/" ++ c2) (Some (u ++ ":" ++ c1)) d) t0 t0' st).2).1 =
  hit d (t' - t0).
Proof.
  intros Hu H1 H2 Hage.
  assert (H12 : lacks "/" (c1 ++ ":" ++ c2) = true).
  { clear -H1 H2. induction c1 as [|c c1 IH]; simpl in *; [done|].
    apply andb_prop in H1 as [Hc H1]. by rewrite Hc, IH. }
  assert (Hkey : events_key (Some (u ++ ":" ++ c1)) c2 =
                 events_key (Some u) (c1 ++ ":" ++ c2)).
  { unfold events_key. rewrite !events_segment by done.
    assert (or_else (Some (u ++ ":" ++ c1)) "default" = u ++ ":" ++ c1) as ->.
    { unfold or_else. destruct (String.eqb_spec (u ++ ":" ++ c1) ""); [|done].
      by destruct u. }
    assert (or_else (Some u) "default" = u) as ->.
    { unfold or_else. by destruct (String.eqb_spec u ""). }
    cbn [render default]. f_equal. by rewrite !append_assoc. }
  split; [done|].
  rewrite fetch_put_events, fetch_get_events. cbn [fst]. rewrite Hkey.
  replace t with (t0 + (t - t0)) at 1 by lia.
  rewrite handleGet_after_put.
  by destruct (Z.ltb_spec (t - t0) DEFAULT_TTL); [|lia].
Qed.

Lemma team_events_served_to_other_owner :
  (fetch (get_rq "/events/eu:work" (Some "team")) 10 10
     (fetch (put_rq "/events/work" (Some "team:eu") (JStr "private")) 0 0
        (load 0 None)).2).1 =
  hit (JStr "private") 10.
Proof.
  apply (events_key_is_shared_across_owners (load 0 None) "team" "eu" "work"
           (JStr "private") 0 0 10 10); try reflexivity.
  discriminate.
Defined.

End CachePropertiesMore.

(** * Further properties of the session store *)

Section SessionStoreProperties.
Import SessionStore.

Lemma store_fetch_cases rq f now st :
  fetch rq f now st = handleCreateSession rq f now st \/
  fetch rq f now st = handleGetSession rq now st \/
  fetch rq f now st = handleUpdateSession rq now st \/
  fetch rq f now st = handleDeleteSession rq st \/
  fetch rq f now st = (not_found, st).
Proof.
  unfold fetch.
  repeat match goal with
         | |- context [if ?b then _ else _] => destruct b
         end; tauto.
Qed.

Lemma store_fetch_outcome rq f now st : outcome st (fetch rq f now st).
Proof.
  destruct (store_fetch_cases rq f now st) as [-> | [-> | [-> | [-> | ->]]]].
  - unfold handleCreateSession. destruct (req_json rq).
    + apply out_store.
    + by apply out_error.
  - unfold handleGetSession. destruct (truthy _); simpl.
    + destruct (sessions st !! _); [apply out_store | by apply out_error].
    + by apply out_error.
  - unfold handleUpdateSession. destruct (req_json rq) as [b|].
    + destruct (truthy _); simpl.
      * destruct (sessions st !! _); [apply out_store | by apply out_error].
      * by apply out_error.
    + by apply out_error.
  - unfold handleDeleteSession. destruct (truthy _); simpl.
    + destruct (sessions st !! _); [apply out_remove | apply out_absent].
    + by apply out_error.
  - by apply out_error.
Qed.

(** What a request does when the put it issues may reject, against
    what it does when the put resolves. *)
Lemma fetch_with_storage put_ok rq f now st :
  (WithStorage.fetch put_ok rq f now st =
     (WithStorage.Reply (fetch rq f now st).1, st) /\
   (fetch rq f now st).2 = st /\
   (status (fetch rq f now st).1 <> 200 \/
    (fetch rq f now st).1 = mkResponse 200 (BSuccess false))) \/
  (exists m late,
     (fetch rq f now st).2 = persist m st /\
     status (fetch rq f now st).1 = 200 /\
     WithStorage.fetch put_ok rq f now st =
       (if put_ok then WithStorage.Reply (fetch rq f now st).1 else late,
        WithStorage.put put_ok m st) /\
     (late = WithStorage.Rejected /\
      (fetch rq f now st).1 = mkResponse 200 (BSuccess true) \/
      late = WithStorage.Reply (fetch rq f now st).1 \/
      exists msg, late = WithStorage.Reply (mkResponse 500 (BError msg)))).
Proof.
  unfold fetch, WithStorage.fetch.
  destruct (String.eqb (pathname rq) "/create" && String.eqb (method rq) "POST").
  { unfold handleCreateSession, WithStorage.handleCreateSession.
    destruct (req_json rq) as [b|]; simpl; [|left; split; [done|]; auto].
    right.
    eexists _, (WithStorage.Reply
                  (mkResponse 500 (BError "Failed to create session"))).
    split; [done|]. split; [done|]. split; [by destruct put_ok|].
    right; right. eauto. }
  destruct (String.eqb (pathname rq) "/get" && String.eqb (method rq) "GET").
  { unfold handleGetSession, WithStorage.handleGetSession.
    destruct (truthy _); simpl; [|left; split; [done|]; auto].
    destruct (sessions st !! _); simpl; [|left; split; [done|]; auto].
    right. eexists _, (WithStorage.Reply _). split; [done|]. split; [done|].
    split; [by destruct put_ok|]. right; left. done. }
  destruct (String.eqb (pathname rq) "/update" && String.eqb (method rq) "POST").
  { unfold handleUpdateSession, WithStorage.handleUpdateSession.
    destruct (req_json rq) as [b|]; simpl; [|left; split; [done|]; auto].
    destruct (truthy _); simpl; [|left; split; [done|]; auto].
    destruct (sessions st !! _); simpl; [|left; split; [done|]; auto].
    right.
    eexists _, (WithStorage.Reply
                  (mkResponse 500 (BError "Failed to update session"))).
    split; [done|]. split; [done|]. split; [by destruct put_ok|].
    right; right. eauto. }
  destruct (String.eqb (pathname rq) "/delete" && String.eqb (method rq) "DELETE").
  { unfold handleDeleteSession, WithStorage.handleDeleteSession.
    destruct (truthy _); simpl; [|left; split; [done|]; auto].
    destruct (sessions st !! _); simpl; [|left; split; [done|]; auto].
    right. eexists _, WithStorage.Rejected.
    split; [done|]. split; [done|]. split; [by destruct put_ok|].
    left. done. }
  left. split; [done|]. split; [done|]. left. done.
Qed.

(** The four requests that issue a put, when the put rejects. *)
Lemma rejected_put_examples f now st :
  (forall user d,
     WithStorage.fetch false (create_rq user d) f now st =
       (WithStorage.Reply (mkResponse 500 (BError "Failed to create session")),
        mkStore (<[f := mkSession f now now user (default ∅ d)]> (sessions st))
                (storage st) (S (puts st)))) /\
  (forall sid s d,
     sid <> "" -> sessions st !! sid = Some s ->
     WithStorage.fetch false (update_rq sid d) f now st =
       (WithStorage.Reply (mkResponse 500 (BError "Failed to update session")),
        mkStore (<[sid := mkSession (id s) (createdAt s) now (userId s)
                            (d ∪ data s)]> (sessions st))
                (storage st) (S (puts st))) /\
     WithStorage.fetch false (get_rq sid) f now st =
       (WithStorage.Reply (mkResponse 200 (BSession (touch now s))),
        mkStore (<[sid := touch now s]> (sessions st))
                (storage st) (S (puts st))) /\
     WithStorage.fetch false (delete_rq sid) f now st =
       (WithStorage.Rejected,
        mkStore (delete sid (sessions st)) (storage st) (S (puts st)))).
Proof.
  split; [reflexivity|]. intros sid s d Hne Hs.
  assert (He : String.eqb sid "" = false) by (by apply String.eqb_neq).
  repeat apply conj.
  - change (WithStorage.fetch false (update_rq sid d) f now st)
      with (WithStorage.handleUpdateSession false (update_rq sid d) now st).
    unfold WithStorage.handleUpdateSession, update_rq. simpl.
    by rewrite He, Hs.
  - change (WithStorage.fetch false (get_rq sid) f now st)
      with (WithStorage.handleGetSession false (get_rq sid) now st).
    unfold WithStorage.handleGetSession, get_rq. simpl.
    by rewrite He, Hs.
  - change (WithStorage.fetch false (delete_rq sid) f now st)
      with (WithStorage.handleDeleteSession false (delete_rq sid) st).
    unfold WithStorage.handleDeleteSession, delete_rq. simpl.
    by rewrite He, Hs.
Qed.

(** X1: whether [storage.put] resolves changes neither what a request
    does to the sessions in memory nor whether it issues a put; a put
    that rejects leaves storage as it was. When the put resolves the
    request is answered as above. When it rejects, [create] and
    [update] answer 500 although the record is already created or
    changed in memory, [get] still answers 200, and the promise of
    [delete] rejects. A request answered 400 or 404 changes nothing,
    and the only statuses are 200, 400, 404 and 500. *)
Theorem rejected_put_changes_memory_only
    (put_ok : bool) (rq : request) (f : string) (now : Z) (st : t) :
  let out := WithStorage.fetch put_ok rq f now st in
  let ref := fetch rq f now st in
  sessions out.2 = sessions ref.2 /\
  puts out.2 = puts ref.2 /\
  storage out.2 = (if put_ok then storage ref.2 else storage st) /\
  (put_ok = true -> out.1 = WithStorage.Reply ref.1) /\
  (forall r, out.1 = WithStorage.Reply r ->
     status r = 400 \/ status r = 404 -> out.2 = st) /\
  (forall r, out.1 = WithStorage.Reply r -> status r = 500 ->
     out.2 = st \/
     put_ok = false /\ status ref.1 = 200 /\ puts out.2 = S (puts st)) /\
  (out.1 = WithStorage.Rejected ->
     put_ok = false /\ ref.1 = mkResponse 200 (BSuccess true)) /\
  (forall r, out.1 = WithStorage.Reply r ->
     status r = 200 \/ status r = 400 \/ status r = 404 \/ status r = 500) /\
  (forall user d,
     WithStorage.fetch false (create_rq user d) f now st =
       (WithStorage.Reply (mkResponse 500 (BError "Failed to create session")),
        mkStore (<[f := mkSession f now now user (default ∅ d)]> (sessions st))
                (storage st) (S (puts st)))) /\
  (forall sid s d,
     sid <> "" -> sessions st !! sid = Some s ->
     WithStorage.fetch false (update_rq sid d) f now st =
       (WithStorage.Reply (mkResponse 500 (BError "Failed to update session")),
        mkStore (<[sid := mkSession (id s) (createdAt s) now (userId s)
                            (d ∪ data s)]> (sessions st))
                (storage st) (S (puts st))) /\
     WithStorage.fetch false (get_rq sid) f now st =
       (WithStorage.Reply (mkResponse 200 (BSession (touch now s))),
        mkStore (<[sid := touch now s]> (sessions st))
                (storage st) (S (puts st))) /\
     WithStorage.fetch false (delete_rq sid) f now st =
       (WithStorage.Rejected,
        mkStore (delete sid (sessions st)) (storage st) (S (puts st)))).
Proof.
  intros out ref. unfold out, ref. clear out ref.
  destruct (rejected_put_examples f now st) as [Hcreate Hrest].
  assert (Hst : forall r, r = (fetch rq f now st).1 ->
            status r = 200 \/ status r = 400 \/ status r = 404 \/ status r = 500).
  { intros r ->.
    destruct (store_fetch_cases rq f now st) as [-> | [-> | [-> | [-> | ->]]]];
      unfold handleCreateSession, handleGetSession, handleUpdateSession,
        handleDeleteSession, not_found;
      repeat (case_match; simpl); tauto. }
  destruct (fetch_with_storage put_ok rq f now st)
    as [(-> & Hsame & Hcode) | (m & late & Hm & H200 & -> & Hlate)].
  - rewrite Hsame. simpl. repeat apply conj; try done.
    + by destruct put_ok.
    + intros r [= <-] _. by left.
    + intros r [= <-]. by apply Hst.
  - rewrite Hm. simpl. repeat apply conj; try done.
    + by intros ->.
    + intros r Hr Hcode. exfalso. destruct put_ok.
      * injection Hr as <-. lia.
      * destruct Hlate as [[-> _] | [-> | [msg ->]]]; try done;
          injection Hr as <-; simpl in Hcode; lia.
    + intros r Hr Hcode. right. destruct put_ok; [|done].
      injection Hr as <-. lia.
    + intros Hr. destruct put_ok; [done|].
      destruct Hlate as [[_ ?] | [-> | [msg ->]]]; done.
    + intros r Hr. destruct put_ok.
      * injection Hr as <-. by left.
      * destruct Hlate as [[-> _] | [-> | [msg ->]]]; try done;
          injection Hr as <-; simpl; auto.
Qed.

(** A [create] whose put rejects is answered 500, and the new session
    is in memory. *)
Lemma create_with_rejected_put :
  let out := WithStorage.fetch false (create_rq None None) "S1" 10
               (load 0 None 0%nat) in
  out.1 = WithStorage.Reply (mkResponse 500 (BError "Failed to create session")) /\
  is_Some (sessions out.2 !! "S1") /\
  (out.2 = load 0 None 0%nat \/
   false = false /\
   status (fetch (create_rq None None) "S1" 10 (load 0 None 0%nat)).1 = 200 /\
   puts out.2 = 1%nat).
Proof.
  intros out. split; [reflexivity|]. split; [by eexists|].
  apply (proj1 (proj2 (proj2 (proj2 (proj2 (proj2
           (rejected_put_changes_memory_only false (create_rq None None)
              "S1" 10 (load 0 None 0%nat))))))))
    with (r := mkResponse 500 (BError "Failed to create session"));
    reflexivity.
Defined.

(** X2: a request reads and writes one record only, the one filed under
    the id it names: every other record is left as it was. *)
Theorem fetch_touches_only_target
    (rq : request) (f : string) (now : Z) (st : t) (k : string) :
  k <> target rq f ->
  sessions (fetch rq f now st).2 !! k = sessions st !! k.
Proof.
  intros Hk. unfold fetch, target in *.
  destruct (String.eqb (pathname rq) "/create" && String.eqb (method rq) "POST").
  { unfold handleCreateSession. destruct (req_json rq); [|done].
    simpl. by rewrite lookup_insert_ne. }
  destruct (String.eqb (pathname rq) "/get" && String.eqb (method rq) "GET")
    eqn:Hget.
  { assert (String.eqb (pathname rq) "/update" = false) as Hu.
    { apply andb_prop in Hget as [Hp _]. apply String.eqb_eq in Hp.
      by rewrite Hp. }
    rewrite Hu in Hk. simpl in Hk.
    unfold handleGetSession. destruct (truthy _); [|done]. simpl.
    destruct (sessions st !! _); [|done]. simpl. by rewrite lookup_insert_ne. }
  destruct (String.eqb (pathname rq) "/update" && String.eqb (method rq) "POST").
  { unfold handleUpdateSession. destruct (req_json rq) as [b|]; [|done].
    destruct (truthy _); [|done]. simpl.
    destruct (sessions st !! _); [|done]. simpl. by rewrite lookup_insert_ne. }
  destruct (String.eqb (pathname rq) "/delete" && String.eqb (method rq) "DELETE").
  { unfold handleDeleteSession. destruct (truthy _); [|done]. simpl.
    destruct (sessions st !! _); [|done]. simpl. by rewrite lookup_delete_ne. }
  done.
Qed.

Lemma delete_spares_other_session :
  let st := (fetch (create_rq None None) "S2" 20
               (fetch (create_rq None None) "S1" 10 (load 0 None 0%nat)).2).2 in
  sessions (fetch (delete_rq "S1") "" 30 st).2 !! "S2" = sessions st !! "S2".
Proof.
  intros st. apply fetch_touches_only_target. by vm_compute.
Defined.

(** ** Memory and storage *)

Lemma sweep_lookup now (m : gmap string SessionData) k :
  filter (fun kv => expired now kv.2 = false) m !! k = after_sweep now (m !! k).
Proof.
  destruct (m !! k) as [s|] eqn:Hk; simpl.
  - destruct (expired now s) eqn:He.
    + apply map_lookup_filter_None. right. intros s' Hs'. simpl.
      rewrite Hk in Hs'. inversion Hs'; subst. by rewrite He.
    + apply map_lookup_filter_Some. by split.
  - apply map_lookup_filter_None. by left.
Qed.

Lemma sweep_unchanged now (m : gmap string SessionData) :
  existsb (fun kv => expired now kv.2) (map_to_list m) = false ->
  filter (fun kv => expired now kv.2 = false) m = m.
Proof.
  intros Hno. apply map_filter_id. intros k s Hk. simpl.
  destruct (expired now s) eqn:He; [|done].
  assert (existsb (fun kv => expired now kv.2) (map_to_list m) = true) as Hex.
  { apply existsb_exists. exists (k, s). split; [|done].
    apply list_elem_of_In. by apply elem_of_map_to_list. }
  congruence.
Qed.

Lemma sweep_changed now (m : gmap string SessionData) :
  existsb (fun kv => expired now kv.2) (map_to_list m) = true <->
  exists k s, m !! k = Some s /\ SESSION_TTL < now - updatedAt s.
Proof.
  rewrite existsb_exists. split.
  - intros ([k s] & Hin & He). exists k, s. split.
    + apply elem_of_map_to_list. by apply list_elem_of_In.
    + by apply Z.ltb_lt.
  - intros (k & s & Hk & He). exists (k, s). split.
    + apply list_elem_of_In. by apply elem_of_map_to_list.
    + by apply Z.ltb_lt.
Qed.

Lemma persisted_load now stored w : persisted (load now stored w).
Proof.
  unfold load, persisted. destruct stored as [m|]; [|done].
  unfold cleanExpiredSessions. simpl.
  destruct (existsb _ _) eqn:Hex; simpl; [done|].
  by apply sweep_unchanged.
Qed.

Lemma persisted_exec now o st : persisted st -> persisted (exec now o st).
Proof.
  intros Hp. destruct o as [rq f|]; simpl.
  - by destruct (store_fetch_outcome rq f now st).
  - apply persisted_load.
Qed.

Lemma persisted_run trace st : persisted st -> persisted (run trace st).
Proof.
  revert st. induction trace as [|[now o] trace IH]; intros st Hp; [done|].
  unfold run. simpl. apply IH. by apply persisted_exec.
Qed.

Lemma with_storage_load now stored w :
  WithStorage.load true now stored w = load now stored w /\
  forall put_ok k,
    sessions (WithStorage.load put_ok now stored w) !! k =
    after_sweep now (default ∅ stored !! k).
Proof.
  unfold WithStorage.load, load. destruct stored as [m|]; [|done].
  unfold WithStorage.cleanExpiredSessions, cleanExpiredSessions. simpl.
  split; [done|]. intros put_ok k.
  destruct (existsb _ _); simpl; apply sweep_lookup.
Qed.

Lemma with_storage_run trace st :
  WithStorage.resolved trace = true ->
  WithStorage.run trace st = run ((fun ev => (ev.1, forget ev.2)) <$> trace) st.
Proof.
  revert st. induction trace as [|[now o] trace IH]; intros st Hr; [done|].
  unfold WithStorage.resolved in Hr. simpl in Hr.
  apply andb_true_iff in Hr as [Ho Hr].
  unfold WithStorage.run, run. simpl.
  assert (WithStorage.exec now o st = exec now (forget o) st) as ->.
  { destruct o as [rq f ok|ok]; simpl in *; subst ok.
    - destruct (fetch_with_storage true rq f now st)
        as [(-> & -> & _) | (m & late & -> & _ & -> & _)]; done.
    - unfold WithStorage.restart, restart.
      apply with_storage_load. }
  by apply IH.
Qed.

(** X3: a cold start restores exactly the records of storage that are
    not expired. As long as every [storage.put] has resolved, memory
    holds exactly what storage holds, so a cold start brings back
    every record of memory that is not expired, unchanged, and drops
    exactly the records with [now - updatedAt > SESSION_TTL]. What a
    request did to memory while its put rejected is lost by a cold
    start; and a later request whose put resolves writes the whole map,
    which brings storage level with memory again. *)
Theorem cold_start_restores_what_storage_holds
    (t0 : Z) (stored : option (gmap string SessionData)) (w : nat)
    (trace : list (Z * WithStorage.op)) (now : Z) (ok : bool) (k : string) :
  let st := WithStorage.run trace (load t0 stored w) in
  sessions (WithStorage.restart ok now st) !! k =
    after_sweep now (default ∅ (storage st) !! k) /\
  (WithStorage.resolved trace = true ->
     persisted st /\
     sessions (WithStorage.restart ok now st) !! k =
       after_sweep now (sessions st !! k) /\
     (forall s, sessions st !! k = Some s ->
                now - updatedAt s <= SESSION_TTL ->
                sessions (WithStorage.restart ok now st) !! k = Some s)) /\
  (forall rq f now1,
     let st1 := (WithStorage.fetch false rq f now1 st).2 in
     storage st1 = storage st /\
     sessions (WithStorage.restart ok now st1) !! k =
       sessions (WithStorage.restart ok now st) !! k) /\
  (forall rq f now1,
     let st1 := (WithStorage.fetch true rq f now1 st).2 in
     puts st1 = S (puts st) -> persisted st1).
Proof.
  intros st.
  assert (Hcold : forall st', sessions (WithStorage.restart ok now st') !! k =
                              after_sweep now (default ∅ (storage st') !! k)).
  { intros st'. apply with_storage_load. }
  split; [apply Hcold|]. split; [|split].
  - intros Hres.
    assert (Hp : persisted st).
    { unfold st. rewrite with_storage_run by done.
      apply persisted_run, persisted_load. }
    split; [done|].
    assert (Hk : sessions (WithStorage.restart ok now st) !! k =
                 after_sweep now (sessions st !! k)).
    { rewrite Hcold. unfold persisted in Hp. by rewrite Hp. }
    split; [done|].
    intros s Hs Hle. rewrite Hk, Hs. simpl. unfold expired.
    by destruct (Z.ltb_spec SESSION_TTL (now - updatedAt s)); [lia|].
  - intros rq f now1 st1.
    assert (Hs : storage st1 = storage st).
    { unfold st1.
      destruct (fetch_with_storage false rq f now1 st)
        as [(-> & _) | (m & late & _ & _ & -> & _)]; done. }
    split; [done|]. by rewrite !Hcold, Hs.
  - intros rq f now1 st1. unfold st1.
    destruct (fetch_with_storage true rq f now1 st)
      as [(-> & _) | (m & late & _ & _ & -> & _)]; simpl; [lia|].
    intros _. done.
Qed.

Lemma cold_start_restores_fresh_session :
  let st := WithStorage.run
              [(1000, WithStorage.Request (create_rq (Some "alice") None) "S1" true)]
              (load 0 None 0%nat) in
  sessions (WithStorage.restart true 2000 st) !! "S1" =
    Some (mkSession "S1" 1000 1000 (Some "alice") ∅).
Proof.
  intros st.
  destruct (proj1 (proj2 (cold_start_restores_what_storage_holds 0 None 0%nat
    [(1000, WithStorage.Request (create_rq (Some "alice") None) "S1" true)]
    2000 true "S1")) eq_refl) as (_ & _ & H).
  apply H.
  - by vm_compute.
  - by vm_compute.
Defined.

(** X4: the sweep at load time keeps a record exactly when
    [now - updatedAt <= SESSION_TTL], so a session idle for exactly one
    hour is kept; it writes to storage once if it removed a record and
    not at all otherwise; and a second load at the same instant finds
    nothing more to remove. *)
Theorem load_sweep_is_exact
    (now : Z) (m : gmap string SessionData) (w : nat) :
  let st := load now (Some m) w in
  (forall k, sessions st !! k = after_sweep now (m !! k)) /\
  (forall k s, m !! k = Some s -> now - updatedAt s = SESSION_TTL ->
               sessions st !! k = Some s) /\
  ((exists k s, m !! k = Some s /\ SESSION_TTL < now - updatedAt s) ->
   puts st = S w /\ storage st = Some (sessions st)) /\
  ((forall k s, m !! k = Some s -> now - updatedAt s <= SESSION_TTL) ->
   st = mkStore m (Some m) w) /\
  restart now st = mkStore (sessions st) (storage st) (puts st).
Proof.
  intros st.
  assert (Hl : forall k, sessions st !! k = after_sweep now (m !! k)).
  { intros k. unfold st, load, cleanExpiredSessions. simpl.
    destruct (existsb _ _); simpl; apply sweep_lookup. }
  split; [done|]. split; [|split; [|split]].
  - intros k s Hk Hage. rewrite Hl, Hk. simpl. unfold expired.
    by destruct (Z.ltb_spec SESSION_TTL (now - updatedAt s)); [lia|].
  - intros Hex. apply sweep_changed in Hex.
    unfold st, load, cleanExpiredSessions. simpl. by rewrite Hex.
  - intros Hall.
    assert (Hno : existsb (fun kv => expired now kv.2) (map_to_list m) = false).
    { destruct (existsb _ _) eqn:Hex; [|done].
      apply sweep_changed in Hex as (k & s & Hk & Hlt).
      specialize (Hall _ _ Hk). lia. }
    unfold st, load, cleanExpiredSessions. simpl. rewrite Hno.
    by rewrite sweep_unchanged.
  - assert (Hp : persisted st) by apply persisted_load.
    assert (Hs : storage st = Some (sessions st)).
    { unfold st, load, cleanExpiredSessions in *. simpl in *.
      destruct (existsb _ _) eqn:Hex; simpl in *; [done|].
      by rewrite sweep_unchanged. }
    unfold restart. rewrite Hs. unfold load, cleanExpiredSessions. simpl.
    assert (Hno : existsb (fun kv => expired now kv.2)
                    (map_to_list (sessions st)) = false).
    { destruct (existsb _ _) eqn:Hex; [|done].
      apply sweep_changed in Hex as (k & s & Hk & Hlt).
      rewrite Hl in Hk. destruct (m !! k) as [s'|]; simpl in Hk; [|done].
      destruct (expired now s') eqn:He; [done|].
      inversion Hk; subst. unfold expired in He. apply Z.ltb_ge in He. lia. }
    rewrite Hno. by rewrite sweep_unchanged.
Qed.

Lemma hour_old_session_is_kept :
  let s := mkSession "S1" 0 1000 None ∅ in
  sessions (load 3601000 (Some {["S1" := s]}) 0%nat) !! "S1" = Some s.
Proof.
  intros s.
  apply (proj1 (proj2 (load_sweep_is_exact 3601000 {["S1" := s]} 0%nat))).
  - by vm_compute.
  - by vm_compute.
Defined.

(** ** Records of a store that started empty *)

Lemma consistent_later now now' st :
  now <= now' -> consistent now st -> consistent now' st.
Proof.
  intros Hle Hc k s Hk. destruct (Hc k s Hk) as (? & ? & ?).
  repeat split; try done. lia.
Qed.

Lemma consistent_insert now k s st :
  id s = k -> createdAt s <= updatedAt s -> updatedAt s <= now ->
  consistent now st ->
  consistent now (persist (<[k := s]> (sessions st)) st).
Proof.
  intros Hid Hc Hu Hst k' s'. simpl. rewrite lookup_insert_Some.
  intros [[<- <-]|[_ Hk]]; [done | by apply Hst].
Qed.

Lemma consistent_exec t0 now o st :
  t0 <= now -> persisted st -> consistent t0 st ->
  consistent now (exec now o st).
Proof.
  intros Hle Hp Hc. apply (consistent_later _ _ _ Hle) in Hc.
  destruct o as [rq f|]; simpl.
  - destruct (store_fetch_cases rq f now st) as [-> | [-> | [-> | [-> | ->]]]].
    + unfold handleCreateSession. destruct (req_json rq); [|done].
      simpl. apply consistent_insert; simpl; done || lia.
    + unfold handleGetSession. destruct (truthy _); [|done]. simpl.
      destruct (sessions st !! _) as [s|] eqn:Hs; [|done]. simpl.
      destruct (Hc _ _ Hs) as (Hid & Hcu & Hu).
      apply consistent_insert; simpl; done || lia.
    + unfold handleUpdateSession. destruct (req_json rq) as [b|]; [|done].
      destruct (truthy _); [|done]. simpl.
      destruct (sessions st !! _) as [s|] eqn:Hs; [|done]. simpl.
      destruct (Hc _ _ Hs) as (Hid & Hcu & Hu).
      apply consistent_insert; simpl; done || lia.
    + unfold handleDeleteSession. destruct (truthy _); [|done]. simpl.
      destruct (sessions st !! _); [|done]. simpl.
      intros k' s'. simpl. rewrite lookup_delete_Some. intros [_ Hk].
      by apply Hc.
    + done.
  - intros k s Hk. apply Hc.
    unfold restart, load in Hk. unfold persisted in Hp. rewrite Hp.
    destruct (storage st) as [m|]; simpl in *.
    + unfold cleanExpiredSessions in Hk. simpl in Hk.
      assert (after_sweep now (m !! k) = Some s) as Hs.
      { destruct (existsb _ _); simpl in Hk; by rewrite <- sweep_lookup. }
      destruct (m !! k) as [s'|]; simpl in Hs; [|done].
      by destruct (expired now s').
    + by rewrite lookup_empty in Hk.
Qed.

Lemma consistent_run trace : forall t0 st,
  monotone t0 trace = true -> persisted st -> consistent t0 st ->
  consistent (last_reading t0 trace) (run trace st).
Proof.
  induction trace as [|[now o] trace IH]; intros t0 st Hm Hp Hc; [done|].
  simpl in Hm. apply andb_prop in Hm as [Hle Hm]. apply Z.leb_le in Hle.
  unfold run, last_reading. simpl.
  apply (IH now (exec now o st)); [done | by apply persisted_exec |].
  by eapply consistent_exec.
Qed.

(** X5: in a store that started empty and whose clock never ran
    backwards, every record is filed under its own id and has
    [createdAt <= updatedAt <= the latest clock reading]; so a [get] that
    finds a record returns one whose id is the id asked for. *)
Theorem records_stay_consistent
    (t0 : Z) (w : nat) (trace : list (Z * op)) :
  monotone t0 trace = true ->
  let st := run trace (load t0 None w) in
  consistent (last_reading t0 trace) st /\
  (forall sid f now s,
      (fetch (get_rq sid) f now st).1 = mkResponse 200 (BSession s) ->
      id s = sid /\ updatedAt s = now).
Proof.
  intros Hm st.
  assert (Hc : consistent (last_reading t0 trace) st).
  { apply consistent_run; [done | apply persisted_load |].
    intros k s. simpl. by rewrite lookup_empty. }
  split; [done|]. intros sid f now s.
  change (fetch (get_rq sid) f now st) with (handleGetSession (get_rq sid) now st).
  unfold handleGetSession. cbn [id_param get_rq render default].
  destruct (truthy (Some sid)); simpl; [|discriminate].
  destruct (sessions st !! sid) as [s'|] eqn:Hs; simpl; [|discriminate].
  intros [= <-]. destruct (Hc _ _ Hs) as (Hid & _). by simpl.
Qed.

Lemma busy_store_is_consistent :
  consistent 6200000
    (run busy_trace
       (run [(0, Request (create_rq (Some "alice") None) "S1")]
            (load 0 None 0%nat))).
Proof.
  pose proof (records_stay_consistent 0 0%nat
    ((0, Request (create_rq (Some "alice") None) "S1") :: busy_trace)) as H.
  apply H. by vm_compute.
Defined.

End SessionStoreProperties.

(** * Further properties of the transport registry and the handlers *)

Section TransportPropertiesMore.
Import Transport TransportFacts.

(** ** [cleanupAllResources] *)

Lemma forEach_cons {A} (a : A) l (f : A -> M unit) s :
  run_state (forEach (a :: l) f) s = run_state (forEach l f) (run_state (f a) s).
Proof. unfold forEach. simpl. by rewrite run_state_bind. Qed.

Lemma delete_property_id o key :
  own o !! key = None -> delete_property o key = o.
Proof.
  intros H. unfold delete_property. rewrite delete_id by done. by destruct o.
Qed.

Lemma read_None_own rt o key : read rt o key = None -> own o !! key = None.
Proof. unfold read. by destruct (own o !! key). Qed.

Lemma clear_and_delete_state sid s :
  run_state (clearTimerOf sid ;;; deleteTimer sid) s =
  run_state (stopKeepAlivePinger sid) s.
Proof.
  rewrite stop_state. unfold clearTimerOf. msimpl.
  destruct (read (env s) (keepAliveTimers s) sid) eqn:Ht; msimpl; [done|].
  rewrite delete_property_id by (by eapply read_None_own). by destruct s.
Qed.

Lemma stop_rest sid s :
  let s' := run_state (stopKeepAlivePinger sid) s in
  own (keepAliveTimers s') = delete sid (own (keepAliveTimers s)) /\
  proto (keepAliveTimers s') = proto (keepAliveTimers s) /\
  transports s' = transports s /\ on_close s' = on_close s /\
  next_stream s' = next_stream s /\ env s' = env s.
Proof.
  intros s'. destruct (stop_own_timers sid s) as [H1 H2].
  destruct (stop_transports sid s) as (H3 & H4 & H5 & H6). done.
Qed.

Lemma forEach_stop ks : forall s,
  let s' := run_state (forEach ks (fun sessionId =>
               clearTimerOf sessionId ;;; deleteTimer sessionId)) s in
  own (keepAliveTimers s') =
    foldl (fun m k => delete k m) (own (keepAliveTimers s)) ks /\
  proto (keepAliveTimers s') = proto (keepAliveTimers s) /\
  transports s' = transports s /\
  on_close s' = on_close s /\ next_stream s' = next_stream s /\
  env s' = env s /\
  (wf s -> wf s').
Proof.
  induction ks as [|k ks IH]; intros s; [cbn; by repeat apply conj|].
  cbv zeta. rewrite forEach_cons, clear_and_delete_state.
  destruct (IH (run_state (stopKeepAlivePinger k) s))
    as (H1 & H2 & H3 & H4 & H5 & H6 & H7).
  destruct (stop_rest k s) as (E1 & E2 & E3 & E4 & E5 & E6).
  rewrite H1, H2, H3, H4, H5, H6. simpl. rewrite E1, E2, E3, E4, E5, E6.
  repeat apply conj; try done.
  intros Hwf. apply H7. by apply wf_stop.
Qed.

Lemma forEach_deleteTransport ks : forall s,
  let s' := run_state (forEach ks deleteTransport) s in
  own (transports s') = foldl (fun m k => delete k m) (own (transports s)) ks /\
  proto (transports s') = proto (transports s) /\
  same_pinger s s' /\
  on_close s' = on_close s /\ env s' = env s.
Proof.
  induction ks as [|k ks IH]; intros s; [cbn; by repeat apply conj|].
  cbv zeta. rewrite forEach_cons.
  destruct (IH (run_state (deleteTransport k) s))
    as (H1 & H2 & (H3 & H4 & H5) & H6 & H7).
  unfold same_pinger. by rewrite H1, H2, H3, H4, H5, H6, H7.
Qed.

Lemma delete_all_keys o :
  foldl (fun m k => delete k m) (own o) (keys o) = ∅.
Proof.
  apply map_eq. intros k. rewrite foldl_delete_lookup, lookup_empty.
  destruct (decide (k ∈ keys o)) as [|Hout]; [done|].
  destruct (own o !! k) as [x|] eqn:Hk; [|done].
  exfalso. apply Hout. unfold keys. apply list_elem_of_fmap.
  exists (k, x). split; [done|]. by apply elem_of_map_to_list.
Qed.

(** X14: [cleanupAllResources] removes every property the two
    registries own and leaves their prototypes and the close listeners
    as they are. If [keepAliveTimers] still has its original prototype
    and every live interval is the timer kept for its session id, as in
    every state reached without a session called [__proto__], no
    interval is live afterwards and no later tick writes a heartbeat. *)
Theorem cleanupAllResources_clears_own_entries (s : t) :
  let s' := run_state cleanupAllResources s in
  own (keepAliveTimers s') = ∅ /\
  own (transports s') = ∅ /\
  proto (keepAliveTimers s') = proto (keepAliveTimers s) /\
  proto (transports s') = proto (transports s) /\
  on_close s' = on_close s /\
  (wf s -> proto (keepAliveTimers s) = None ->
     intervals s' = ∅ /\
     (forall h ok, run_effects (tick h ok) s' = [])).
Proof.
  intros s'. unfold s', cleanupAllResources. msimpl.
  set (loop := forEach (keys (keepAliveTimers s)) _).
  destruct (forEach_stop (keys (keepAliveTimers s)) s)
    as (H1 & H2 & H3 & H4 & H5 & H6 & H7).
  fold loop in H1, H2, H3, H4, H5, H6, H7.
  destruct (forEach_deleteTransport (keys (transports (run_state loop s)))
              (run_state loop s)) as (G1 & G2 & G3 & G4 & G5).
  cbv zeta in *.
  set (s2 := run_state (forEach (keys (transports (run_state loop s)))
                          deleteTransport) (run_state loop s)) in *.
  destruct G3 as (G3 & G3i & G3n).
  assert (Ht : own (keepAliveTimers s2) = ∅).
  { rewrite G3, H1. apply delete_all_keys. }
  assert (Hb : own (transports s2) = ∅).
  { rewrite G1. apply delete_all_keys. }
  repeat apply conj; try done.
  - by rewrite G3.
  - by rewrite G2, H3.
  - by rewrite G4.
  - intros Hwf Hp.
    assert (Hwf2 : wf s2).
    { eapply wf_same_pinger; [|apply H7, Hwf]. done. }
    assert (Hi : intervals s2 = ∅).
    { apply map_eq. intros h. rewrite lookup_empty.
      destruct (intervals s2 !! h) as [[sid res]|] eqn:Hh; [|done].
      apply (wf_registered _ Hwf2) in Hh.
      rewrite slot_own, Ht in Hh by (by rewrite G3, H2). done. }
    split; [done|].
    intros h ok. by rewrite tick_effects, Hi, lookup_empty.
Qed.

Lemma two_streams_cleaned_up :
  let s := run [Mcp (GET None "s1" Resolves); Sse "s2" Resolves] (init bare) in
  intervals (run_state cleanupAllResources s) = ∅.
Proof.
  intros s.
  destruct (cleanupAllResources_clears_own_entries s) as (_ & _ & _ & _ & _ & H).
  apply H; [apply wf_run, wf_init | reflexivity].
Defined.

(** ** DELETE *)

Lemma inherited_nonempty sid : inherited sid = true -> sid <> "".
Proof. by intros H ->. Qed.

(** X15: a DELETE without a session id, or for an id under which the
    lookup [transports[id]] finds nothing, is answered with 404 and
    changes nothing. Otherwise it is answered with 202; the binding and
    the timer that the registries own for that id, and of no other id,
    are removed, no interval of that session stays live, and the
    stream's close listener stays registered. With the registries on
    their original prototype, a second DELETE for the same id is
    answered with 404 unless the id is a name inherited from
    [Object.prototype], for which every DELETE is answered with 202. *)
Theorem delete_removes_one_session (s : t) (header : option string) :
  let out := mcpHandler (DELETE header) s in
  (truthy header = false \/
   read (env s) (transports s) (render header) = None ->
   out = (Responded (mkResponse 404 None BEmpty), s, [])) /\
  (forall sid,
      header = Some sid -> sid <> "" ->
      is_Some (read (env s) (transports s) sid) ->
      out.1.1 = Responded (mkResponse 202 None BEmpty) /\
      own (transports out.1.2) = delete sid (own (transports s)) /\
      own (keepAliveTimers out.1.2) = delete sid (own (keepAliveTimers s)) /\
      on_close out.1.2 = on_close s /\
      (wf s -> forall h res, intervals out.1.2 !! h <> Some (sid, res)) /\
      (proto (transports s) = None ->
       (mcpHandler (DELETE header) out.1.2).1.1 =
         Responded (mkResponse (if inherited sid then 202 else 404)
                               None BEmpty))).
Proof.
  intros out. unfold out. clear out. split.
  - intros Hno.
    assert (Hc : truthy header &&
                 bool_decide (is_Some (read (env s) (transports s)
                                         (render header))) = false).
    { destruct Hno as [-> | ->]; [done|].
      rewrite bool_decide_eq_false_2; [apply andb_false_r | by intros [? ?]]. }
    unfold mcpHandler, mcp_delete, transportOf, bind, gets, ret. simpl.
    by rewrite Hc.
  - intros sid -> Hne Hb.
    assert (Hc : truthy (Some sid) &&
                 bool_decide (is_Some (read (env s) (transports s) sid)) = true).
    { rewrite bool_decide_eq_true_2 by done.
      simpl. by destruct (String.eqb_spec sid ""). }
    change (mcpHandler (DELETE (Some sid)) s).1.1
      with (run_value (mcpHandler (DELETE (Some sid))) s).
    change (mcpHandler (DELETE (Some sid)) s).1.2
      with (run_state (mcpHandler (DELETE (Some sid))) s).
    assert (Hst : run_state (mcpHandler (DELETE (Some sid))) s =
                  run_state (cleanupSession sid) s).
    { unfold mcpHandler. msimpl. rewrite delete_state.
      change (render (Some sid)) with sid. by rewrite Hc. }
    rewrite Hst. split; [|split; [|split; [|split; [|split]]]].
    + unfold mcpHandler, mcp_delete. msimpl.
      change (render (Some sid)) with sid. rewrite Hc. by msimpl.
    + apply cleanup_own_transports.
    + apply cleanup_own_timers.
    + apply cleanup_streams.
    + intros Hwf h res. rewrite cleanup_intervals. intros Hl.
      assert (intervals s !! h = Some (sid, res)) as Hh.
      { destruct (read (env s) (keepAliveTimers s) sid); [|done].
        by eapply cleared_sub. }
      rewrite (read_slot _ _ _ _ (wf_registered _ Hwf _ _ _ Hh)) in Hl.
      simpl in Hl. by rewrite lookup_delete_eq in Hl.
    + intros Hp.
      set (s1 := run_state (cleanupSession sid) s).
      destruct (cleanup_own_transports sid s) as [Ho Hp1].
      fold s1 in Ho, Hp1. rewrite Hp in Hp1.
      assert (Hgone : own (transports s1) !! sid = None).
      { rewrite Ho. apply lookup_delete_eq. }
      change ((mcpHandler (DELETE (Some sid)) s1).1.1)
        with (run_value (mcpHandler (DELETE (Some sid))) s1).
      unfold mcpHandler, mcp_delete. msimpl.
      change (render (Some sid)) with sid.
      rewrite truthy_Some by done. cbn [andb].
      destruct (inherited sid) eqn:Hi.
      * rewrite read_inherited by done.
        rewrite bool_decide_eq_true_2 by eauto. by msimpl.
      * rewrite read_own, Hgone by done.
        rewrite bool_decide_eq_false_2 by (by intros [? ?]). by msimpl.
Qed.

Lemma delete_of_established_session :
  let s := run [Mcp (GET None "s1" Resolves); Mcp (GET None "s2" Resolves)]
               (init bare) in
  own (transports (mcpHandler (DELETE (Some "s1")) s).1.2) =
  delete "s1" (own (transports s)).
Proof.
  intros s.
  destruct (proj2 (delete_removes_one_session s (Some "s1")) "s1")
    as (_ & H & _);
    [reflexivity | discriminate | eexists; by vm_compute | exact H].
Defined.

(** ** Establishing a stream *)

Lemma established_plain sid s :
  sid <> "__proto__" ->
  proto (transports s) = None -> proto (keepAliveTimers s) = None ->
  established sid Resolves s =
  mkState (mkObject (<[sid := VTransport (next_stream s)]> (own (transports s)))
                    None)
          (mkObject (<[sid := VTimeout (next_handle s)]>
                       (own (keepAliveTimers s))) None)
          (<[next_handle s := (sid, next_stream s)]>
             match read (env s) (keepAliveTimers s) sid with
             | Some v => cleared v (intervals s)
             | None => intervals s
             end)
          (S (next_handle s))
          (<[next_stream s := sid]> (on_close s))
          (S (next_stream s)) (env s).
Proof.
  intros Hsid Hpb Hpt. unfold established.
  rewrite assign_plain by done. cbv zeta. rewrite start_state. cbv zeta.
  cbn [transports keepAliveTimers intervals next_handle on_close
       next_stream env].
  by rewrite assign_plain.
Qed.

(** X16: with the registries on their original prototype, a GET whose
    [server.connect] resolves, for a session id other than
    [__proto__], binds the session to the stream it opened, replacing
    any earlier binding of that id, registers the stream's close
    listener, and leaves exactly one live interval for the session,
    whose tick writes the heartbeat frame to that new stream. The
    session id is the request's header if it has one, else the
    generated id, which is then returned in the Mcp-Session-Id response
    header. Other sessions are not touched. *)
Theorem establishment_binds_and_pings
    (s : t) (header : option string) (generated : string) :
  let sid := or_else header generated in
  let s' := step s (Mcp (GET header generated Resolves)) in
  sid <> "__proto__" ->
  proto (transports s) = None -> proto (keepAliveTimers s) = None ->
  own (transports s') !! sid = Some (VTransport (next_stream s)) /\
  on_close s' !! next_stream s = Some sid /\
  own (keepAliveTimers s') !! sid = Some (VTimeout (next_handle s)) /\
  intervals s' !! next_handle s = Some (sid, next_stream s) /\
  run_effects (tick (next_handle s) true) s' =
    [Write (next_stream s) ping_frame] /\
  run_value (mcpHandler (GET header generated Resolves)) s =
    Stream (Streaming (if truthy header then None else Some sid)) /\
  (forall h, own (keepAliveTimers s) !! sid = Some (VTimeout h) ->
             h <> next_handle s -> intervals s' !! h = None) /\
  (forall k, k <> sid ->
             own (transports s') !! k = own (transports s) !! k /\
             own (keepAliveTimers s') !! k = own (keepAliveTimers s) !! k).
Proof.
  intros sid s' Hsid Hpb Hpt.
  assert (Hs' : s' = established sid Resolves s).
  { unfold s', step, fire, mcpHandler. msimpl. by rewrite get_state. }
  rewrite Hs', established_plain by done. simpl.
  repeat apply conj.
  - apply lookup_insert_eq.
  - apply lookup_insert_eq.
  - apply lookup_insert_eq.
  - apply lookup_insert_eq.
  - rewrite tick_effects. simpl. rewrite lookup_insert_eq.
    unfold read. simpl. by rewrite lookup_insert_eq.
  - unfold mcpHandler, mcp_get. msimpl. fold sid.
    rewrite setTransport_value, setTransport_state.
    cbn [transports env next_stream].
    rewrite assign_plain by done. cbn [bool_decide decide_rel]. msimpl.
    rewrite bool_decide_eq_true_2 by eauto. msimpl.
    rewrite start_value.
    cbn [transports keepAliveTimers intervals next_handle on_close
         next_stream env].
    rewrite assign_plain by done. by msimpl.
  - intros h Hh Hne. rewrite lookup_insert_ne by done.
    unfold read. rewrite Hh. simpl. apply lookup_delete_eq.
  - intros k Hk. by rewrite !lookup_insert_ne.
Qed.

Lemma first_establishment :
  own (transports (step (init bare) (Mcp (GET None "s1" Resolves)))) !! "s1"
    = Some (VTransport 0%nat) /\
  run_effects (tick 0%nat true)
              (step (init bare) (Mcp (GET None "s1" Resolves))) =
    [Write 0%nat ping_frame].
Proof.
  destruct (establishment_binds_and_pings (init bare) None "s1")
    as (H1 & _ & _ & _ & H2 & _); [discriminate | reflexivity | reflexivity|].
  split; [exact H1 | exact H2].
Defined.

(** X17: the close listener of a stream tears down whatever is bound
    to its session id when it fires. If a session is established twice
    and the first stream closes afterwards, the binding to the second
    stream is removed and its interval cleared although the second
    stream is still open. *)
Theorem close_of_replaced_stream_removes_new_binding
    (s : t) (sid g1 g2 : string) :
  proto (transports s) = None -> proto (keepAliveTimers s) = None ->
  sid <> "" -> sid <> "__proto__" ->
  let s2 := run [Mcp (GET (Some sid) g1 Resolves);
                 Mcp (GET (Some sid) g2 Resolves)] s in
  let s3 := step s2 (Close (next_stream s)) in
  own (transports s2) !! sid = Some (VTransport (S (next_stream s))) /\
  intervals s2 !! S (next_handle s) = Some (sid, S (next_stream s)) /\
  own (transports s3) !! sid = None /\
  own (keepAliveTimers s3) !! sid = None /\
  intervals s3 !! S (next_handle s) = None /\
  on_close s3 !! S (next_stream s) = Some sid.
Proof.
  intros Hpb Hpt Hne Hnp s2 s3.
  assert (Hsid : forall g, or_else (Some sid) g = sid).
  { intros g. unfold or_else. by destruct (String.eqb_spec sid ""). }
  assert (Hrun : s2 = established sid Resolves (established sid Resolves s)).
  { unfold s2, run. simpl. unfold step, fire, mcpHandler. msimpl.
    by rewrite !get_state, !Hsid. }
  assert (Hs2 : own (transports s2) !! sid = Some (VTransport (S (next_stream s))) /\
                own (keepAliveTimers s2) !! sid = Some (VTimeout (S (next_handle s))) /\
                intervals s2 !! S (next_handle s) = Some (sid, S (next_stream s)) /\
                on_close s2 !! next_stream s = Some sid /\
                on_close s2 !! S (next_stream s) = Some sid).
  { rewrite Hrun, (established_plain sid s) by done.
    rewrite established_plain by done.
    cbn [transports keepAliveTimers intervals next_handle on_close
         next_stream own].
    rewrite !lookup_insert_eq. rewrite lookup_insert_ne by lia.
    by rewrite lookup_insert_eq. }
  destruct Hs2 as (Hb & Ht & Hi & Hl1 & Hl2).
  split; [done|]. split; [done|].
  assert (Hs3 : s3 = run_state (cleanupSession sid)
            (mkState (transports s2) (keepAliveTimers s2) (intervals s2)
               (next_handle s2) (delete (next_stream s) (on_close s2))
               (next_stream s2) (env s2))).
  { unfold s3, step, fire. by rewrite close_state, Hl1. }
  rewrite Hs3. split; [|split; [|split]].
  - rewrite (proj1 (cleanup_own_transports _ _)). apply lookup_delete_eq.
  - rewrite (proj1 (cleanup_own_timers _ _)). apply lookup_delete_eq.
  - rewrite cleanup_intervals. unfold read. simpl. rewrite Ht.
    simpl. apply lookup_delete_eq.
  - rewrite (proj1 (cleanup_streams _ _)). simpl.
    rewrite lookup_delete_ne by lia. done.
Qed.

Lemma replaced_stream_closes :
  let s2 := run [Mcp (GET (Some "s1") "g1" Resolves);
                 Mcp (GET (Some "s1") "g2" Resolves)] (init bare) in
  own (transports s2) !! "s1" = Some (VTransport 1%nat) /\
  own (transports (step s2 (Close 0%nat))) !! "s1" = None /\
  on_close (step s2 (Close 0%nat)) !! 1%nat = Some "s1".
Proof.
  intros s2.
  destruct (close_of_replaced_stream_removes_new_binding
              (init bare) "s1" "g1" "g2")
    as (H1 & _ & H2 & _ & _ & H3);
    [reflexivity | reflexivity | discriminate | discriminate |].
  split; [exact H1|]. split; [exact H2 | exact H3].
Defined.

(** ** Bindings and open streams *)

Lemma listened_init rt : listened (init rt).
Proof.
  split; simpl.
  - intros sid r. by rewrite lookup_empty.
  - intros r [x Hx]. by rewrite lookup_empty in Hx.
Qed.

Lemma listened_same s s' :
  transports s' = transports s -> on_close s' = on_close s ->
  next_stream s' = next_stream s -> listened s -> listened s'.
Proof. intros Ht Ho Hn [H1 H2]. split; rewrite ?Ht, ?Ho, ?Hn; auto. Qed.

Lemma listened_stop sid s :
  listened s -> listened (run_state (stopKeepAlivePinger sid) s).
Proof.
  destruct (stop_transports sid s) as (Ht & _ & Ho & Hn).
  by apply listened_same.
Qed.

Lemma listened_start sid res s :
  listened s -> listened (run_state (startKeepAlivePinger sid res) s).
Proof. apply listened_same; by rewrite start_state. Qed.

Lemma listened_established sid connect s :
  listened s -> listened (established sid connect s).
Proof.
  intros [H1 H2]. unfold established.
  destruct (assign (env s) (transports s) sid (VTransport (next_stream s)))
    as [o|] eqn:Ho.
  - cbv zeta.
    assert (listened (mkState o (keepAliveTimers s) (intervals s)
              (next_handle s) (<[next_stream s := sid]> (on_close s))
              (S (next_stream s)) (env s))) as Hl.
    { split; simpl.
      - intros k v Hk.
        destruct (assign_own _ _ _ _ _ _ _ Ho Hk) as [[-> ->]|Hold].
        + eexists. split; [done|]. apply lookup_insert_eq.
        + destruct (H1 _ _ Hold) as (r & -> & Hr). exists r. split; [done|].
          rewrite lookup_insert_ne; [done|].
          intros <-. assert (next_stream s < next_stream s)%nat; [|lia].
          apply H2. eauto.
      - intros r [x Hx].
        apply lookup_insert_Some in Hx as [[<- _]|[_ Hx]]; [lia|].
        assert (r < next_stream s)%nat; [|lia]. apply H2. eauto. }
    destruct connect; [by apply listened_start | done].
  - split; simpl; [done|].
    intros r Hr. apply H2 in Hr. lia.
Qed.

Lemma listened_step s e : listened s -> listened (step s e).
Proof.
  intros Hl.
  destruct (step_cases s e)
    as [->|[[sid ->]|[(sid & s0 & -> & _ & Ht & _ & Hn & Ho)|(sid & c & ->)]]].
  - done.
  - by apply listened_stop.
  - destruct Hl as [H1 H2].
    destruct (cleanup_own_transports sid s0) as [Hown _].
    destruct (cleanup_streams sid s0) as (Hoc & Hns & _).
    split; rewrite ?Hown, ?Hoc, ?Hns, ?Hn, ?Ht.
    + intros k v. rewrite lookup_delete_Some. intros [Hk Hv].
      destruct (H1 _ _ Hv) as (r & -> & Hr). exists r. split; [done|].
      destruct Ho as [-> | (res & Hres & ->)]; [done|].
      rewrite lookup_delete_ne; [done|]. intros <-. congruence.
    + intros r [x Hx]. apply H2.
      destruct Ho as [Ho | (res & Hres & Ho)]; rewrite Ho in Hx; [eauto|].
      apply lookup_delete_Some in Hx as [_ Hx]. eauto.
  - by apply listened_established.
Qed.

Lemma listened_run es s : listened s -> listened (run es s).
Proof.
  revert s. induction es as [|e es IH]; intros s Hl; [done|].
  simpl. by apply IH, listened_step.
Qed.

(** X18: in every state the process can reach, under any interleaving
    of requests, closes and ticks, every binding the registry owns
    (every binding but one made under the id [__proto__]) is a
    transport whose stream is still open, with a close listener
    registered for that binding's session id; so when that stream
    closes, the binding and the keep-alive timer of the session are
    removed and no interval of the session stays live. *)
Theorem binding_never_outlives_its_stream
    (rt : runtime) (es : list event) (sid : string) (v : value) :
  let s := run es (init rt) in
  own (transports s) !! sid = Some v ->
  exists r,
    v = VTransport r /\
    on_close s !! r = Some sid /\
    own (transports (step s (Close r))) !! sid = None /\
    own (keepAliveTimers (step s (Close r))) !! sid = None /\
    (forall h res, intervals (step s (Close r)) !! h <> Some (sid, res)) /\
    on_close (step s (Close r)) !! r = None.
Proof.
  intros s Hb.
  destruct (listened_bound _ (listened_run es (init rt) (listened_init rt))
              _ _ Hb) as (r & -> & Hl).
  fold s in Hl. exists r. split; [done|]. split; [done|].
  unfold step, fire. rewrite close_state, Hl.
  set (s0 := mkState _ _ _ _ _ _ _).
  assert (Hwf : wf s0).
  { eapply wf_same_pinger; [|apply (wf_run es (init rt) (wf_init rt))]. done. }
  rewrite (proj1 (cleanup_own_transports _ _)),
          (proj1 (cleanup_own_timers _ _)), (proj1 (cleanup_streams _ _)).
  simpl. rewrite !lookup_delete_eq. repeat apply conj; try done.
  intros h res. rewrite cleanup_intervals. intros Hlive.
  assert (intervals s0 !! h = Some (sid, res)) as Hh.
  { destruct (read (env s0) (keepAliveTimers s0) sid); [|done].
    by eapply cleared_sub. }
  rewrite (read_slot _ _ _ _ (wf_registered _ Hwf _ _ _ Hh)) in Hlive.
  simpl in Hlive. by rewrite lookup_delete_eq in Hlive.
Qed.

Lemma binding_after_failed_write_is_still_closable :
  exists r,
    VTransport 0%nat = VTransport r /\
    own (transports (step (run write_failure (init bare)) (Close r))) !! "s1"
      = None.
Proof.
  destruct (binding_never_outlives_its_stream bare write_failure "s1"
              (VTransport 0%nat)) as (r & Hr & _ & H & _);
    [by vm_compute | exists r; split; [exact Hr | exact H]].
Defined.

(** ** Message posts *)

Lemma mcp_post_run id fresh outcome s :
  mcp_post id fresh outcome s =
    (if truthy id &&
        bool_decide (is_Some (read (env s) (transports s) (render id)))
     then handlePostMessage (read (env s) (transports s) (render id)) outcome
     else mkResponse 202 (Some (or_else id fresh)) BEmpty, s, []).
Proof.
  unfold mcp_post, transportOf, bind, gets, ret.
  destruct (truthy id),
    (bool_decide (is_Some (read (env s) (transports s) (render id))));
    reflexivity.
Qed.

Lemma messageHandler_run id outcome s :
  messageHandler id outcome s =
    (if negb (truthy id)
     then mkResponse 400 None (BError "Missing sessionId parameter")
     else if bool_decide (is_Some (read (env s) (transports s) (render id)))
          then handlePostMessage (read (env s) (transports s) (render id))
                                 outcome
          else mkResponse 404 None (BError "No transport found for sessionId"),
     s, []).
Proof.
  unfold messageHandler, transportOf, bind, gets, ret.
  destruct (truthy id); [|reflexivity]. cbn [negb]. cbn beta iota.
  destruct (read (env s) (transports s) (render id)) eqn:Hb.
  - rewrite bool_decide_eq_true_2 by eauto. reflexivity.
  - rewrite bool_decide_eq_false_2 by (by intros [? ?]). reflexivity.
Qed.

(** X19: a message post never changes the registry, the timers or the
    streams, on either endpoint. When the lookup [transports[id]] finds
    a transport, both endpoints answer with what [handlePostMessage]
    sent, or with 500 if it threw before sending headers; when it finds
    something that is not a transport (an inherited member), both
    answer 500. They differ when the lookup finds nothing: the legacy
    endpoint answers 400 without a [sessionId] and 404 for an unknown
    one, where the unified endpoint answers 202. *)
Theorem posts_leave_state_and_differ_when_unbound
    (s : t) (id : option string) (fresh : string) (outcome : post_outcome) :
  let found := read (env s) (transports s) (render id) in
  mcp_post id fresh outcome s =
    (if truthy id && bool_decide (is_Some found)
     then handlePostMessage found outcome
     else mkResponse 202 (Some (or_else id fresh)) BEmpty, s, []) /\
  messageHandler id outcome s =
    (if negb (truthy id)
     then mkResponse 400 None (BError "Missing sessionId parameter")
     else if bool_decide (is_Some found)
          then handlePostMessage found outcome
          else mkResponse 404 None (BError "No transport found for sessionId"),
     s, []) /\
  (forall sid, id = Some sid -> sid <> "" -> found = None ->
     status (run_value (mcp_post id fresh outcome) s) = 202 /\
     status (run_value (messageHandler id outcome) s) = 404) /\
  (forall r, handlePostMessage (Some (VTransport r)) outcome =
             after_post outcome) /\
  (forall h, handlePostMessage (Some VOther) outcome = processing_error /\
             handlePostMessage (Some (VTimeout h)) outcome = processing_error) /\
  (forall sent,
     after_post (Threw false sent) = processing_error /\
     after_post (Threw true sent) = sent).
Proof.
  intros found.
  pose proof (mcp_post_run id fresh outcome s) as H1.
  pose proof (messageHandler_run id outcome s) as H2.
  fold found in H1, H2.
  split; [done|]. split; [done|]. split; [|done].
  intros sid -> Hne Hno. unfold run_value. rewrite H1, H2.
  rewrite Hno.
  rewrite bool_decide_eq_false_2 by (by intros [? ?]).
  rewrite andb_false_r. rewrite truthy_Some by done. done.
Qed.

Lemma unknown_id_on_both_endpoints :
  status (run_value (mcp_post (Some "nobody") "f" (Threw false
            (mkResponse 200 None BEmpty))) (init bare)) = 202 /\
  status (run_value (messageHandler (Some "nobody") (Threw false
            (mkResponse 200 None BEmpty))) (init bare)) = 404.
Proof.
  apply (proj1 (proj2 (proj2 (posts_leave_state_and_differ_when_unbound
           (init bare) (Some "nobody") "f"
           (Threw false (mkResponse 200 None BEmpty)))))
           "nobody"); [reflexivity | discriminate | reflexivity].
Defined.

(** ** Session ids that name inherited properties *)

(** X20: with the registries on their original prototype, a session id
    that is the name of a member of [Object.prototype] ([constructor],
    [toString], [__proto__], ...) is treated as a bound session
    although nothing is registered under it: a POST to either endpoint
    is answered with 500, since what the lookup finds has no
    [handlePostMessage], and a DELETE is answered with 202 after
    calling [clearInterval] and both [delete]s, all of which change
    nothing. *)
Theorem inherited_names_count_as_sessions
    (s : t) (sid fresh : string) (outcome : post_outcome) :
  proto (transports s) = None -> proto (keepAliveTimers s) = None ->
  inherited sid = true ->
  own (transports s) !! sid = None ->
  own (keepAliveTimers s) !! sid = None ->
  mcp_post (Some sid) fresh outcome s = (processing_error, s, []) /\
  messageHandler (Some sid) outcome s = (processing_error, s, []) /\
  mcpHandler (DELETE (Some sid)) s =
    (Responded (mkResponse 202 None BEmpty), s,
     [ClearInterval VOther; DeleteTimer sid; DeleteTransport sid]).
Proof.
  intros Hpb Hpt Hi Hb Ht.
  pose proof (inherited_nonempty _ Hi) as Hne.
  pose proof (read_inherited (env s) _ _ Hpb Hi Hb) as Hrb.
  pose proof (read_inherited (env s) _ _ Hpt Hi Ht) as Hrt.
  pose proof (mcp_post_run (Some sid) fresh outcome s) as H1.
  pose proof (messageHandler_run (Some sid) outcome s) as H2.
  change (render (Some sid)) with sid in H1, H2.
  rewrite Hrb, truthy_Some in H1, H2 by done.
  split; [exact H1|]. split; [exact H2|].
  assert (Hstate : run_state (cleanupSession sid) s = s).
  { rewrite cleanup_state. cbv zeta. rewrite stop_state, Hrt, Hrb.
    cbn [cleared transports keepAliveTimers intervals next_handle on_close
         next_stream env].
    rewrite !delete_property_id by done. by destruct s. }
  assert (Heff : run_effects (cleanupSession sid) s =
                 [ClearInterval VOther; DeleteTimer sid; DeleteTransport sid]).
  { by rewrite cleanup_effects, Hrt, Hrb. }
  rewrite (surjective_pairing (mcpHandler (DELETE (Some sid)) s)).
  rewrite (surjective_pairing (mcpHandler (DELETE (Some sid)) s).1).
  change (mcpHandler (DELETE (Some sid)) s).1.1
    with (run_value (mcpHandler (DELETE (Some sid))) s).
  change (mcpHandler (DELETE (Some sid)) s).1.2
    with (run_state (mcpHandler (DELETE (Some sid))) s).
  change (mcpHandler (DELETE (Some sid)) s).2
    with (run_effects (mcpHandler (DELETE (Some sid))) s).
  unfold mcpHandler. msimpl. rewrite delete_state.
  unfold mcp_delete. msimpl.
  change (render (Some sid)) with sid.
  rewrite Hrb, truthy_Some by done.
  rewrite bool_decide_eq_true_2 by eauto. cbn [andb]. msimpl.
  rewrite Hstate, Heff. by rewrite app_nil_r.
Qed.

Lemma constructor_on_a_fresh_process :
  mcp_post (Some "constructor") "f" accepted (init bare) =
    (processing_error, init bare, []) /\
  mcpHandler (DELETE (Some "constructor")) (init bare) =
    (Responded (mkResponse 202 None BEmpty), init bare,
     [ClearInterval VOther; DeleteTimer "constructor";
      DeleteTransport "constructor"]).
Proof.
  destruct (inherited_names_count_as_sessions (init bare) "constructor" "f"
              accepted) as (H1 & _ & H2);
    [reflexivity | reflexivity | reflexivity | reflexivity | reflexivity |].
  split; [exact H1 | exact H2].
Defined.

Lemma established_proto s :
  proto (transports s) = None -> proto (keepAliveTimers s) = None ->
  own (transports s) !! "__proto__" = None ->
  own (keepAliveTimers s) !! "__proto__" = None ->
  established "__proto__" Resolves s =
  mkState (mkObject (own (transports s)) (Some (VTransport (next_stream s))))
          (mkObject (own (keepAliveTimers s)) (Some (VTimeout (next_handle s))))
          (<[next_handle s := ("__proto__", next_stream s)]> (intervals s))
          (S (next_handle s))
          (<[next_stream s := "__proto__"]> (on_close s))
          (S (next_stream s)) (env s).
Proof.
  intros Hpb Hpt Hb Ht. unfold established, assign. rewrite Hb. simpl.
  rewrite start_state. cbv zeta.
  cbn [transports keepAliveTimers intervals next_handle on_close
       next_stream env].
  unfold read, assign. rewrite Ht, Hpt. done.
Qed.

(** X21: a stream established under the session id [__proto__] is not
    filed as a property: the assignments replace the prototypes of the
    two registries. [Object.keys] does not list the session, so
    [cleanupAllResources] leaves its interval running; and when the
    stream closes its interval is cleared, but the [delete] removes
    nothing, the lookup [transports["__proto__"]] still finds the
    transport of the closed stream, and a DELETE for the id is
    answered with 202 and changes nothing, however often it is
    repeated. *)
Theorem proto_session_survives_teardown (s : t) (generated : string) :
  proto (transports s) = None -> proto (keepAliveTimers s) = None ->
  own (transports s) !! "__proto__" = None ->
  own (keepAliveTimers s) !! "__proto__" = None ->
  let s1 := step s (Mcp (GET (Some "__proto__") generated Resolves)) in
  let s2 := step s1 (Close (next_stream s)) in
  own (transports s1) = own (transports s) /\
  own (keepAliveTimers s1) = own (keepAliveTimers s) /\
  intervals s1 !! next_handle s = Some ("__proto__", next_stream s) /\
  (own (keepAliveTimers s) = ∅ ->
   intervals (run_state cleanupAllResources s1) !! next_handle s =
     Some ("__proto__", next_stream s)) /\
  intervals s2 !! next_handle s = None /\
  read (env s2) (transports s2) "__proto__" =
    Some (VTransport (next_stream s)) /\
  run_value (mcp_delete (Some "__proto__")) s2 = mkResponse 202 None BEmpty /\
  run_state (mcp_delete (Some "__proto__")) s2 = s2.
Proof.
  intros Hpb Hpt Hb Ht s1 s2.
  assert (Hs1 : s1 = established "__proto__" Resolves s).
  { unfold s1, step, fire, mcpHandler. msimpl. by rewrite get_state. }
  rewrite established_proto in Hs1 by done.
  assert (Hs2 : s2 =
    mkState (mkObject (own (transports s)) (Some (VTransport (next_stream s))))
            (mkObject (own (keepAliveTimers s)) (Some (VTimeout (next_handle s))))
            (delete (next_handle s)
               (<[next_handle s := ("__proto__", next_stream s)]> (intervals s)))
            (S (next_handle s))
            (delete (next_stream s)
               (<[next_stream s := "__proto__"]> (on_close s)))
            (S (next_stream s)) (env s)).
  { unfold s2, step, fire. rewrite close_state, Hs1.
    cbn [on_close]. rewrite lookup_insert_eq.
    rewrite cleanup_state. cbv zeta. rewrite stop_state.
    cbn [transports keepAliveTimers intervals next_handle on_close
         next_stream env].
    unfold read. cbn [own proto]. rewrite Hb, Ht. simpl.
    unfold delete_property. simpl. by rewrite !delete_id by done. }
  assert (Hrb : read (env s2) (transports s2) "__proto__" =
                Some (VTransport (next_stream s))).
  { rewrite Hs2. unfold read. simpl. by rewrite Hb. }
  assert (Hrt : read (env s2) (keepAliveTimers s2) "__proto__" =
                Some (VTimeout (next_handle s))).
  { rewrite Hs2. unfold read. simpl. by rewrite Ht. }
  repeat apply conj.
  - by rewrite Hs1.
  - by rewrite Hs1.
  - rewrite Hs1. apply lookup_insert_eq.
  - intros Hnone. unfold cleanupAllResources. msimpl.
    assert (Hk : keys (keepAliveTimers s1) = []).
    { rewrite Hs1. unfold keys. simpl. by rewrite Hnone, map_to_list_empty. }
    rewrite Hk. cbn [forEach foldr]. msimpl.
    destruct (forEach_deleteTransport (keys (transports s1)) s1)
      as (_ & _ & (_ & -> & _) & _).
    rewrite Hs1. apply lookup_insert_eq.
  - rewrite Hs2. apply lookup_delete_eq.
  - exact Hrb.
  - unfold mcp_delete. msimpl.
    change (render (Some "__proto__")) with "__proto__".
    rewrite Hrb. simpl. by msimpl.
  - rewrite delete_state. change (render (Some "__proto__")) with "__proto__".
    rewrite Hrb. simpl.
    rewrite cleanup_state. cbv zeta. rewrite stop_state, Hrt, Hrb.
    rewrite Hs2.
    cbn [cleared transports keepAliveTimers intervals next_handle on_close
         next_stream env].
    unfold delete_property. simpl.
    rewrite !(delete_id (own _)) by done.
    rewrite (delete_id (delete _ _)) by apply lookup_delete_eq. done.
Qed.

Lemma proto_session_on_a_fresh_process :
  let s2 := run proto_session (init bare) in
  read (env s2) (transports s2) "__proto__" = Some (VTransport 0%nat) /\
  run_value (mcp_delete (Some "__proto__")) s2 = mkResponse 202 None BEmpty.
Proof.
  destruct (proto_session_survives_teardown (init bare) "g")
    as (_ & _ & _ & _ & _ & H1 & H2 & _);
    [reflexivity | reflexivity | reflexivity | reflexivity |].
  split; [exact H1 | exact H2].
Defined.

End TransportPropertiesMore.
